(** * Resolve .cube LUT reader and writer: a shallow embedding

    This development embeds [colour/io/luts/resolve_cube.py]
    ([read_LUT_ResolveCube] and [write_LUT_ResolveCube]) together with the
    small part of Python and numpy the two functions rely on, and proves
    properties of the codec.

    Modelling conventions.
    - Text is a [string] of characters with code points below 256; a file
      is the text it holds, as decoded by [open], and the writer is
      described by the sequence of its [cube_file.write] calls.
    - A Python exception is a value of [exn]; a computation that may raise
      returns a [result].
    - A floating-point scalar is modelled by the rational number it denotes
      ([Q]).  Non-finite values, the literals that denote them, and the
      rounding of a decimal literal to the nearest binary64 value are
      outside the model: statements about scalars that were parsed are made
      up to [10 ^ -decimals].
    - A numpy array is a nested list; a 2-D array is a list of rows, a
      4-D array is indexed [r], [g], [b], [c] from the outside in.
    - The object that the caller passes to the writer is threaded through
      the call: the writer returns its final value next to the outcome.

    Layout: the modules [Py], [Np], [LUT1D], [LUT2D], [LUT3D] and
    [ResolveCube] hold the embedding; [Spec], [Claims], [Samples] and
    [Props] hold the vocabulary of the statements; the sections that follow
    hold the proofs.  *)

From Stdlib Require Import List String Ascii Bool Arith ZArith NArith QArith Qabs Lia.
Import ListNotations.

(** ** Python primitives *)

Module Py.

Local Open Scope string_scope.

(** Exceptions raised by the modelled code. *)
Inductive exn : Type :=
| AssertionError (msg : string)
| ValueError
| IndexError
| OverflowError.

Inductive result (A : Type) : Type :=
| Ok (a : A)
| Raise (e : exn).
Arguments Ok {A} a.
Arguments Raise {A} e.

Definition bind {A B : Type} (m : result A) (k : A -> result B) : result B :=
  match m with
  | Ok a => k a
  | Raise e => Raise e
  end.

Definition assert (b : bool) (msg : string) : result unit :=
  if b then Ok tt else Raise (AssertionError msg).

Definition of_option {A : Type} (o : option A) (e : exn) : result A :=
  match o with
  | Some a => Ok a
  | None => Raise e
  end.

(** [mapM f l]: a list comprehension whose body may raise. *)
Fixpoint mapM {A B : Type} (f : A -> result B) (l : list A) : result (list B) :=
  match l with
  | [] => Ok []
  | a :: l' =>
      bind (f a) (fun b => bind (mapM f l') (fun bs => Ok (b :: bs)))
  end.

(** *** Characters and strings *)

Definition LF : ascii := ascii_of_nat 10.
Definition CR : ascii := ascii_of_nat 13.

(** The double quote, as a string. *)
Definition quote : string := String (ascii_of_nat 34) EmptyString.

(** [str.isspace] on the code points below 256: the characters 9 to 13
    (tab, line feed, vertical tab, form feed, carriage return), 28 to 31
    (the separators), 32 (space), 133 (next line) and 160 (no-break
    space); [str.strip] and [str.split] remove and split at these. *)
Definition isspace (c : ascii) : bool :=
  let n := nat_of_ascii c in
  ((9 <=? n)%nat && (n <=? 13)%nat) || ((28 <=? n)%nat && (n <=? 32)%nat) ||
  (n =? 133)%nat || (n =? 160)%nat.

Fixpoint lstrip (s : string) : string :=
  match s with
  | EmptyString => EmptyString
  | String c s' => if isspace c then lstrip s' else s
  end.

Fixpoint rstrip (s : string) : string :=
  match s with
  | EmptyString => EmptyString
  | String c s' =>
      match rstrip s' with
      | EmptyString => if isspace c then EmptyString else String c EmptyString
      | r => String c r
      end
  end.

(** [s.strip()] *)
Definition strip (s : string) : string := rstrip (lstrip s).

(** [s.split()]: the maximal runs of characters that are not whitespace. *)
Fixpoint split (s : string) : list string :=
  match s with
  | EmptyString => []
  | String c s' =>
      if isspace c then split s'
      else
        match s' with
        | EmptyString => [String c EmptyString]
        | String c' _ =>
            if isspace c' then String c EmptyString :: split s'
            else
              match split s' with
              | t :: ts => String c t :: ts
              | [] => [String c EmptyString]
              end
        end
  end.

(** [s.startswith(p)] *)
Fixpoint startswith (p s : string) : bool :=
  match p with
  | EmptyString => true
  | String a p' =>
      match s with
      | EmptyString => false
      | String b s' => Ascii.eqb a b && startswith p' s'
      end
  end.

(** [sep.join(l)] *)
Definition join (sep : string) (l : list string) : string := String.concat sep l.

(** [s[1:]] *)
Definition drop_first (s : string) : string :=
  match s with
  | EmptyString => EmptyString
  | String _ s' => s'
  end.

(** [s[:-1]] *)
Fixpoint drop_last (s : string) : string :=
  match s with
  | EmptyString => EmptyString
  | String c s' =>
      match s' with
      | EmptyString => EmptyString
      | String _ _ => String c (drop_last s')
      end
  end.

(** [s.replace(old, new)] for single characters. *)
Fixpoint replace_char (old new : ascii) (s : string) : string :=
  match s with
  | EmptyString => EmptyString
  | String c s' =>
      String (if Ascii.eqb c old then new else c) (replace_char old new s')
  end.

(** *** Text files *)

(** Universal newlines, as applied by [open(path)] when reading: ["\r\n"]
    and a lone ["\r"] both become ["\n"]. *)
Fixpoint universal_newlines (s : string) : string :=
  match s with
  | EmptyString => EmptyString
  | String c s' =>
      if Ascii.eqb c CR then
        String LF
          match s' with
          | String c' s'' =>
              if Ascii.eqb c' LF then universal_newlines s''
              else universal_newlines s'
          | EmptyString => EmptyString
          end
      else String c (universal_newlines s')
  end.

(** The lines of a text, each with its terminating line feed when it has
    one. *)
Fixpoint cut_lines (s : string) : list string :=
  match s with
  | EmptyString => []
  | String c s' =>
      if Ascii.eqb c LF then String c EmptyString :: cut_lines s'
      else
        match cut_lines s' with
        | [] => [String c EmptyString]
        | l :: ls => String c l :: ls
        end
  end.

(** [open(path).readlines()] on a file holding [content]. *)
Definition readlines (content : string) : list string :=
  cut_lines (universal_newlines content).

(** *** Decimal digits *)

Definition digit_char (n : N) : ascii := ascii_of_N (48 + n).

Definition isdigit (c : ascii) : bool :=
  let n := N_of_ascii c in ((48 <=? n) && (n <=? 57))%N.

Definition digit_val (c : ascii) : N := N_of_ascii c - 48.

(** The last [w] decimal digits of [n], most significant first. *)
Fixpoint fixed_digits (w : nat) (n : N) : string :=
  match w with
  | O => EmptyString
  | S w' => fixed_digits w' (n / 10) ++ String (digit_char (n mod 10)) EmptyString
  end.

(** The number of decimal digits of [n] (1 for 0); [fuel] bounds the
    number of divisions and [N.size_nat n] is always enough. *)
Fixpoint num_digits (fuel : nat) (n : N) : nat :=
  match fuel with
  | O => 1
  | S f => if (n <? 10)%N then 1 else S (num_digits f (n / 10))
  end.

(** [str(n)] for a natural number. *)
Definition str_N (n : N) : string :=
  fixed_digits (num_digits (N.size_nat n) n) n.

(** The value of a string of digits read from the left, continuing [acc]. *)
Fixpoint digits_val (acc : N) (s : string) : N :=
  match s with
  | EmptyString => acc
  | String c s' => digits_val (acc * 10 + digit_val c) s'
  end.

(** The longest prefix of digits and what follows it. *)
Fixpoint span_digits (s : string) : string * string :=
  match s with
  | EmptyString => (EmptyString, EmptyString)
  | String c s' =>
      if isdigit c then
        let (d, r) := span_digits s' in (String c d, r)
      else (EmptyString, s)
  end.

(** An optional sign: [true] for a leading minus. *)
Definition take_sign (s : string) : bool * string :=
  match s with
  | String "-" s' => (true, s')
  | String "+" s' => (false, s')
  | _ => (false, s)
  end.

(** Digit grouping: an underscore may stand between two digits of a
    literal.  [ungroup s] is [s] without its underscores, when each of them
    follows a digit and comes before a digit; [prev] is the character
    before [s]. *)
Fixpoint ungroup_from (prev : ascii) (s : string) : option string :=
  match s with
  | EmptyString => if Ascii.eqb prev "_" then None else Some EmptyString
  | String c s' =>
      if Ascii.eqb c "_" then
        if isdigit prev then ungroup_from c s' else None
      else if (Ascii.eqb prev "_" && negb (isdigit c))%bool then None
      else option_map (String c) (ungroup_from c s')
  end.

Definition ungroup (s : string) : option string := ungroup_from "000" s.

(** An integer literal without grouping: an optional sign and at least one
    digit. *)
Definition decimal_int (s : string) : option Z :=
  let (neg, s1) := take_sign s in
  match span_digits s1 with
  | (String c d, EmptyString) =>
      let n := Z.of_N (digits_val 0 (String c d)) in
      Some (if neg then (- n)%Z else n)
  | _ => None
  end.

(** [int(s)] on a token: an integer literal, with or without grouping. *)
Definition parse_int (s : string) : option Z :=
  match ungroup s with
  | Some t => decimal_int t
  | None => None
  end.

(** *** Scalars *)

Fixpoint pow10 (k : nat) : positive :=
  match k with
  | O => 1%positive
  | S k' => (10 * pow10 k')%positive
  end.

(** The integer nearest to [a / b], ties going to the even one: the
    rounding of the ['f'] presentation type. *)
Definition round_half_even (a : Z) (b : positive) : Z :=
  let fl := (a / Zpos b)%Z in
  let r := (a mod Zpos b)%Z in
  if (2 * r <? Zpos b)%Z then fl
  else if (Zpos b <? 2 * r)%Z then (fl + 1)%Z
  else if Z.even fl then fl else (fl + 1)%Z.

(** [x] scaled by [10 ^ d] and rounded to an integer. *)
Definition scaled_round (d : nat) (x : Q) : Z :=
  round_half_even (Qnum x * Zpos (pow10 d)) (Qden x).

(** ['{:0.{d}f}'.format(x)]: fixed point with exactly [d] fractional
    digits; the sign is that of [x], also when [x] rounds to zero. *)
Definition format_float (d : nat) (x : Q) : string :=
  let m := Z.to_N (Z.abs (scaled_round d x)) in
  let p := Npos (pow10 d) in
  (if (Qnum x <? 0)%Z then "-" else "") ++
  str_N (m / p) ++
  match d with
  | O => ""
  | S _ => "." ++ fixed_digits d (m mod p)
  end.

(** The exponent part of a literal: empty, or [e] or [E] and an integer. *)
Definition parse_exponent (s : string) : option Z :=
  match s with
  | EmptyString => Some 0%Z
  | String c t =>
      if (Ascii.eqb c "e" || Ascii.eqb c "E")%bool then decimal_int t else None
  end.

(** [m * 10 ^ k] as a rational. *)
Definition scale10 (m : Z) (k : Z) : Q :=
  if (0 <=? k)%Z then inject_Z (m * 10 ^ k)
  else Qmake m (Z.to_pos (10 ^ (- k))).

(** A decimal literal without grouping: an optional sign, digits with an
    optional fractional part (at least one digit in all), and an optional
    exponent; its value is the rational that the literal denotes. *)
Definition decimal_float (s : string) : option Q :=
  let (neg, s1) := take_sign s in
  let (ip, s2) := span_digits s1 in
  let (fp, s3) :=
    match s2 with
    | String "." t => span_digits t
    | _ => (EmptyString, s2)
    end in
  match ip ++ fp with
  | EmptyString => None
  | String _ _ as ds =>
      match parse_exponent s3 with
      | None => None
      | Some e =>
          let m := Z.of_N (digits_val 0 ds) in
          Some (scale10 (if neg then (- m)%Z else m)
                        (e - Z.of_nat (String.length fp)))
      end
  end.

(** [float(s)] on a token holding a decimal literal, with or without
    grouping.  The value is the rational that the literal denotes: the
    rounding to the nearest binary64 value is not modelled, and neither are
    the literals [inf], [infinity] and [nan], which denote no rational. *)
Definition parse_float (s : string) : option Q :=
  match ungroup s with
  | Some t => decimal_float t
  | None => None
  end.

(** [float(s)], raising [ValueError] when [s] is no literal. *)
Definition float (s : string) : result Q := of_option (parse_float s) ValueError.

(** [np.int_(s)]: the integer literal as a C long; [ValueError] when [s] is
    no literal, [OverflowError] when its value does not fit in 64 bits. *)
Definition int_ (s : string) : result Z :=
  match parse_int s with
  | None => Raise ValueError
  | Some n =>
      if ((- 2 ^ 63 <=? n) && (n <? 2 ^ 63))%Z then Ok n
      else Raise OverflowError
  end.

End Py.

(** ** numpy arrays *)

Module Np.

Import Py.

Definition ndarray1 : Type := list Q.
Definition ndarray2 : Type := list (list Q).
Definition ndarray4 : Type := list (list (list (list Q))).

(** [np.asarray(rows)] for a list of 1-D arrays: the rows must have one
    length to form a rectangular array (numpy raises [ValueError] on an
    inhomogeneous shape; older versions build an array of objects, which is
    outside the model).  Of an empty list numpy makes a 1-D array of shape
    [(0,)]; the model has no such array and gives the 2-D array without
    rows. *)
Definition asarray (rows : list (list Q)) : result ndarray2 :=
  if forallb (fun r => List.length r =? List.length (hd [] rows))%nat rows
  then Ok rows else Raise ValueError.

(** [tstack([a, a, a])] for a 1-D array [a]: each scalar broadcast to three
    channels. *)
Definition tstack3 (a : ndarray1) : ndarray2 := map (fun x => [x; x; x]) a.

(** [len(np.unique(a))]: the number of distinct values of a 2-D array. *)
Fixpoint unique (l : list Q) : list Q :=
  match l with
  | [] => []
  | x :: l' => if existsb (Qeq_bool x) l' then unique l' else x :: unique l'
  end.

Definition count_unique (a : ndarray2) : nat := List.length (unique (List.concat a)).

Fixpoint array_equal1 (a b : ndarray1) : bool :=
  match a, b with
  | [], [] => true
  | x :: a', y :: b' => Qeq_bool x y && array_equal1 a' b'
  | _, _ => false
  end.

(** [np.array_equal(a, b)]: same shape and equal elements. *)
Fixpoint array_equal (a b : ndarray2) : bool :=
  match a, b with
  | [], [] => true
  | x :: a', y :: b' => array_equal1 x y && array_equal a' b'
  | _, _ => false
  end.

(** Python slice bounds: [l[:n]] and [l[n:]] for any integer [n]; a
    negative [n] counts from the end. *)
Definition slice_index (n : Z) (len : nat) : nat :=
  if (n <? 0)%Z then Z.to_nat (Z.max 0 (Z.of_nat len + n))
  else Nat.min (Z.to_nat n) len.

Definition slice_to {A : Type} (n : Z) (l : list A) : list A :=
  firstn (slice_index n (List.length l)) l.

Definition slice_from {A : Type} (n : Z) (l : list A) : list A :=
  skipn (slice_index n (List.length l)) l.

(** The elements of a 2-D array in Fortran order: first axis fastest, so
    column after column. *)
Definition column (j : nat) (a : ndarray2) : list Q :=
  map (fun row => nth j row 0) a.

Definition ravelF2 (a : ndarray2) : list Q :=
  flat_map (fun j => column j a) (seq 0 (List.length (hd [] a))).

Definition get4 (t : ndarray4) (r g b c : nat) : Q :=
  nth c (nth b (nth g (nth r t []) []) []) 0.

(** The elements of a 4-D array in Fortran order: [r] fastest, then [g],
    then [b], the channel [c] slowest. *)
Definition ravelF4 (t : ndarray4) : list Q :=
  let nr := List.length t in
  let ng := List.length (hd [] t) in
  let nb := List.length (hd [] (hd [] t)) in
  let nc := List.length (hd [] (hd [] (hd [] t))) in
  flat_map (fun c =>
    flat_map (fun b =>
      flat_map (fun g =>
        map (fun r => get4 t r g b c) (seq 0 nr))
      (seq 0 ng))
    (seq 0 nb))
  (seq 0 nc).

(** The array of shape [(nr, ng, nb, nc)] whose Fortran-order elements are
    [flat]. *)
Definition unravelF4 (nr ng nb nc : nat) (flat : list Q) : ndarray4 :=
  map (fun r =>
    map (fun g =>
      map (fun b =>
        map (fun c => nth (r + nr * (g + ng * (b + nb * c))) flat 0)
            (seq 0 nc))
      (seq 0 nb))
    (seq 0 ng))
  (seq 0 nr).

(** The array of shape [(m, k)] whose Fortran-order elements are [flat]. *)
Definition unravelF2 (m k : nat) (flat : list Q) : ndarray2 :=
  map (fun i => map (fun j => nth (i + m * j) flat 0) (seq 0 k)) (seq 0 m).

(** [a.reshape((s, s, s, 3), order='F')] for a 2-D array [a]: a negative
    dimension is refused, and so is a shape of another size than [a]. *)
Definition reshape_cube (s : Z) (a : ndarray2) : result ndarray4 :=
  if (s <? 0)%Z then Raise ValueError
  else
    let flat := ravelF2 a in
    if (Z.of_nat (List.length flat) =? s * s * s * 3)%Z
    then let n := Z.to_nat s in Ok (unravelF4 n n n 3 flat)
    else Raise ValueError.

(** [t.reshape([-1, 3], order='F')] for a 4-D array [t]: the number of
    rows is the size of [t] divided by 3, which must be exact. *)
Definition reshape_rows (t : ndarray4) : result ndarray2 :=
  let flat := ravelF4 t in
  if (List.length flat mod 3 =? 0)%nat
  then Ok (unravelF2 (List.length flat / 3) 3 flat) else Raise ValueError.

End Np.

(** ** The LUT containers *)

(** The classes [LUT1D], [LUT2D], [LUT3D] and [LUTSequence] belong to
    [colour.io.luts], which is not part of the source file; the codec only
    builds them and reads and sets their attributes.  An assignment stores
    the value: what the classes themselves refuse when an attribute is set
    (a table or a domain of a shape they do not hold) is not modelled: a
    file whose range directives carry two values and that holds a data row
    gives them nothing to refuse. *)

Module LUT1D.
(** Modelled from the spec: the class [LUT1D] is missing; a LUT carries a
    name, a table, a domain and comments, and the table of a 1-D LUT is a
    sequence of scalars with a domain of two scalars. *)
Record t : Type := make
  { name : string; table : Np.ndarray1; domain : Np.ndarray1;
    comments : list string }.
End LUT1D.

Module LUT2D.
(** Modelled from the spec: the class [LUT2D] is missing; a shaper carries a
    name, a table of [N] rows, a domain of two rows and comments. *)
Record t : Type := make
  { name : string; table : Np.ndarray2; domain : Np.ndarray2;
    comments : list string }.
(** Modelled from the spec: the attribute [size] is missing; the size of a
    table is its primary dimension. *)
Definition size (l : t) : nat := List.length (table l).
Definition set_name (v : string) (l : t) : t :=
  make v (table l) (domain l) (comments l).
Definition set_table (v : Np.ndarray2) (l : t) : t :=
  make (name l) v (domain l) (comments l).
Definition set_domain (v : Np.ndarray2) (l : t) : t :=
  make (name l) (table l) v (comments l).
Definition set_comments (v : list string) (l : t) : t :=
  make (name l) (table l) (domain l) v.
End LUT2D.

Module LUT3D.
(** Modelled from the spec: the class [LUT3D] is missing; a cube carries a
    name, a grid of triples indexed [(r, g, b)], a domain of two rows and
    comments. *)
Record t : Type := make
  { name : string; table : Np.ndarray4; domain : Np.ndarray2;
    comments : list string }.
(** Modelled from the spec: the attribute [size] is missing; the size of a
    table is its primary dimension. *)
Definition size (l : t) : nat := List.length (table l).
Definition set_name (v : string) (l : t) : t :=
  make v (table l) (domain l) (comments l).
Definition set_table (v : Np.ndarray4) (l : t) : t :=
  make (name l) v (domain l) (comments l).
Definition set_domain (v : Np.ndarray2) (l : t) : t :=
  make (name l) (table l) v (comments l).
Definition set_comments (v : list string) (l : t) : t :=
  make (name l) (table l) (domain l) v.
End LUT3D.

(** [np.array([[0, 0, 0], [1, 1, 1]])] *)
Definition default_domain : Np.ndarray2 := [[0; 0; 0]; [1; 1; 1]].

(** Modelled from the spec: the constructor call [LUT2D()] is missing; it
    gives the placeholder of an absent stage, with the default domain and
    no comments; its table and its name are never read. *)
Definition LUT2D_default : LUT2D.t :=
  LUT2D.make EmptyString [] default_domain [].

(** Modelled from the spec: the constructor call [LUT3D()] is missing; it
    gives the placeholder of an absent stage, with the default domain and
    no comments; its table and its name are never read. *)
Definition LUT3D_default : LUT3D.t :=
  LUT3D.make EmptyString [] default_domain [].

(** Modelled from the spec: the method [as_LUT] is missing; a 1-D table
    stands for the shaper whose three channels repeat it, and so does its
    domain. *)
Definition as_LUT2D (l : LUT1D.t) : LUT2D.t :=
  LUT2D.make (LUT1D.name l) (Np.tstack3 (LUT1D.table l))
             (Np.tstack3 (LUT1D.domain l)) (LUT1D.comments l).

(** A LUT of one of the three classes, and the Python values the reader
    returns and the writer receives. *)
Inductive lut : Type :=
| L1D (l : LUT1D.t)
| L2D (l : LUT2D.t)
| L3D (l : LUT3D.t).

Inductive object : Type :=
| Lut (l : lut)
| LUTSequence (stages : list lut)
| None_.

(** ** The codec *)

Module ResolveCube.

Import Py.
Local Open Scope string_scope.

(** *** [read_LUT_ResolveCube] *)

Fixpoint mem_char (c : ascii) (s : string) : bool :=
  match s with
  | EmptyString => false
  | String x s' => Ascii.eqb x c || mem_char c s'
  end.

(** [os.path.basename(path)]: what follows the last slash. *)
Fixpoint basename (p : string) : string :=
  match p with
  | EmptyString => EmptyString
  | String _ p' => if mem_char "/" p then basename p' else p
  end.

(** The part of [s] before the last occurrence of [c], for [s] holding [c]. *)
Fixpoint before_last (c : ascii) (s : string) : string :=
  match s with
  | EmptyString => EmptyString
  | String x s' =>
      if mem_char c s' then String x (before_last c s') else EmptyString
  end.

Fixpoint all_char (c : ascii) (s : string) : bool :=
  match s with
  | EmptyString => true
  | String x s' => Ascii.eqb x c && all_char c s'
  end.

(** [os.path.splitext(b)[0]] for a base name [b]: the extension starts at
    the last dot, unless only dots come before it. *)
Definition splitext_root (b : string) : string :=
  if mem_char "." b then
    let stem := before_last "." b in
    if all_char "." stem then b else stem
  else b.

(** [re.sub('_|-|\.', ' ', os.path.splitext(os.path.basename(path))[0])] *)
Definition default_title (path : string) : string :=
  replace_char "." " "
    (replace_char "-" " "
       (replace_char "_" " " (splitext_root (basename path)))).

(** The local variables of the reader while it scans the lines; [LUT0] and
    [LUT1] are the two stages of [LUT = LUTSequence(LUT2D(), LUT3D())]. *)
Record locals : Type := mk_locals
  { title : string;
    size2D : Z;
    size3D : Z;
    table : list (list Q);
    comments : list string;
    has_2D : bool;
    has_3D : bool;
    LUT0 : LUT2D.t;
    LUT1 : LUT3D.t }.

Definition init (path : string) : locals :=
  {| title := default_title path;
     size2D := 2;
     size3D := 2;
     table := [];
     comments := [];
     has_2D := false;
     has_3D := false;
     LUT0 := LUT2D_default;
     LUT1 := LUT3D_default |}.

(** [_parse_array(array)] *)
Definition _parse_array (array : list string) : result (list Q) :=
  mapM float array.

(** [tokens[1]] for [tokens = t0 :: args] *)
Definition second (args : list string) : result string :=
  of_option (nth_error args 0) IndexError.

(** The branches on [tokens[0]] of one iteration. *)
Definition dispatch (st : locals) (tokens : list string) : result locals :=
  match tokens with
  | [] => Raise IndexError
  | t0 :: args =>
      if t0 =? "TITLE" then
        Ok {| title := drop_last (drop_first (join " " args));
              size2D := size2D st; size3D := size3D st;
              table := table st; comments := comments st;
              has_2D := has_2D st; has_3D := has_3D st;
              LUT0 := LUT0 st; LUT1 := LUT1 st |}
      else if t0 =? "LUT_1D_INPUT_RANGE" then
        bind (_parse_array args) (fun domain =>
        Ok {| title := title st; size2D := size2D st; size3D := size3D st;
              table := table st; comments := comments st;
              has_2D := has_2D st; has_3D := has_3D st;
              LUT0 := LUT2D.set_domain (Np.tstack3 domain) (LUT0 st);
              LUT1 := LUT1 st |})
      else if t0 =? "LUT_3D_INPUT_RANGE" then
        bind (_parse_array args) (fun domain =>
        Ok {| title := title st; size2D := size2D st; size3D := size3D st;
              table := table st; comments := comments st;
              has_2D := has_2D st; has_3D := has_3D st;
              LUT0 := LUT0 st;
              LUT1 := LUT3D.set_domain (Np.tstack3 domain) (LUT1 st) |})
      else if t0 =? "LUT_1D_SIZE" then
        bind (second args) (fun tok =>
        bind (int_ tok) (fun n =>
        Ok {| title := title st; size2D := n; size3D := size3D st;
              table := table st; comments := comments st;
              has_2D := true; has_3D := has_3D st;
              LUT0 := LUT0 st; LUT1 := LUT1 st |}))
      else if t0 =? "LUT_3D_SIZE" then
        bind (second args) (fun tok =>
        bind (int_ tok) (fun n =>
        Ok {| title := title st; size2D := size2D st; size3D := n;
              table := table st; comments := comments st;
              has_2D := has_2D st; has_3D := true;
              LUT0 := LUT0 st; LUT1 := LUT1 st |}))
      else
        bind (_parse_array tokens) (fun row =>
        Ok {| title := title st; size2D := size2D st; size3D := size3D st;
              table := (table st ++ [row])%list; comments := comments st;
              has_2D := has_2D st; has_3D := has_3D st;
              LUT0 := LUT0 st; LUT1 := LUT1 st |})
  end.

(** One iteration of [for line in lines]. *)
Definition step (st : locals) (line : string) : result locals :=
  let line := strip line in
  if (String.length line =? 0)%nat then Ok st
  else if startswith "#" line then
    Ok {| title := title st; size2D := size2D st; size3D := size3D st;
          table := table st;
          comments := (comments st ++ [strip (drop_first line)])%list;
          has_2D := has_2D st; has_3D := has_3D st;
          LUT0 := LUT0 st; LUT1 := LUT1 st |}
  else dispatch st (split line).

(** The whole loop [for line in lines]. *)
Fixpoint scan (st : locals) (lines : list string) : result locals :=
  match lines with
  | [] => Ok st
  | line :: lines' => bind (step st line) (fun st' => scan st' lines')
  end.

(** What follows the loop: the table is stacked and the result built
    according to the directives that were met. *)
Definition classify (st : locals) : result object :=
  bind (Np.asarray (table st)) (fun table =>
  if has_2D st && has_3D st then
    let shaper :=
      LUT2D.set_table (Np.slice_to (size2D st) table)
        (LUT2D.set_name (title st ++ " - Shaper") (LUT0 st)) in
    bind (Np.reshape_cube (size3D st) (Np.slice_from (size2D st) table))
      (fun cube =>
    Ok (LUTSequence
          [L2D shaper;
           L3D (LUT3D.set_table cube
                  (LUT3D.set_comments (comments st)
                     (LUT3D.set_name (title st ++ " - Cube") (LUT1 st))))]))
  else if has_2D st then
    Ok (Lut (L2D (LUT2D.set_table table
                    (LUT2D.set_comments (comments st)
                       (LUT2D.set_name (title st) (LUT0 st))))))
  else if has_3D st then
    bind (Np.reshape_cube (size3D st) table) (fun cube =>
    Ok (Lut (L3D (LUT3D.set_table cube
                    (LUT3D.set_comments (comments st)
                       (LUT3D.set_name (title st) (LUT1 st)))))))
  else Ok None_).

(** [read_LUT_ResolveCube(path)] when the file at [path] holds [content]. *)
Definition read_LUT_ResolveCube (path content : string) : result object :=
  bind (scan (init path) (readlines content)) classify.

(** *** [write_LUT_ResolveCube] *)

Definition NL : string := String LF EmptyString.

(** The text of a file after the given sequence of [cube_file.write]
    calls. *)
Definition file_text (writes : list string) : string :=
  fold_right append EmptyString writes.

(** [_format_array(array)]: the first three scalars of a row. *)
Definition _format_array (decimals : nat) (array : list Q) : result string :=
  match array with
  | a :: b :: c :: _ =>
      Ok (format_float decimals a ++ " " ++ format_float decimals b ++ " " ++
          format_float decimals c)
  | _ => Raise IndexError
  end.

(** [_format_tuple(array)] *)
Definition _format_tuple (decimals : nat) (array : list Q) : result string :=
  match array with
  | a :: b :: _ =>
      Ok (format_float decimals a ++ " " ++ format_float decimals b)
  | _ => Raise IndexError
  end.

(** [domain[i][0]] *)
Definition domain_at (domain : Np.ndarray2) (i : nat) : result Q :=
  bind (of_option (nth_error domain i) IndexError) (fun row =>
  of_option (nth_error row 0) IndexError).

(** ['TITLE "{0}"\n'.format(name)] *)
Definition title_line (name : string) : string :=
  "TITLE " ++ quote ++ name ++ quote ++ NL.

(** ['# {0}\n'.format(comment)] *)
Definition comment_line (comment : string) : string :=
  "# " ++ comment ++ NL.

(** ['{0} {1}\n'.format(keyword, n)] *)
Definition size_line (keyword : string) (n : nat) : string :=
  keyword ++ " " ++ str_N (N.of_nat n) ++ NL.

(** The [*_INPUT_RANGE] line of a stage, written when its domain is not the
    default one. *)
Definition range_line (keyword : string) (decimals : nat)
    (domain : Np.ndarray2) : result (list string) :=
  if negb (Np.array_equal domain default_domain) then
    bind (domain_at domain 0) (fun lo =>
    bind (domain_at domain 1) (fun hi =>
    bind (_format_tuple decimals [lo; hi]) (fun s =>
    Ok [keyword ++ " " ++ s ++ NL])))
  else Ok [].

(** [for row in table: cube_file.write('{0}\n'.format(_format_array(row)))] *)
Definition data_lines (decimals : nat) (table : Np.ndarray2)
  : result (list string) :=
  mapM (fun row => bind (_format_array decimals row) (fun s => Ok (s ++ NL)))
       table.

(** The function once its argument is normalised to a pair of stages and
    the two flags: the assertions, then the [cube_file.write] calls in
    order. *)
Definition write_stages (has_2D has_3D : bool) (name : string)
    (shaper : LUT2D.t) (cube : LUT3D.t) (decimals : nat)
  : result (list string) :=
  bind (assert ((Np.count_unique (LUT2D.domain shaper) =? 2)%nat &&
                (Np.count_unique (LUT3D.domain cube) =? 2)%nat)
          "LUT domain must be 1D!") (fun _ =>
  bind (if has_2D then
          assert ((2 <=? Z.of_nat (LUT2D.size shaper))%Z &&
                  (Z.of_nat (LUT2D.size shaper) <=? 65536)%Z)
            "Shaper size must be in domain [2, 65536]!"
        else Ok tt) (fun _ =>
  bind (if has_3D then
          assert ((2 <=? Z.of_nat (LUT3D.size cube))%Z &&
                  (Z.of_nat (LUT3D.size cube) <=? 256)%Z)
            "Cube size must be in domain [2, 256]!"
        else Ok tt) (fun _ =>
  bind (if has_2D then
          bind (range_line "LUT_1D_INPUT_RANGE" decimals (LUT2D.domain shaper))
            (fun r =>
          Ok (size_line "LUT_1D_SIZE" (List.length (LUT2D.table shaper)) :: r))
        else Ok []) (fun head2 =>
  bind (if has_3D then
          bind (range_line "LUT_3D_INPUT_RANGE" decimals (LUT3D.domain cube))
            (fun r =>
          Ok (size_line "LUT_3D_SIZE" (List.length (LUT3D.table cube)) :: r))
        else Ok []) (fun head3 =>
  bind (if has_2D then
          bind (data_lines decimals (LUT2D.table shaper)) (fun rows =>
          Ok (rows ++ [NL])%list)
        else Ok []) (fun rows2 =>
  bind (if has_3D then
          bind (Np.reshape_rows (LUT3D.table cube)) (fun table =>
          data_lines decimals table)
        else Ok []) (fun rows3 =>
  Ok (title_line name ::
      map comment_line (LUT2D.comments shaper) ++
      map comment_line (LUT3D.comments cube) ++
      head2 ++ head3 ++ rows2 ++ rows3)%list))))))).

(** [write_LUT_ResolveCube(LUT, path, decimals)].  The result pairs the
    value of the caller's object [LUT] when the call ends with the outcome:
    the [cube_file.write] calls made on the file at [path] when the function
    returns [True], or the exception raised.  The assignment
    [LUT[0] = LUT[0].as_LUT(LUT2D)] of the first branch stores into the
    caller's sequence; the other branches bind the local name [LUT] to a new
    sequence. *)
Definition write_LUT_ResolveCube (LUT : object) (decimals : nat)
  : object * result (list string) :=
  match LUT with
  | LUTSequence [L1D s; L3D c] =>
      (LUTSequence [L2D (as_LUT2D s); L3D c],
       write_stages true true (LUT3D.name c) (as_LUT2D s) c decimals)
  | LUTSequence [L2D s; L3D c] =>
      (LUT, write_stages true true (LUT3D.name c) s c decimals)
  | LUTSequence _ =>
      (LUT, Raise (AssertionError "LUTSequence must be 1D+3D or 2D+3D!"))
  | Lut (L1D l) =>
      (LUT, write_stages true false (LUT1D.name l) (as_LUT2D l) LUT3D_default
              decimals)
  | Lut (L2D l) =>
      (LUT, write_stages true false (LUT2D.name l) l LUT3D_default decimals)
  | Lut (L3D l) =>
      (LUT, write_stages false true (LUT3D.name l) LUT2D_default l decimals)
  | None_ =>
      (LUT, Raise (AssertionError "LUT must be 1D, 2D, 3D, 1D+3D or 2D+3D!"))
  end.

End ResolveCube.

(** ** Properties of the codec: the vocabulary of the statements *)

Module Spec.

Import Py ResolveCube.
Local Open Scope string_scope.

(** *** Characters, tokens and lines *)

Fixpoint string_forall (p : ascii -> bool) (s : string) : bool :=
  match s with
  | EmptyString => true
  | String c s' => p c && string_forall p s'
  end.

(** No whitespace character occurs in [s]. *)
Definition no_space (s : string) : bool :=
  string_forall (fun c => negb (isspace c)) s.

(** Every character of [s] is whitespace. *)
Definition all_space (s : string) : bool := string_forall isspace s.

(** [s] holds no line break. *)
Definition single_line (s : string) : bool :=
  string_forall (fun c => negb (Ascii.eqb c LF || Ascii.eqb c CR)) s.

(** A token: not empty and free of whitespace. *)
Definition is_token (s : string) : bool :=
  negb (s =? "") && no_space s.

(** A [cube_file.write] argument that is one line: text without a line
    break, then the line feed. *)
Definition is_line (w : string) : Prop :=
  exists l, w = l ++ String LF "" /\ single_line l = true.

Definition first_char (p : ascii -> bool) (s : string) : bool :=
  match s with
  | EmptyString => false
  | String c _ => p c
  end.

(** The number of characters after the first dot of [s], if any. *)
Fixpoint fractional_digits (s : string) : nat :=
  match s with
  | EmptyString => 0
  | String c s' => if Ascii.eqb c "." then String.length s' else fractional_digits s'
  end.

(** *** Scalars *)

(** The rational that the text [format_float d x] denotes: [x] rounded to
    [d] decimal places. *)
Definition quantize (d : nat) (x : Q) : Q := Qmake (scaled_round d x) (pow10 d).

(** Scalar equality within [10 ^ -d]. *)
Definition close (d : nat) (x y : Q) : Prop := Qabs (x - y) <= 1 # pow10 d.

(** The characters of a formatted scalar. *)
Definition sign_or_digit (c : ascii) : bool := isdigit c || Ascii.eqb c "-".

Definition number_char (c : ascii) : bool :=
  isdigit c || Ascii.eqb c "-" || Ascii.eqb c ".".

(** *** The reader's variables *)

(** The effect of each kind of line on the reader's variables. *)
Definition add_comment (c : string) (st : locals) : locals :=
  {| title := title st; size2D := size2D st; size3D := size3D st;
     table := table st; comments := (comments st ++ [c])%list;
     has_2D := has_2D st; has_3D := has_3D st;
     LUT0 := LUT0 st; LUT1 := LUT1 st |}.

Definition add_comments (cs : list string) (st : locals) : locals :=
  {| title := title st; size2D := size2D st; size3D := size3D st;
     table := table st; comments := (comments st ++ cs)%list;
     has_2D := has_2D st; has_3D := has_3D st;
     LUT0 := LUT0 st; LUT1 := LUT1 st |}.

Definition add_rows (rows : list (list Q)) (st : locals) : locals :=
  {| title := title st; size2D := size2D st; size3D := size3D st;
     table := (table st ++ rows)%list; comments := comments st;
     has_2D := has_2D st; has_3D := has_3D st;
     LUT0 := LUT0 st; LUT1 := LUT1 st |}.

Definition set_title (t : string) (st : locals) : locals :=
  {| title := t; size2D := size2D st; size3D := size3D st;
     table := table st; comments := comments st;
     has_2D := has_2D st; has_3D := has_3D st;
     LUT0 := LUT0 st; LUT1 := LUT1 st |}.

Definition set_size2D (n : Z) (st : locals) : locals :=
  {| title := title st; size2D := n; size3D := size3D st;
     table := table st; comments := comments st;
     has_2D := true; has_3D := has_3D st;
     LUT0 := LUT0 st; LUT1 := LUT1 st |}.

Definition set_size3D (n : Z) (st : locals) : locals :=
  {| title := title st; size2D := size2D st; size3D := n;
     table := table st; comments := comments st;
     has_2D := has_2D st; has_3D := true;
     LUT0 := LUT0 st; LUT1 := LUT1 st |}.

Definition set_domain0 (dom : Np.ndarray2) (st : locals) : locals :=
  {| title := title st; size2D := size2D st; size3D := size3D st;
     table := table st; comments := comments st;
     has_2D := has_2D st; has_3D := has_3D st;
     LUT0 := LUT2D.set_domain dom (LUT0 st); LUT1 := LUT1 st |}.

Definition set_domain1 (dom : Np.ndarray2) (st : locals) : locals :=
  {| title := title st; size2D := size2D st; size3D := size3D st;
     table := table st; comments := comments st;
     has_2D := has_2D st; has_3D := has_3D st;
     LUT0 := LUT0 st; LUT1 := LUT3D.set_domain dom (LUT1 st) |}.

(** The title the reader recovers from a [TITLE] line written for [name]. *)
Definition read_title (name : string) : string :=
  drop_last (drop_first (join " " (split (quote ++ name ++ quote)))).

(** *** Tables and writes *)

(** The line written for a data row. *)
Definition row_line (d : nat) (row : list Q) : string :=
  (format_float d (nth 0 row 0) ++ " " ++ format_float d (nth 1 row 0) ++ " " ++
   format_float d (nth 2 row 0)) ++ NL.

(** The [*_INPUT_RANGE] line written for the bounds [lo] and [hi]. *)
Definition range_text (keyword : string) (d : nat) (lo hi : Q) : string :=
  keyword ++ " " ++ (format_float d lo ++ " " ++ format_float d hi) ++ NL.

(** A row of three scalars. *)
Definition is_triple (row : list Q) : Prop := List.length row = 3%nat.

(** [t] has shape [(nr, ng, nb, nc)]. *)
Definition shape4 (nr ng nb nc : nat) (t : Np.ndarray4) : Prop :=
  List.length t = nr /\
  Forall (fun p => List.length p = ng /\
    Forall (fun q => List.length q = nb /\
      Forall (fun row => List.length row = nc) q) p) t.

(** [a] has shape [(m, k)]. *)
Definition shape2 (m k : nat) (a : Np.ndarray2) : Prop :=
  List.length a = m /\ Forall (fun row => List.length row = k) a.

(** The triple stored at grid index [(r, g, b)]. *)
Definition cell (t : Np.ndarray4) (r g b : nat) : list Q :=
  nth b (nth g (nth r t []) []) [].

Definition map4 (f : Q -> Q) (t : Np.ndarray4) : Np.ndarray4 :=
  map (map (map (map f))) t.

(** [domain[i][0]] for a domain of shape [(2, 3)]. *)
Definition bound (dom : Np.ndarray2) (i : nat) : Q := nth 0 (nth i dom []) 0.

(** The [*_INPUT_RANGE] lines of a stage: none for the default domain. *)
Definition range_lines (keyword : string) (d : nat) (dom : Np.ndarray2)
  : list string :=
  if Np.array_equal dom default_domain then []
  else [range_text keyword d (bound dom 0) (bound dom 1)].

(** The rows of a cubic grid in the order of the file: row [i] is the cell
    at [r = i mod s], [g = (i / s) mod s], [b = i / s ^ 2]. *)
Definition cube_rows (t : Np.ndarray4) : list (list Q) :=
  let s := List.length t in
  map (fun i => cell t (i mod s) ((i / s) mod s) (i / (s * s)))
      (seq 0 (s * s * s)).

(** The writes of a cube alone and of a shaper alone. *)
Definition cube_writes (c : LUT3D.t) (d : nat) : list string :=
  (title_line (LUT3D.name c) ::
   map comment_line (LUT3D.comments c) ++
   size_line "LUT_3D_SIZE" (LUT3D.size c) ::
   range_lines "LUT_3D_INPUT_RANGE" d (LUT3D.domain c) ++
   map (row_line d) (cube_rows (LUT3D.table c)))%list.

Definition shaper_writes (l : LUT2D.t) (d : nat) : list string :=
  (title_line (LUT2D.name l) ::
   map comment_line (LUT2D.comments l) ++
   size_line "LUT_1D_SIZE" (LUT2D.size l) ::
   range_lines "LUT_1D_INPUT_RANGE" d (LUT2D.domain l) ++
   map (row_line d) (LUT2D.table l) ++ [NL])%list.

(** The writes of a shaper followed by a cube. *)
Definition combined_writes (l : LUT2D.t) (c : LUT3D.t) (d : nat) : list string :=
  (title_line (LUT3D.name c) ::
   map comment_line (LUT2D.comments l) ++
   map comment_line (LUT3D.comments c) ++
   size_line "LUT_1D_SIZE" (LUT2D.size l) ::
   range_lines "LUT_1D_INPUT_RANGE" d (LUT2D.domain l) ++
   size_line "LUT_3D_SIZE" (LUT3D.size c) ::
   range_lines "LUT_3D_INPUT_RANGE" d (LUT3D.domain c) ++
   map (row_line d) (LUT2D.table l) ++ [NL] ++
   map (row_line d) (cube_rows (LUT3D.table c)))%list.

(** The domain the reader builds from the range line written for [dom]. *)
Definition read_domain (d : nat) (dom : Np.ndarray2) : Np.ndarray2 :=
  if Np.array_equal dom default_domain then default_domain
  else Np.tstack3 [quantize d (bound dom 0); quantize d (bound dom 1)].

(** The domain that the code accepts: a [(2, 3)] array with exactly two
    distinct values. *)
Definition rectilinear (dom : Np.ndarray2) : Prop :=
  shape2 2 3 dom /\ Np.count_unique dom = 2%nat.

(** The domain whose three channels share the bounds [lo] and [hi]. *)
Definition uniform_domain (lo hi : Q) : Np.ndarray2 :=
  [[lo; lo; lo]; [hi; hi; hi]].

Definition table_close (d : nat) (a a' : Np.ndarray2) : Prop :=
  Forall2 (Forall2 (close d)) a a'.

Definition grid_close (d : nat) (t t' : Np.ndarray4) : Prop :=
  Forall2 (Forall2 (Forall2 (Forall2 (close d)))) t t'.

(** *** The lines of a file *)

(** The kinds of lines, and what the file declares. *)
Definition is_blank (line : string) : bool :=
  (String.length (strip line) =? 0)%nat.

Definition is_comment (line : string) : bool := startswith "#" (strip line).

Definition tokens_of (line : string) : list string := split (strip line).

Definition head_token (line : string) : string := hd "" (tokens_of line).

(** A line that is neither blank nor a comment and whose first token is
    [keyword]. *)
Definition is_directive (keyword line : string) : bool :=
  negb (is_blank line) && negb (is_comment line) &&
  (head_token line =? keyword).

Definition keywords : list string :=
  ["TITLE"; "LUT_1D_INPUT_RANGE"; "LUT_3D_INPUT_RANGE"; "LUT_1D_SIZE";
   "LUT_3D_SIZE"].

(** A data row: neither blank, nor a comment, nor a directive. *)
Definition is_data (line : string) : bool :=
  negb (is_blank line) && negb (is_comment line) &&
  negb (existsb (String.eqb (head_token line)) keywords).

(** The comments of a file, in file order. *)
Definition comment_texts (lines : list string) : list string :=
  map (fun l => strip (drop_first (strip l))) (filter is_comment lines).

(** The tokens of the data rows of a file, in file order. *)
Definition data_tokens (lines : list string) : list (list string) :=
  map tokens_of (filter is_data lines).

(** The size that the directive [keyword] declares: the last one counts,
    [acc] when there is none. *)
Fixpoint declared_size (keyword : string) (lines : list string) (acc : Z) : Z :=
  match lines with
  | [] => acc
  | l :: ls =>
      declared_size keyword ls
        (if is_directive keyword l then
           match nth_error (tokens_of l) 1 with
           | Some tok =>
               match parse_int tok with
               | Some n => n
               | None => acc
               end
           | None => acc
           end
         else acc)
  end.

(** The title that the file declares, [acc] when there is none. *)
Fixpoint declared_title (lines : list string) (acc : string) : string :=
  match lines with
  | [] => acc
  | l :: ls =>
      declared_title ls
        (if is_directive "TITLE" l
         then drop_last (drop_first (join " " (tl (tokens_of l))))
         else acc)
  end.

(** A range directive, of either kind. *)
Definition is_range (line : string) : bool :=
  is_directive "LUT_1D_INPUT_RANGE" line || is_directive "LUT_3D_INPUT_RANGE" line.

(** Every range directive of the file carries two values: the shape of the
    domain of a LUT. *)
Definition range_pairs (lines : list string) : bool :=
  forallb (fun l => negb (is_range l) || (List.length (tokens_of l) =? 3)%nat)
          lines.

End Spec.

Module Claims.
Import Py ResolveCube Spec.
Local Open Scope string_scope.

(** The stages of the writer's argument, when present. *)
Definition shaper_stage (LUT : object) : option LUT2D.t :=
  match LUT with
  | Lut (L1D l) => Some (as_LUT2D l)
  | Lut (L2D l) => Some l
  | LUTSequence (L1D s :: _) => Some (as_LUT2D s)
  | LUTSequence (L2D s :: _) => Some s
  | _ => None
  end.

Definition cube_stage (LUT : object) : option LUT3D.t :=
  match LUT with
  | Lut (L3D l) => Some l
  | LUTSequence (_ :: L3D c :: _) => Some c
  | _ => None
  end.

(** The names and the comments of the LUTs of the writer's argument. *)
Definition texts_of (LUT : object) : list string :=
  let texts l :=
    match l with
    | L1D x => LUT1D.name x :: LUT1D.comments x
    | L2D x => LUT2D.name x :: LUT2D.comments x
    | L3D x => LUT3D.name x :: LUT3D.comments x
    end in
  match LUT with
  | Lut l => texts l
  | LUTSequence stages => flat_map texts stages
  | None_ => []
  end.

(** The text [t] carries the scalar [x] with [d] decimals: one word with
    [d] characters after its point, whose value as a float literal is
    within [10 ^ -d] of [x]. *)
Definition carries (d : nat) (x : Q) (t : string) : Prop :=
  is_token t = true /\ fractional_digits t = d /\
  exists y, float t = Ok y /\ close d x y.

(** A line made of [keyword] and of the two bounds of the domain [dom],
    [dom[0][0]] then [dom[1][0]], with [d] decimals, one space between
    them. *)
Definition range_line_of (keyword : string) (d : nat) (dom : Np.ndarray2)
    (line : string) : Prop :=
  exists lo hi,
    line = keyword ++ " " ++ lo ++ " " ++ hi ++ String "010"%char "" /\
    carries d (bound dom 0) lo /\ carries d (bound dom 1) hi.

(** Two domains with the same shape and equal scalars. *)
Definition same_domain (a b : Np.ndarray2) : Prop := Forall2 (Forall2 Qeq) a b.

(** A shaper that the format can hold: rows of three scalars, a size within
    the bounds, one pair of distinct bounds for the three channels, and a
    name and comments that each fit on a line. *)
Definition valid_shaper (l : LUT2D.t) (lo hi : Q) : Prop :=
  Forall is_triple (LUT2D.table l) /\
  (2 <= Z.of_nat (LUT2D.size l) <= 65536)%Z /\
  LUT2D.domain l = uniform_domain lo hi /\
  ~ lo == hi /\
  single_line (LUT2D.name l) = true /\
  Forall (fun c => single_line c = true) (LUT2D.comments l).

(** The round trip of a shaper, with the comments as the result is to have
    them. *)
Definition shaper_roundtrip (comments_read : list string -> list string) : Prop :=
  forall (path : string) (l : LUT2D.t) (lo hi : Q) (d : nat),
    valid_shaper l lo hi ->
    exists writes l',
      snd (write_LUT_ResolveCube (Lut (L2D l)) d) = Ok writes /\
      read_LUT_ResolveCube path (file_text writes) = Ok (Lut (L2D l')) /\
      table_close d (LUT2D.table l) (LUT2D.table l') /\
      table_close d (LUT2D.domain l) (LUT2D.domain l') /\
      LUT2D.comments l' = comments_read (LUT2D.comments l).

(** The number of data rows that the size directives of a file declare. *)
Definition declared_rows (st : locals) : option Z :=
  match has_2D st, has_3D st with
  | true, true => Some (size2D st + size3D st ^ 3)%Z
  | true, false => Some (size2D st)
  | false, true => Some (size3D st ^ 3)%Z
  | false, false => None
  end.

(** Every file whose declared sizes disagree with its number of data rows
    is refused. *)
Definition size_mismatch_refused : Prop :=
  forall (path content : string) (st : locals) (k : Z),
    scan (init path) (readlines content) = Ok st ->
    declared_rows st = Some k ->
    k <> Z.of_nat (List.length (table st)) ->
    exists e, read_LUT_ResolveCube path content = Raise e.

End Claims.

(** ** Sample inputs *)

Module Samples.
Import Py ResolveCube.
Local Open Scope string_scope.

(** A file with a shaper of 2 rows and a cube of side 2. *)
Definition combined_file : string :=
  "TITLE " ++ quote ++ "Demo" ++ quote ++ "
# A first comment.
LUT_1D_SIZE 2
LUT_3D_SIZE 2
#   A second comment.
0.0 0.0 0.0
1.0 1.0 1.0

0.0 0.0 0.0
1.0 0.0 0.0
0.0 1.0 0.0
1.0 1.0 0.0
0.0 0.0 1.0
1.0 0.0 1.0
0.0 1.0 1.0
1.0 1.0 1.0
".

(** A shaper file that declares 3 rows and holds 2. *)
Definition short_shaper_file : string :=
  "LUT_1D_SIZE 3
0.0 0.0 0.0
1.0 1.0 1.0
".

(** A cube file that declares side 2 and holds 1 row. *)
Definition short_cube_file : string :=
  "LUT_3D_SIZE 2
0.0 0.0 0.0
".

(** A file with a title, a comment and no size directive. *)
Definition no_size_file : string :=
  "TITLE " ++ quote ++ "Demo" ++ quote ++ "
# A comment.
".

Definition sample_shaper : LUT2D.t :=
  LUT2D.make "My LUT" [[0; 0; 0]; [1 # 3; 1 # 2; 1]; [1; 1; 1]]
    [[-1 # 10; -1 # 10; -1 # 10]; [3; 3; 3]]
    ["A first comment."; "A second comment."].

(** A shaper whose comment starts with a space. *)
Definition padded_shaper : LUT2D.t :=
  LUT2D.make "My LUT" [[0; 0; 0]; [1; 1; 1]] [[0; 0; 0]; [1; 1; 1]] [" padded"].

(** The cube of side 2 whose cell [(r, g, b)] holds [(r, g, b)]. *)
Definition sample_cube : LUT3D.t :=
  LUT3D.make "My Cube"
    [[[[0; 0; 0]; [0; 0; 1]]; [[0; 1; 0]; [0; 1; 1]]];
     [[[1; 0; 0]; [1; 0; 1]]; [[1; 1; 0]; [1; 1; 1]]]]
    [[-1 # 10; -1 # 10; -1 # 10]; [3; 3; 3]]
    ["A cube comment."].

Definition sample_1D : LUT1D.t :=
  LUT1D.make "My 1D" [0; 1 # 2; 1] [0; 1] ["A shaper comment."].

End Samples.

(** ** Further vocabulary: lines, titles, domains and arguments *)

Module Props.
Import Py ResolveCube Spec.
Local Open Scope string_scope.

(** The lines of a file that count for the reader: the blank ones dropped,
    the others without the whitespace at their ends. *)
Definition significant (lines : list string) : list string :=
  map strip (filter (fun l => negb (is_blank l)) lines).

(** The text [s] with a carriage return before every line feed. *)
Fixpoint to_crlf (s : string) : string :=
  match s with
  | EmptyString => EmptyString
  | String c s' =>
      if Ascii.eqb c LF then String CR (String LF (to_crlf s'))
      else String c (to_crlf s')
  end.

(** Whitespace occurs in [s] only as single spaces: each whitespace
    character is a space, and no other whitespace character follows it. *)
Fixpoint spaced (s : string) : bool :=
  match s with
  | EmptyString => true
  | String c s' =>
      (negb (isspace c) || (Ascii.eqb c " " && negb (first_char isspace s')))
      && spaced s'
  end.

(** [s] is not empty and does not end with whitespace. *)
Fixpoint ends_nonspace (s : string) : bool :=
  match s with
  | EmptyString => false
  | String c s' =>
      match s' with
      | EmptyString => negb (isspace c)
      | String _ _ => ends_nonspace s'
      end
  end.

(** The characters of an integer literal of Python: digits, signs and the
    grouping underscore. *)
Definition int_char (c : ascii) : bool :=
  isdigit c || Ascii.eqb c "+" || Ascii.eqb c "-" || Ascii.eqb c "_".

(** The characters of a float literal of Python: those of a decimal
    literal with its exponent, the grouping underscore, and the letters of
    [inf], [infinity] and [nan] in either case. *)
Definition float_char (c : ascii) : bool :=
  isdigit c || Ascii.eqb c "+" || Ascii.eqb c "-" || Ascii.eqb c "_" ||
  mem_char c ".eEinfatyINFATY".

(** The domain that the directive [keyword] declares: the last one counts,
    [acc] when there is none. *)
Fixpoint declared_domain (keyword : string) (lines : list string)
    (acc : Np.ndarray2) : Np.ndarray2 :=
  match lines with
  | [] => acc
  | l :: ls =>
      declared_domain keyword ls
        (if is_directive keyword l then
           match _parse_array (tl (tokens_of l)) with
           | Ok dom => Np.tstack3 dom
           | Raise _ => acc
           end
         else acc)
  end.

(** Each row of a domain repeats one scalar on the three channels. *)
Definition channels_equal (dom : Np.ndarray2) : Prop :=
  Forall (fun row => exists x : Q, row = [x; x; x]) dom.

(** The domains of the LUTs of a value that the reader returns (a 1-D LUT,
    which the reader never builds, counts with the domain of its shaper). *)
Definition domains_of (o : object) : list Np.ndarray2 :=
  let dom l :=
    match l with
    | L1D x => Np.tstack3 (LUT1D.domain x)
    | L2D x => LUT2D.domain x
    | L3D x => LUT3D.domain x
    end in
  match o with
  | Lut l => [dom l]
  | LUTSequence stages => map dom stages
  | None_ => []
  end.

(** The test of the assertion on a sequence:
    [len(LUT) == 2 and (isinstance(LUT[0], LUT1D) or isinstance(LUT[0], LUT2D))
     and isinstance(LUT[1], LUT3D)]. *)
Definition sequence_ok (stages : list lut) : bool :=
  (List.length stages =? 2)%nat &&
  match nth_error stages 0 with
  | Some (L1D _) | Some (L2D _) => true
  | _ => false
  end &&
  match nth_error stages 1 with
  | Some (L3D _) => true
  | _ => false
  end.

(** The two stages that the writer works on, for the arguments that pass
    its first assertions: an absent stage is a placeholder. *)
Definition stages_of (LUT : object) : option (LUT2D.t * LUT3D.t) :=
  match LUT with
  | LUTSequence [L1D s; L3D c] => Some (as_LUT2D s, c)
  | LUTSequence [L2D s; L3D c] => Some (s, c)
  | Lut (L1D l) => Some (as_LUT2D l, LUT3D_default)
  | Lut (L2D l) => Some (l, LUT3D_default)
  | Lut (L3D l) => Some (LUT2D_default, l)
  | _ => None
  end.

(** A cube that the format can hold: a grid of side [s] within the bounds,
    one pair of distinct bounds for the three channels, and a name and
    comments that each fit on a line. *)
Definition valid_cube (c : LUT3D.t) (s : nat) (lo hi : Q) : Prop :=
  shape4 s s s 3 (LUT3D.table c) /\
  (2 <= Z.of_nat s <= 256)%Z /\
  LUT3D.domain c = uniform_domain lo hi /\
  ~ lo == hi /\
  single_line (LUT3D.name c) = true /\
  Forall (fun x => single_line x = true) (LUT3D.comments c).

End Props.

(** ** Tactics *)

(** The conjuncts of [step_effect] and [scan_effect], [rows] being the data
    rows that the lines add. *)
Ltac effect_goals rows :=
  split;
  [ try reflexivity
  | split;
    [ exists rows; split; [try reflexivity | now rewrite ?app_nil_r]
    | repeat split; try reflexivity ] ].

(** A write that does not start with the keyword at hand. *)
Ltac other_line :=
  match goal with
  | H : Py.startswith _ _ = true |- _ => cbn in H; discriminate H
  end.

(** ** Sanity checks of the embedding *)

Section Checks.
Import Py ResolveCube Spec Claims Samples.
Local Open Scope string_scope.

Example format_third : format_float 7 (1 # 3) = "0.3333333".
Proof. reflexivity. Qed.

Example format_negative : format_float 7 (-1 # 10) = "-0.1000000".
Proof. reflexivity. Qed.

Example format_ties_to_even :
  format_float 0 (1 # 2) = "0" /\ format_float 0 (3 # 2) = "2" /\
  format_float 2 (12345 # 8) = "1543.12".
Proof. repeat split; reflexivity. Qed.

Example format_negative_zero : format_float 1 (-1 # 100) = "-0.0".
Proof. reflexivity. Qed.

Example float_literals :
  parse_float "1.5e2" = Some 150 /\ parse_float ".5" = Some 0.5 /\
  parse_float "1." = Some 1 /\ parse_float "." = None /\
  parse_float "1e" = None /\ parse_float "abc" = None /\
  parse_float "1_0.2_5" = Some 10.25 /\ parse_float "1__0" = None /\
  parse_float "_1" = None /\ parse_float "1_" = None.
Proof. repeat split; reflexivity. Qed.

Example int_literals :
  parse_int "33" = Some 33%Z /\ parse_int "-4" = Some (-4)%Z /\
  parse_int "4.0" = None /\ parse_int "6_5" = Some 65%Z /\
  int_ "9223372036854775808" = Raise OverflowError.
Proof. repeat split; reflexivity. Qed.

Example split_words : split "  LUT_1D_SIZE   16 " = ["LUT_1D_SIZE"; "16"].
Proof. reflexivity. Qed.

Example strip_both_ends : strip "  # a  b  " = "# a  b".
Proof. reflexivity. Qed.

Example title_from_path :
  default_title "luts/ACES_Proxy-10.to.ACES.cube" = "ACES Proxy 10 to ACES".
Proof. reflexivity. Qed.

Example title_of_line :
  read_title "My LUT" = "My LUT" /\ read_title "My  LUT " = "My LUT ".
Proof. split; reflexivity. Qed.

Example slices :
  Np.slice_to 2 [1; 2; 3] = [1; 2] /\ Np.slice_from 2 [1; 2; 3] = [3] /\
  Np.slice_to (-1) [1; 2; 3] = [1; 2] /\ Np.slice_to 5 [1; 2; 3] = [1; 2; 3].
Proof. repeat split; reflexivity. Qed.

(** The writes for the sample cube: the rows run through the red index
    first. *)
Example write_sample_cube :
  snd (write_LUT_ResolveCube (Lut (L3D sample_cube)) 1) =
  Ok ["TITLE " ++ quote ++ "My Cube" ++ quote ++ NL;
      "# A cube comment." ++ NL;
      "LUT_3D_SIZE 2" ++ NL;
      "LUT_3D_INPUT_RANGE -0.1 3.0" ++ NL;
      "0.0 0.0 0.0" ++ NL; "1.0 0.0 0.0" ++ NL;
      "0.0 1.0 0.0" ++ NL; "1.0 1.0 0.0" ++ NL;
      "0.0 0.0 1.0" ++ NL; "1.0 0.0 1.0" ++ NL;
      "0.0 1.0 1.0" ++ NL; "1.0 1.0 1.0" ++ NL].
Proof. vm_compute. reflexivity. Qed.

(** A domain with two distinct values that are not shared by the channels
    passes the assertion of the writer and is read back as another domain. *)
Example crossed_domain_read_back :
  let l := LUT2D.make "Crossed" [[0; 0; 0]; [1; 1; 1]] [[0; 0; 1]; [1; 1; 0]] [] in
  rectilinear (LUT2D.domain l) /\
  exists writes l',
    snd (write_LUT_ResolveCube (Lut (L2D l)) 1) = Ok writes /\
    read_LUT_ResolveCube "Crossed.cube" (file_text writes) = Ok (Lut (L2D l')) /\
    LUT2D.domain l' = [[0.0; 0.0; 0.0]; [1.0; 1.0; 1.0]].
Proof.
  split.
  - split; [unfold shape2; cbn; repeat constructor|reflexivity].
  - eexists. eexists. split; [vm_compute; reflexivity|].
    split; [vm_compute; reflexivity|]. reflexivity.
Qed.

End Checks.

(** ** Strings *)

Section Strings.

Import Py ResolveCube Spec.
Local Open Scope string_scope.

Lemma append_nil_r (s : string) : s ++ "" = s.
Proof. induction s; simpl; congruence. Qed.

Lemma append_assoc (a b c : string) : (a ++ b) ++ c = a ++ (b ++ c).
Proof. induction a; simpl; congruence. Qed.

Lemma string_forall_app p (a b : string) :
  string_forall p (a ++ b) = string_forall p a && string_forall p b.
Proof.
  induction a as [|c a IH]; simpl; [reflexivity|].
  rewrite IH. now rewrite andb_assoc.
Qed.

Lemma lstrip_all_space (w s : string) :
  all_space w = true -> lstrip (w ++ s) = lstrip s.
Proof.
  induction w as [|c w IH]; simpl; [reflexivity|].
  intros H. apply andb_prop in H as [Hc Hw]. rewrite Hc. auto.
Qed.

Lemma rstrip_all_space_nil (w : string) : all_space w = true -> rstrip w = "".
Proof.
  induction w as [|c w IH]; simpl; [reflexivity|].
  intros H. apply andb_prop in H as [Hc Hw]. rewrite (IH Hw). now rewrite Hc.
Qed.

Lemma rstrip_app_space (s w : string) :
  all_space w = true -> rstrip (s ++ w) = rstrip s.
Proof.
  intros Hw. induction s as [|c s IH]; simpl.
  - now apply rstrip_all_space_nil.
  - now rewrite IH.
Qed.

Lemma rstrip_cons_nonspace c s :
  isspace c = false -> rstrip (String c s) = String c (rstrip s).
Proof. intros H. simpl. rewrite H. now destruct (rstrip s). Qed.

Lemma lstrip_rstrip (s : string) : lstrip (rstrip s) = rstrip (lstrip s).
Proof.
  induction s as [|c s IH]; [reflexivity|].
  destruct (isspace c) eqn:Hc.
  - change (lstrip (String c s)) with (if isspace c then lstrip s else String c s).
    rewrite Hc, <- IH. simpl. destruct (rstrip s) as [|x r]; rewrite ?Hc; simpl;
      [reflexivity|]. now rewrite Hc.
  - rewrite rstrip_cons_nonspace by assumption. simpl. rewrite Hc.
    now rewrite rstrip_cons_nonspace.
Qed.

Lemma rstrip_idem (s : string) : rstrip (rstrip s) = rstrip s.
Proof.
  induction s as [|c s IH]; [reflexivity|].
  simpl. destruct (rstrip s) eqn:E.
  - destruct (isspace c) eqn:Hc; [reflexivity|]. simpl. now rewrite Hc.
  - change (rstrip (String c (String a s0))) with
      (match rstrip (String a s0) with
       | "" => if isspace c then "" else String c ""
       | r => String c r end).
    now rewrite IH.
Qed.

Lemma lstrip_idem (s : string) : lstrip (lstrip s) = lstrip s.
Proof.
  induction s as [|c s IH]; [reflexivity|].
  simpl. destruct (isspace c) eqn:Hc; [assumption|]. simpl. now rewrite Hc.
Qed.

Lemma strip_rstrip (s : string) : strip (rstrip s) = strip s.
Proof. unfold strip. now rewrite lstrip_rstrip, rstrip_idem. Qed.

Lemma strip_idem (s : string) : strip (strip s) = strip s.
Proof. unfold strip. now rewrite lstrip_rstrip, rstrip_idem, lstrip_idem. Qed.

Lemma strip_space_l (w s : string) :
  all_space w = true -> strip (w ++ s) = strip s.
Proof. intros H. unfold strip. now rewrite lstrip_all_space. Qed.

Lemma strip_space_r (s w : string) :
  all_space w = true -> strip (s ++ w) = strip s.
Proof.
  intros H. unfold strip. rewrite <- !lstrip_rstrip. now rewrite rstrip_app_space.
Qed.

Lemma strip_cons_nonspace c s :
  isspace c = false -> strip (String c s) = String c (rstrip s).
Proof.
  intros H. unfold strip. simpl lstrip. rewrite H. now apply rstrip_cons_nonspace.
Qed.

(** A stripped string neither starts nor ends with whitespace. *)
Lemma lstrip_strip (s : string) : lstrip (strip s) = strip s.
Proof. unfold strip. now rewrite lstrip_rstrip, lstrip_idem. Qed.

Lemma rstrip_strip (s : string) : rstrip (strip s) = strip s.
Proof. unfold strip. now rewrite rstrip_idem. Qed.

(** *** [split] *)

Lemma split_cons_space c s : isspace c = true -> split (String c s) = split s.
Proof. intros H. simpl. now rewrite H. Qed.

Lemma split_all_space (w : string) : all_space w = true -> split w = [].
Proof.
  induction w as [|c w IH]; [reflexivity|]. simpl.
  intros H. apply andb_prop in H as [Hc Hw]. rewrite Hc. auto.
Qed.

Lemma split_space_l (w s : string) :
  all_space w = true -> split (w ++ s) = split s.
Proof.
  induction w as [|c w IH]; [reflexivity|]. simpl.
  intros H. apply andb_prop in H as [Hc Hw]. rewrite Hc. auto.
Qed.

(** A token followed by whitespace or by nothing is the first word. *)
Lemma split_token (t rest : string) :
  is_token t = true ->
  match rest with EmptyString => True | String c _ => isspace c = true end ->
  split (t ++ rest) = t :: split rest.
Proof.
  unfold is_token, no_space. intros Ht Hrest.
  apply andb_prop in Ht as [Hne Hns].
  destruct t as [|c t]; [discriminate|]. clear Hne.
  revert c Hns. induction t as [|c' t IH]; intros c Hns.
  - simpl in Hns. rewrite andb_true_r in Hns. apply negb_true_iff in Hns.
    simpl. rewrite Hns. destruct rest as [|x rest]; [reflexivity|].
    now rewrite Hrest.
  - simpl in Hns. apply andb_prop in Hns as [Hc Hns].
    assert (Hc' : isspace c' = false).
    { apply andb_prop in Hns as [H _]. now apply negb_true_iff in H. }
    apply negb_true_iff in Hc.
    change ((String c (String c' t)) ++ rest) with (String c (String c' t ++ rest)).
    change (split (String c (String c' t ++ rest))) with
      (if isspace c then split (String c' t ++ rest)
       else match String c' t ++ rest with
            | "" => [String c ""]
            | String x _ =>
                if isspace x then String c "" :: split (String c' t ++ rest)
                else match split (String c' t ++ rest) with
                     | t0 :: ts => String c t0 :: ts
                     | [] => [String c ""]
                     end
            end).
    rewrite Hc. rewrite (IH c' Hns). simpl. now rewrite Hc'.
Qed.

Lemma split_rstrip (s : string) : split (rstrip s) = split s.
Proof.
  induction s as [|c s IH]; [reflexivity|].
  destruct (isspace c) eqn:Hc.
  - rewrite (split_cons_space _ _ Hc). simpl.
    destruct (rstrip s) eqn:E; rewrite ?Hc; [now rewrite <- IH|].
    rewrite <- IH. now rewrite split_cons_space.
  - rewrite rstrip_cons_nonspace by assumption.
    simpl. rewrite Hc.
    destruct s as [|c' s].
    + reflexivity.
    + destruct (isspace c') eqn:Hc'.
      * rewrite <- IH. destruct (rstrip (String c' s)) as [|x r] eqn:E.
        -- reflexivity.
        -- assert (Hx : x = c').
           { simpl in E. destruct (rstrip s); [rewrite Hc' in E; discriminate|].
             now inversion E. }
           subst x. now rewrite Hc'.
      * rewrite <- IH. rewrite rstrip_cons_nonspace by assumption.
        now rewrite Hc'.
Qed.

Lemma split_lstrip (s : string) : split (lstrip s) = split s.
Proof.
  induction s as [|c s IH]; [reflexivity|].
  simpl lstrip. destruct (isspace c) eqn:Hc; [|reflexivity].
  now rewrite split_cons_space.
Qed.

Lemma split_strip (s : string) : split (strip s) = split s.
Proof. unfold strip. now rewrite split_rstrip, split_lstrip. Qed.

End Strings.

Section Lines.
Import Py ResolveCube Spec.
Local Open Scope string_scope.

Lemma universal_newlines_id (s : string) :
  string_forall (fun c => negb (Ascii.eqb c CR)) s = true ->
  universal_newlines s = s.
Proof.
  induction s as [|c s IH]; [reflexivity|]. simpl.
  intros H. apply andb_prop in H as [Hc Hs]. apply negb_true_iff in Hc.
  rewrite Hc. now rewrite IH.
Qed.

Lemma cut_lines_line (l rest : string) :
  single_line l = true ->
  cut_lines ((l ++ String LF "") ++ rest) = (l ++ String LF "") :: cut_lines rest.
Proof.
  induction l as [|c l IH]; intros H.
  - reflexivity.
  - simpl in H. apply andb_prop in H as [Hc Hl].
    apply negb_true_iff, orb_false_iff in Hc as [Hc _].
    simpl. rewrite Hc. now rewrite (IH Hl).
Qed.

Lemma single_line_no_cr (l : string) :
  single_line l = true ->
  string_forall (fun c => negb (Ascii.eqb c CR)) l = true.
Proof.
  induction l as [|c l IH]; [reflexivity|]. simpl. intros H.
  apply andb_prop in H as [Hc Hl]. rewrite (IH Hl), andb_true_r.
  apply negb_true_iff, orb_false_iff in Hc as [_ Hc]. now rewrite Hc.
Qed.

Lemma file_text_no_cr (ws : list string) :
  Forall is_line ws ->
  string_forall (fun c => negb (Ascii.eqb c CR)) (ResolveCube.file_text ws) = true.
Proof.
  induction 1 as [|w ws [l [-> Hl]] _ IH]; [reflexivity|]. simpl.
  rewrite !string_forall_app, IH, (single_line_no_cr _ Hl). reflexivity.
Qed.

(** Reading back the lines that were written gives the writes themselves. *)
Lemma readlines_file_text (ws : list string) :
  Forall is_line ws -> readlines (ResolveCube.file_text ws) = ws.
Proof.
  intros H. unfold readlines.
  rewrite universal_newlines_id by now apply file_text_no_cr.
  induction H as [|w ws [l [-> Hl]] _ IH]; [reflexivity|]. simpl.
  rewrite cut_lines_line by assumption. now rewrite IH.
Qed.

End Lines.

(** ** Decimal digits *)

Section Digits.
Import Py ResolveCube Spec.
Local Open Scope string_scope.
Local Open Scope N_scope.

Lemma digit_char_spec (k : N) :
  k < 10 -> isdigit (digit_char k) = true /\ digit_val (digit_char k) = k.
Proof.
  intros H. unfold isdigit, digit_val, digit_char.
  rewrite N_ascii_embedding by lia. split; [|lia].
  apply andb_true_intro. split; apply N.leb_le; lia.
Qed.

Lemma isdigit_not_space c : isdigit c = true -> isspace c = false.
Proof.
  destruct c as [[] [] [] [] [] [] [] []]; cbv; intros; congruence.
Qed.

Lemma fixed_digits_isdigit (w : nat) (n : N) :
  string_forall isdigit (fixed_digits w n) = true.
Proof.
  revert n. induction w as [|w IH]; intros n; [reflexivity|]. simpl.
  rewrite string_forall_app, IH. simpl.
  rewrite (proj1 (digit_char_spec (n mod 10) ltac:(apply N.mod_lt; lia))).
  reflexivity.
Qed.

Lemma length_append (a b : string) :
  String.length (a ++ b) = (String.length a + String.length b)%nat.
Proof. induction a; simpl; congruence. Qed.

Lemma fixed_digits_length (w : nat) (n : N) :
  String.length (fixed_digits w n) = w.
Proof.
  revert n. induction w as [|w IH]; intros n; [reflexivity|]. simpl.
  rewrite length_append, IH. simpl. lia.
Qed.

Lemma digits_val_app (acc : N) (a b : string) :
  digits_val acc (a ++ b) = digits_val (digits_val acc a) b.
Proof. revert acc. induction a; simpl; auto. Qed.

Lemma digits_val_fixed (w : nat) (n acc : N) :
  digits_val acc (fixed_digits w n) = acc * 10 ^ N.of_nat w + n mod 10 ^ N.of_nat w.
Proof.
  revert n acc. induction w as [|w IH]; intros n acc.
  - simpl. rewrite N.mod_1_r. lia.
  - simpl fixed_digits. rewrite digits_val_app, IH. simpl digits_val.
    rewrite (proj2 (digit_char_spec (n mod 10) ltac:(apply N.mod_lt; lia))).
    rewrite Nat2N.inj_succ, N.pow_succ_r'.
    rewrite (N.Div0.mod_mul_r n 10 (10 ^ N.of_nat w)). lia.
Qed.

Lemma num_digits_bound (fuel : nat) (n : N) :
  n < 2 ^ N.of_nat fuel -> n < 10 ^ N.of_nat (num_digits fuel n).
Proof.
  revert n. induction fuel as [|f IH]; intros n H.
  - simpl in *. lia.
  - simpl. destruct (n <? 10) eqn:E.
    + apply N.ltb_lt in E. simpl. lia.
    + apply N.ltb_ge in E.
      rewrite Nat2N.inj_succ, N.pow_succ_r'.
      rewrite Nat2N.inj_succ, N.pow_succ_r' in H.
      assert (n / 10 < 10 ^ N.of_nat (num_digits f (n / 10))).
      { apply IH. apply N.Div0.div_lt_upper_bound. lia. }
      pose proof (N.Div0.div_mod n 10) as D.
      pose proof (N.mod_lt n 10 ltac:(lia)). lia.
Qed.

Lemma size_nat_bound (n : N) : n < 2 ^ N.of_nat (N.size_nat n).
Proof.
  destruct n as [|p]; [simpl; lia|]. simpl N.size_nat.
  induction p as [p IH|p IH|]; simpl Pos.size_nat.
  - rewrite Nat2N.inj_succ, N.pow_succ_r'. lia.
  - rewrite Nat2N.inj_succ, N.pow_succ_r'. lia.
  - simpl. lia.
Qed.

Lemma str_N_isdigit (n : N) : string_forall isdigit (str_N n) = true.
Proof. apply fixed_digits_isdigit. Qed.

Lemma num_digits_pos (fuel : nat) (n : N) : (0 < num_digits fuel n)%nat.
Proof. destruct fuel; simpl; [lia|]. destruct (n <? 10); lia. Qed.

Lemma str_N_first (n : N) : first_char isdigit (str_N n) = true.
Proof.
  pose proof (str_N_isdigit n) as H. pose proof (fixed_digits_length (num_digits (N.size_nat n) n) n) as L.
  pose proof (num_digits_pos (N.size_nat n) n). unfold str_N in *.
  destruct (fixed_digits _ n); simpl in *; [lia|].
  now apply andb_prop in H as [H _].
Qed.

Lemma digits_val_str_N (n : N) : digits_val 0 (str_N n) = n.
Proof.
  unfold str_N. rewrite digits_val_fixed.
  rewrite N.mod_small; [lia|]. apply num_digits_bound, size_nat_bound.
Qed.

Lemma take_sign_digit (c : ascii) (s : string) :
  isdigit c = true -> take_sign (String c s) = (false, String c s).
Proof.
  destruct c as [[] [] [] [] [] [] [] []]; cbv; intros; congruence.
Qed.

Lemma span_digits_app (a b : string) :
  string_forall isdigit a = true -> first_char isdigit b = false ->
  span_digits (a ++ b) = (a, b).
Proof.
  intros Ha Hb. induction a as [|c a IH]; simpl.
  - destruct b as [|x b]; [reflexivity|]. simpl in *. now rewrite Hb.
  - simpl in Ha. apply andb_prop in Ha as [Hc Ha]. rewrite Hc, (IH Ha). reflexivity.
Qed.

Lemma decimal_int_str_N (n : N) : decimal_int (str_N n) = Some (Z.of_N n).
Proof.
  pose proof (str_N_first n) as F. pose proof (str_N_isdigit n) as D.
  pose proof (digits_val_str_N n) as V.
  unfold decimal_int. destruct (str_N n) as [|c s] eqn:E; [discriminate|].
  simpl in F. rewrite take_sign_digit by assumption.
  assert (S : span_digits (String c s) = (String c s, "")).
  { pose proof (span_digits_app (String c s) "" D eq_refl) as S.
    now rewrite append_nil_r in S. }
  rewrite S. now rewrite V.
Qed.

(** A text without underscores is its own ungrouping. *)
Lemma ungroup_from_plain (s : string) (prev : ascii) :
  Ascii.eqb prev "_" = false ->
  string_forall (fun c => negb (Ascii.eqb c "_")) s = true ->
  ungroup_from prev s = Some s.
Proof.
  revert prev. induction s as [|c s IH]; intros prev Hp H.
  - cbn. now rewrite Hp.
  - cbn [string_forall] in H. apply andb_prop in H as [Hc Hs].
    apply negb_true_iff in Hc. cbn [ungroup_from]. rewrite Hc, Hp.
    cbn [andb]. now rewrite (IH c Hc Hs).
Qed.

Lemma ungroup_plain (s : string) :
  string_forall (fun c => negb (Ascii.eqb c "_")) s = true -> ungroup s = Some s.
Proof. now apply ungroup_from_plain. Qed.

Lemma isdigit_not_underscore (c : ascii) :
  isdigit c = true -> negb (Ascii.eqb c "_") = true.
Proof. destruct c as [[] [] [] [] [] [] [] []]; cbv; intros; congruence. Qed.

Lemma parse_int_str_N (n : N) : parse_int (str_N n) = Some (Z.of_N n).
Proof.
  unfold parse_int. rewrite ungroup_plain; [apply decimal_int_str_N|].
  pose proof (str_N_isdigit n) as D. revert D.
  generalize (str_N n). intros s. induction s as [|c s IH]; [reflexivity|].
  cbn [string_forall]. intros H. apply andb_prop in H as [Hc Hs].
  now rewrite (isdigit_not_underscore _ Hc), IH.
Qed.

End Digits.

(** ** Scalars: formatting and parsing *)

Section Scalars.
Import Py ResolveCube Spec.
Local Open Scope string_scope.

Lemma pow10_N (d : nat) : Npos (pow10 d) = (10 ^ N.of_nat d)%N.
Proof.
  induction d as [|d IH]; [reflexivity|].
  rewrite Nat2N.inj_succ, N.pow_succ_r', <- IH. reflexivity.
Qed.

Lemma pow10_Z (d : nat) : Zpos (pow10 d) = (10 ^ Z.of_nat d)%Z.
Proof.
  induction d as [|d IH]; [reflexivity|].
  rewrite Nat2Z.inj_succ, Z.pow_succ_r by lia. rewrite <- IH. reflexivity.
Qed.

Lemma round_half_even_near (a : Z) (b : positive) :
  (2 * Z.abs (a - round_half_even a b * Zpos b) <= Zpos b)%Z.
Proof.
  unfold round_half_even.
  pose proof (Z.div_mod a (Zpos b) ltac:(lia)) as D.
  pose proof (Z.mod_pos_bound a (Zpos b) ltac:(lia)) as B.
  destruct (2 * (a mod Zpos b) <? Zpos b)%Z eqn:E1;
    [apply Z.ltb_lt in E1; nia|apply Z.ltb_ge in E1].
  destruct (Zpos b <? 2 * (a mod Zpos b))%Z eqn:E2;
    [apply Z.ltb_lt in E2; nia|apply Z.ltb_ge in E2].
  destruct (Z.even (a / Zpos b)); nia.
Qed.

Lemma round_half_even_sign (a : Z) (b : positive) :
  ((0 <= a -> 0 <= round_half_even a b) /\
   (a < 0 -> round_half_even a b <= 0))%Z.
Proof.
  unfold round_half_even.
  pose proof (Z.div_mod a (Zpos b) ltac:(lia)) as D.
  pose proof (Z.mod_pos_bound a (Zpos b) ltac:(lia)) as B.
  assert (0 <= a -> 0 <= a / Zpos b)%Z by (intros; apply Z.div_pos; lia).
  assert (a < 0 -> a / Zpos b < 0)%Z by (intros; apply Z.div_lt_upper_bound; lia).
  destruct (2 * (a mod Zpos b) <? Zpos b)%Z; [lia|].
  destruct (Zpos b <? 2 * (a mod Zpos b))%Z; [lia|].
  destruct (Z.even (a / Zpos b)); lia.
Qed.

(** Rounding to [d] places moves a scalar by at most half a unit of the
    last place. *)
Lemma quantize_near (d : nat) (x : Q) :
  Qabs (x - quantize d x) <= 1 # (2 * pow10 d).
Proof.
  unfold quantize, scaled_round. destruct x as [a b]. simpl Qnum. simpl Qden.
  pose proof (round_half_even_near (a * Zpos (pow10 d)) b) as H.
  set (n := round_half_even (a * Zpos (pow10 d)) b) in *.
  unfold Qle, Qabs, Qminus, Qplus, Qopp. simpl.
  rewrite Pos2Z.inj_mul.
  replace (a * Zpos (pow10 d) + - n * Zpos b)%Z
    with (a * Zpos (pow10 d) - n * Zpos b)%Z by lia.
  nia.
Qed.

Lemma quantize_close (d : nat) (x : Q) : close d x (quantize d x).
Proof.
  unfold close. eapply Qle_trans; [apply quantize_near|].
  unfold Qle. simpl. lia.
Qed.

(** Parsing a fixed-point literal with [d] fractional digits. *)
Lemma decimal_float_fixed (neg : bool) (ipn fpn : N) (d : nat) :
  decimal_float ((if neg then "-" else "") ++ str_N ipn ++
               match d with O => "" | S _ => "." ++ fixed_digits d fpn end)
  = Some (let m := Z.of_N (ipn * 10 ^ N.of_nat d + fpn mod 10 ^ N.of_nat d) in
          scale10 (if neg then (- m)%Z else m) (- Z.of_nat d)).
Proof.
  set (frac := match d with O => "" | S _ => "." ++ fixed_digits d fpn end).
  assert (Hsign : take_sign ((if neg then "-" else "") ++ str_N ipn ++ frac)
                  = (neg, str_N ipn ++ frac)).
  { destruct neg; [reflexivity|]. simpl.
    pose proof (str_N_first ipn) as F.
    destruct (str_N ipn) as [|c s]; [discriminate|]. simpl.
    now apply take_sign_digit. }
  assert (Hfrac : first_char isdigit frac = false)
    by (subst frac; destruct d; reflexivity).
  unfold decimal_float. rewrite Hsign.
  rewrite (span_digits_app _ _ (str_N_isdigit ipn) Hfrac).
  assert (Hfp : match frac with
                | String "." t => span_digits t
                | _ => ("", frac)
                end = (match d with O => "" | S _ => fixed_digits d fpn end, "")).
  { subst frac. destruct d as [|d']; [reflexivity|].
    change ("." ++ fixed_digits (S d') fpn) with (String "." (fixed_digits (S d') fpn)).
    cbv iota.
    pose proof (span_digits_app (fixed_digits (S d') fpn) "" (fixed_digits_isdigit _ _) eq_refl) as S.
    now rewrite append_nil_r in S. }
  rewrite Hfp.
  set (fp := match d with O => "" | S _ => fixed_digits d fpn end).
  assert (Hlen : String.length fp = d).
  { subst fp. destruct d; [reflexivity|]. apply fixed_digits_length. }
  assert (Hval : digits_val 0 (str_N ipn ++ fp)
                 = (ipn * 10 ^ N.of_nat d + fpn mod 10 ^ N.of_nat d)%N).
  { rewrite digits_val_app, digits_val_str_N. subst fp. destruct d.
    - simpl. rewrite N.mod_1_r. lia.
    - apply digits_val_fixed. }
  pose proof (str_N_first ipn) as F.
  destruct (str_N ipn ++ fp) as [|c s] eqn:E.
  { destruct (str_N ipn); discriminate. }
  cbv iota. simpl parse_exponent. cbv iota beta.
  rewrite Hval, Hlen. reflexivity.
Qed.

Lemma scale10_neg (n : Z) (d : nat) : scale10 n (- Z.of_nat d) = Qmake n (pow10 d).
Proof.
  unfold scale10. destruct d as [|d].
  - simpl. unfold inject_Z. f_equal. lia.
  - replace (0 <=? - Z.of_nat (S d))%Z with false by (symmetry; apply Z.leb_gt; lia).
    rewrite Z.opp_involutive, <- pow10_Z. reflexivity.
Qed.

(** The text of a formatted scalar denotes the scalar rounded to the
    precision of the text. *)
Lemma decimal_format_float (d : nat) (x : Q) :
  decimal_float (format_float d x) = Some (quantize d x).
Proof.
  unfold format_float. rewrite decimal_float_fixed. cbv zeta.
  rewrite scale10_neg. unfold quantize. do 2 f_equal.
  rewrite <- pow10_N.
  set (n := scaled_round d x).
  set (m := Z.to_N (Z.abs n)).
  pose proof (N.Div0.div_mod m (Npos (pow10 d))) as D.
  rewrite N.Div0.mod_mod.
  replace (m / Npos (pow10 d) * Npos (pow10 d) + m mod Npos (pow10 d))%N with m by lia.
  subst m. rewrite Z2N.id by lia.
  pose proof (round_half_even_sign (Qnum x * Zpos (pow10 d)) (Qden x)) as [Hp Hn].
  fold (scaled_round d x) in Hp, Hn. fold n in Hp, Hn.
  destruct (Qnum x <? 0)%Z eqn:E.
  - apply Z.ltb_lt in E. assert (n <= 0)%Z by (apply Hn; nia). lia.
  - apply Z.ltb_ge in E. assert (0 <= n)%Z by (apply Hp; nia). lia.
Qed.

Lemma string_forall_impl (p q : ascii -> bool) (s : string) :
  (forall c, p c = true -> q c = true) ->
  string_forall p s = true -> string_forall q s = true.
Proof.
  intros Hpq. induction s as [|c s IH]; [reflexivity|]. simpl.
  intros H. apply andb_prop in H as [Hc Hs]. now rewrite (Hpq _ Hc), IH.
Qed.

Lemma isdigit_number_char c : isdigit c = true -> number_char c = true.
Proof. unfold number_char. now intros ->. Qed.

Lemma format_float_chars (d : nat) (x : Q) :
  string_forall number_char (format_float d x) = true.
Proof.
  unfold format_float. rewrite !string_forall_app.
  rewrite (string_forall_impl _ _ _ isdigit_number_char (str_N_isdigit _)).
  assert (string_forall number_char (if (Qnum x <? 0)%Z then "-" else "") = true)
    as -> by (destruct (Qnum x <? 0)%Z; reflexivity).
  destruct d as [|d']; [reflexivity|].
  pose proof (string_forall_impl _ _ _ isdigit_number_char
                (fixed_digits_isdigit (S d')
                   (Z.to_N (Z.abs (scaled_round (S d') x)) mod N.pos (pow10 (S d')))))
    as F.
  remember (fixed_digits (S d') _) as fd. simpl. now rewrite F.
Qed.

Lemma format_float_first (d : nat) (x : Q) :
  first_char sign_or_digit (format_float d x) = true.
Proof.
  unfold format_float. destruct (Qnum x <? 0)%Z; [reflexivity|]. simpl.
  pose proof (str_N_first (Z.to_N (Z.abs (scaled_round d x)) / Npos (pow10 d))) as F.
  destruct (str_N _); [discriminate|]. simpl in *. unfold sign_or_digit. now rewrite F.
Qed.

Lemma number_char_not_space c : number_char c = true -> negb (isspace c) = true.
Proof. destruct c as [[] [] [] [] [] [] [] []]; cbv; intros; congruence. Qed.

Lemma number_char_not_newline c :
  number_char c = true -> negb (Ascii.eqb c LF || Ascii.eqb c CR) = true.
Proof. destruct c as [[] [] [] [] [] [] [] []]; cbv; intros; congruence. Qed.

Lemma number_char_not_underscore c :
  number_char c = true -> negb (Ascii.eqb c "_") = true.
Proof. destruct c as [[] [] [] [] [] [] [] []]; cbv; intros; congruence. Qed.

(** Reading back a formatted scalar gives the scalar rounded to the
    precision of the text. *)
Lemma parse_format_float (d : nat) (x : Q) :
  parse_float (format_float d x) = Some (quantize d x).
Proof.
  unfold parse_float. rewrite ungroup_plain; [apply decimal_format_float|].
  exact (string_forall_impl _ _ _ number_char_not_underscore
           (format_float_chars d x)).
Qed.

Lemma float_format_float (d : nat) (x : Q) :
  float (format_float d x) = Ok (quantize d x).
Proof. unfold float. now rewrite parse_format_float. Qed.

Lemma format_float_token (d : nat) (x : Q) : is_token (format_float d x) = true.
Proof.
  unfold is_token. apply andb_true_intro. split.
  - pose proof (format_float_first d x). now destruct (format_float d x).
  - exact (string_forall_impl _ _ _ number_char_not_space (format_float_chars d x)).
Qed.

Lemma format_float_single_line (d : nat) (x : Q) :
  single_line (format_float d x) = true.
Proof. exact (string_forall_impl _ _ _ number_char_not_newline (format_float_chars d x)). Qed.

Lemma fractional_digits_digits (a b : string) :
  string_forall isdigit a = true ->
  fractional_digits (a ++ b) = fractional_digits b.
Proof.
  induction a as [|c a IH]; [reflexivity|]. simpl. intros H.
  apply andb_prop in H as [Hc Ha].
  replace (Ascii.eqb c ".") with false; [auto|].
  destruct c as [[] [] [] [] [] [] [] []]; cbv in Hc |- *; congruence.
Qed.

(** A formatted scalar has exactly [d] fractional digits. *)
Lemma format_float_fractional_digits (d : nat) (x : Q) :
  fractional_digits (format_float d x) = d.
Proof.
  unfold format_float.
  assert (H : forall s, fractional_digits ((if (Qnum x <? 0)%Z then "-" else "") ++ s)
                        = fractional_digits s)
    by (intros; destruct (Qnum x <? 0)%Z; reflexivity).
  rewrite H, fractional_digits_digits by apply str_N_isdigit.
  destruct d as [|d']; [reflexivity|].
  pose proof (fixed_digits_length (S d')
                (Z.to_N (Z.abs (scaled_round (S d') x)) mod N.pos (pow10 (S d')))) as L.
  remember (fixed_digits (S d') _) as fd. simpl. exact L.
Qed.

End Scalars.

(** ** One line at a time *)

Section Steps.
Import Py ResolveCube Spec.
Local Open Scope string_scope.

Lemma strip_all_space (w : string) : all_space w = true -> strip w = "".
Proof.
  intros H. unfold strip.
  pose proof (lstrip_all_space w "" H) as L. rewrite append_nil_r in L.
  now rewrite L.
Qed.

Lemma step_blank (st : locals) (line : string) :
  all_space line = true -> step st line = Ok st.
Proof. intros H. unfold step. now rewrite strip_all_space. Qed.

Lemma step_comment (st : locals) (line rest : string) :
  strip line = String "#" rest ->
  step st line = Ok (add_comment (strip rest) st).
Proof. intros H. unfold step. rewrite H. reflexivity. Qed.

Lemma step_comment_line (st : locals) (c : string) :
  step st (comment_line c) = Ok (add_comment (strip c) st).
Proof.
  unfold comment_line.
  rewrite (step_comment st ("# " ++ c ++ NL) (rstrip (" " ++ c ++ NL))).
  - rewrite strip_rstrip.
    rewrite (strip_space_l " " (c ++ NL)) by reflexivity.
    now rewrite (strip_space_r c NL) by reflexivity.
  - now apply strip_cons_nonspace.
Qed.

Lemma step_tokens (st : locals) (c : ascii) (s : string) :
  isspace c = false -> Ascii.eqb "#" c = false ->
  step st (String c s) = dispatch st (split (String c s)).
Proof.
  intros Hc Hh. unfold step. rewrite split_strip.
  rewrite strip_cons_nonspace by assumption.
  change (startswith "#" (String c (rstrip s))) with (Ascii.eqb "#" c && true).
  rewrite Hh. reflexivity.
Qed.

Lemma is_token_digits (s : string) :
  first_char isdigit s = true -> string_forall isdigit s = true ->
  is_token s = true.
Proof.
  intros F D. unfold is_token. apply andb_true_intro. split.
  - now destruct s.
  - eapply string_forall_impl; [|exact D].
    intros c Hc. now rewrite (isdigit_not_space _ Hc).
Qed.

Lemma split_token_nl (t : string) : is_token t = true -> split (t ++ NL) = [t].
Proof. intros H. now rewrite split_token. Qed.

Lemma split_token_sp (t rest : string) :
  is_token t = true -> split (t ++ " " ++ rest) = t :: split rest.
Proof. intros H. now rewrite split_token. Qed.

Lemma step_title_line (st : locals) (name : string) :
  step st (title_line name) = Ok (set_title (read_title name) st).
Proof.
  unfold title_line.
  change ("TITLE " ++ quote ++ name ++ quote ++ NL)
    with (String "T" ("ITLE" ++ " " ++ (quote ++ name ++ quote ++ NL))).
  rewrite step_tokens by reflexivity.
  change (String "T" ("ITLE" ++ " " ++ (quote ++ name ++ quote ++ NL)))
    with ("TITLE" ++ " " ++ (quote ++ name ++ quote ++ NL)).
  rewrite split_token_sp by reflexivity.
  unfold dispatch. simpl String.eqb. cbv iota. unfold set_title, read_title.
  do 3 f_equal.
  replace (quote ++ name ++ quote ++ NL) with ((quote ++ name ++ quote) ++ NL)
    by (simpl; now rewrite append_assoc).
  rewrite <- (split_strip (_ ++ NL)), (strip_space_r _ NL) by reflexivity.
  now rewrite split_strip.
Qed.

(** A size within the bounds of the format fits in a C long. *)
Lemma fits_long (n : nat) : (Z.of_nat n <= 65536)%Z -> (Z.of_nat n < 2 ^ 63)%Z.
Proof. intros H. apply Z.le_lt_trans with 65536%Z; [exact H|reflexivity]. Qed.

Lemma step_size_line_1D (st : locals) (n : nat) :
  (Z.of_nat n < 2 ^ 63)%Z ->
  step st (size_line "LUT_1D_SIZE" n) = Ok (set_size2D (Z.of_nat n) st).
Proof.
  intros Hn. unfold size_line.
  change ("LUT_1D_SIZE" ++ " " ++ str_N (N.of_nat n) ++ NL)
    with (String "L" ("UT_1D_SIZE" ++ " " ++ str_N (N.of_nat n) ++ NL)).
  rewrite step_tokens by reflexivity.
  change (String "L" ("UT_1D_SIZE" ++ " " ++ str_N (N.of_nat n) ++ NL))
    with ("LUT_1D_SIZE" ++ " " ++ str_N (N.of_nat n) ++ NL).
  rewrite split_token_sp by reflexivity.
  rewrite split_token_nl
    by (apply is_token_digits; [apply str_N_first|apply str_N_isdigit]).
  unfold dispatch. simpl String.eqb. cbv iota.
  unfold second. simpl nth_error. simpl of_option. simpl bind at 1.
  unfold int_. rewrite parse_int_str_N, nat_N_Z.
  replace ((- 2 ^ 63 <=? Z.of_nat n) && (Z.of_nat n <? 2 ^ 63))%Z with true.
  - reflexivity.
  - symmetry. apply andb_true_intro. split; [apply Z.leb_le|apply Z.ltb_lt].
    + apply Z.le_trans with 0%Z; [discriminate|lia].
    + exact Hn.
Qed.

Lemma step_size_line_3D (st : locals) (n : nat) :
  (Z.of_nat n < 2 ^ 63)%Z ->
  step st (size_line "LUT_3D_SIZE" n) = Ok (set_size3D (Z.of_nat n) st).
Proof.
  intros Hn. unfold size_line.
  change ("LUT_3D_SIZE" ++ " " ++ str_N (N.of_nat n) ++ NL)
    with (String "L" ("UT_3D_SIZE" ++ " " ++ str_N (N.of_nat n) ++ NL)).
  rewrite step_tokens by reflexivity.
  change (String "L" ("UT_3D_SIZE" ++ " " ++ str_N (N.of_nat n) ++ NL))
    with ("LUT_3D_SIZE" ++ " " ++ str_N (N.of_nat n) ++ NL).
  rewrite split_token_sp by reflexivity.
  rewrite split_token_nl
    by (apply is_token_digits; [apply str_N_first|apply str_N_isdigit]).
  unfold dispatch. simpl String.eqb. cbv iota.
  unfold second. simpl nth_error. simpl of_option. simpl bind at 1.
  unfold int_. rewrite parse_int_str_N, nat_N_Z.
  replace ((- 2 ^ 63 <=? Z.of_nat n) && (Z.of_nat n <? 2 ^ 63))%Z with true.
  - reflexivity.
  - symmetry. apply andb_true_intro. split; [apply Z.leb_le|apply Z.ltb_lt].
    + apply Z.le_trans with 0%Z; [discriminate|lia].
    + exact Hn.
Qed.

End Steps.

Section DataLines.
Import Py ResolveCube Spec.
Local Open Scope string_scope.

Lemma eqb_first_char (s k : string) :
  first_char sign_or_digit s = true -> first_char sign_or_digit k = false ->
  (s =? k) = false.
Proof.
  destruct s as [|c s], k as [|c' k]; simpl; try congruence.
  intros Hs Hk. destruct (Ascii.eqb_spec c c'); [congruence|reflexivity].
Qed.

Lemma dispatch_data (st : locals) (t0 : string) (args : list string) :
  first_char sign_or_digit t0 = true ->
  dispatch st (t0 :: args) =
  bind (_parse_array (t0 :: args)) (fun row => Ok (add_rows [row] st)).
Proof.
  intros H. unfold dispatch.
  rewrite !(eqb_first_char t0 _ H) by reflexivity. reflexivity.
Qed.

Lemma sign_or_digit_first (c : ascii) :
  sign_or_digit c = true -> isspace c = false /\ Ascii.eqb "#" c = false.
Proof. destruct c as [[] [] [] [] [] [] [] []]; cbv; intros; split; congruence. Qed.

Lemma step_data (st : locals) (line : string) :
  first_char sign_or_digit line = true ->
  step st line = dispatch st (split line).
Proof.
  destruct line as [|c s]; [discriminate|]. simpl. intros H.
  apply sign_or_digit_first in H as [H1 H2]. now apply step_tokens.
Qed.

Lemma first_char_app (p : ascii -> bool) (a b : string) :
  first_char p a = true -> first_char p (a ++ b) = true.
Proof. now destruct a. Qed.

Lemma split_row_line (d : nat) (row : list Q) :
  split (row_line d row) =
  [format_float d (nth 0 row 0); format_float d (nth 1 row 0);
   format_float d (nth 2 row 0)].
Proof.
  unfold row_line. rewrite !append_assoc.
  rewrite split_token_sp by apply format_float_token.
  rewrite split_token_sp by apply format_float_token.
  now rewrite split_token_nl by apply format_float_token.
Qed.

(** Reading a data line gives the row rounded to the precision written. *)
Lemma step_row_line (st : locals) (d : nat) (row : list Q) :
  step st (row_line d row) =
  Ok (add_rows [[quantize d (nth 0 row 0); quantize d (nth 1 row 0);
                 quantize d (nth 2 row 0)]] st).
Proof.
  rewrite step_data.
  2:{ unfold row_line. rewrite !append_assoc. apply first_char_app, format_float_first. }
  rewrite split_row_line, dispatch_data by apply format_float_first.
  unfold _parse_array. simpl mapM. now rewrite !float_format_float.
Qed.

Lemma split_range_text (keyword : string) (d : nat) (lo hi : Q) :
  is_token keyword = true ->
  split (range_text keyword d lo hi) =
  [keyword; format_float d lo; format_float d hi].
Proof.
  intros K. unfold range_text. rewrite !append_assoc.
  rewrite split_token_sp by assumption.
  rewrite split_token_sp by apply format_float_token.
  now rewrite split_token_nl by apply format_float_token.
Qed.

Lemma step_range_1D (st : locals) (d : nat) (lo hi : Q) :
  step st (range_text "LUT_1D_INPUT_RANGE" d lo hi) =
  Ok (set_domain0 (Np.tstack3 [quantize d lo; quantize d hi]) st).
Proof.
  pose proof (split_range_text "LUT_1D_INPUT_RANGE" d lo hi eq_refl) as S.
  unfold range_text in *.
  change ("LUT_1D_INPUT_RANGE" ++ ?x) with (String "L" ("UT_1D_INPUT_RANGE" ++ x)) in *.
  rewrite step_tokens by reflexivity. rewrite S.
  unfold dispatch. simpl String.eqb. cbv iota.
  unfold _parse_array. simpl mapM. now rewrite !float_format_float.
Qed.

Lemma step_range_3D (st : locals) (d : nat) (lo hi : Q) :
  step st (range_text "LUT_3D_INPUT_RANGE" d lo hi) =
  Ok (set_domain1 (Np.tstack3 [quantize d lo; quantize d hi]) st).
Proof.
  pose proof (split_range_text "LUT_3D_INPUT_RANGE" d lo hi eq_refl) as S.
  unfold range_text in *.
  change ("LUT_3D_INPUT_RANGE" ++ ?x) with (String "L" ("UT_3D_INPUT_RANGE" ++ x)) in *.
  rewrite step_tokens by reflexivity. rewrite S.
  unfold dispatch. simpl String.eqb. cbv iota.
  unfold _parse_array. simpl mapM. now rewrite !float_format_float.
Qed.

(** *** The loop *)

Lemma scan_app (st : locals) (l1 l2 : list string) :
  scan st (l1 ++ l2) = bind (scan st l1) (fun st' => scan st' l2).
Proof.
  revert st. induction l1 as [|x l1 IH]; intros st; [reflexivity|].
  simpl. destruct (step st x); simpl; auto.
Qed.

Lemma add_comments_nil (st : locals) : add_comments [] st = st.
Proof. destruct st. unfold add_comments. simpl. now rewrite app_nil_r. Qed.

Lemma add_rows_nil (st : locals) : add_rows [] st = st.
Proof. destruct st. unfold add_rows. simpl. now rewrite app_nil_r. Qed.

Lemma scan_comment_lines (st : locals) (cs : list string) :
  scan st (map comment_line cs) = Ok (add_comments (map strip cs) st).
Proof.
  revert st. induction cs as [|c cs IH]; intros st.
  - simpl. now rewrite add_comments_nil.
  - simpl. rewrite step_comment_line. simpl. rewrite IH.
    unfold add_comments, add_comment. simpl. now rewrite <- app_assoc.
Qed.

Lemma scan_row_lines (st : locals) (d : nat) (rows : list (list Q)) :
  scan st (map (row_line d) rows) =
  Ok (add_rows (map (fun row => [quantize d (nth 0 row 0); quantize d (nth 1 row 0);
                                 quantize d (nth 2 row 0)]) rows) st).
Proof.
  revert st. induction rows as [|r rows IH]; intros st.
  - simpl. now rewrite add_rows_nil.
  - simpl. rewrite step_row_line. simpl. rewrite IH.
    unfold add_rows. simpl. now rewrite <- app_assoc.
Qed.

Lemma data_lines_ok (d : nat) (rows : list (list Q)) :
  Forall (fun row => 3 <= List.length row)%nat rows ->
  data_lines d rows = Ok (map (row_line d) rows).
Proof.
  unfold data_lines. induction 1 as [|r rows Hr _ IH]; [reflexivity|].
  simpl. rewrite IH.
  destruct r as [|a [|b [|c r]]]; simpl in Hr; try lia.
  simpl. unfold row_line. simpl nth. reflexivity.
Qed.

End DataLines.

(** ** Arrays in Fortran order *)

Section Arrays.
Import Py ResolveCube Spec.

Lemma nth_map_in {A B : Type} (f : A -> B) (l : list A) (i : nat) (d : B) (d' : A) :
  (i < List.length l)%nat -> nth i (map f l) d = f (nth i l d').
Proof.
  intros H. rewrite (nth_indep _ d (f d')) by now rewrite length_map.
  apply map_nth.
Qed.

Lemma length_flat_map_seq {A : Type} (f : nat -> list A) (m n : nat) :
  (forall j, j < n -> List.length (f j) = m)%nat ->
  List.length (flat_map f (seq 0 n)) = (m * n)%nat.
Proof.
  induction n as [|n IH]; intros H; [simpl; lia|].
  rewrite seq_S, flat_map_app, length_app, IH by (intros; apply H; lia).
  simpl. rewrite app_nil_r, H by lia. lia.
Qed.

Lemma nth_flat_map_seq {A : Type} (f : nat -> list A) (m n i j : nat) (d : A) :
  (forall j, j < n -> List.length (f j) = m)%nat ->
  (i < m)%nat -> (j < n)%nat ->
  nth (i + m * j) (flat_map f (seq 0 n)) d = nth i (f j) d.
Proof.
  induction n as [|n IH]; intros H Hi Hj; [lia|].
  rewrite seq_S, flat_map_app. simpl. rewrite app_nil_r.
  pose proof (length_flat_map_seq f m n ltac:(intros; apply H; lia)) as L.
  destruct (Nat.eq_dec j n) as [->|Hne].
  - rewrite app_nth2 by nia. rewrite L. f_equal. lia.
  - rewrite app_nth1 by nia. apply IH; [intros; apply H; lia|lia|lia].
Qed.

Lemma nth_seq_map {A : Type} (f : nat -> A) (n i : nat) (d : A) :
  (i < n)%nat -> nth i (map f (seq 0 n)) d = f i.
Proof.
  intros H. rewrite (nth_map_in f (seq 0 n) i d 0%nat) by now rewrite length_seq.
  now rewrite seq_nth.
Qed.

Lemma map_seq_nth {A : Type} (l : list A) (d : A) :
  map (fun i => nth i l d) (seq 0 (List.length l)) = l.
Proof.
  apply (nth_ext _ _ d d).
  - now rewrite length_map, length_seq.
  - intros i Hi. rewrite length_map, length_seq in Hi. now rewrite nth_seq_map.
Qed.

(** *** Two dimensions *)

Lemma shape2_hd (m k : nat) (a : Np.ndarray2) :
  shape2 m k a -> (0 < m)%nat -> List.length (hd [] a) = k.
Proof.
  intros [L F] Hm. destruct a as [|row a]; [simpl in L; lia|].
  now inversion F.
Qed.

Lemma shape2_nth (m k : nat) (a : Np.ndarray2) (i : nat) :
  shape2 m k a -> (i < m)%nat -> List.length (nth i a []) = k.
Proof.
  intros [L F] Hi. rewrite Forall_forall in F. apply F, nth_In. lia.
Qed.

Lemma length_column (j : nat) (a : Np.ndarray2) :
  List.length (Np.column j a) = List.length a.
Proof. apply length_map. Qed.

Lemma length_ravelF2 (m k : nat) (a : Np.ndarray2) :
  shape2 m k a -> List.length (Np.ravelF2 a) = (m * k)%nat.
Proof.
  intros H. unfold Np.ravelF2. destruct (Nat.eq_dec m 0) as [->|Hm].
  - destruct H as [L _]. destruct a; [reflexivity|discriminate].
  - rewrite (shape2_hd m k a H) by lia.
    apply length_flat_map_seq. intros j _. rewrite length_column. apply H.
Qed.

Lemma nth_ravelF2 (m k : nat) (a : Np.ndarray2) (i j : nat) :
  shape2 m k a -> (i < m)%nat -> (j < k)%nat ->
  nth (i + m * j) (Np.ravelF2 a) 0 = nth j (nth i a []) 0.
Proof.
  intros H Hi Hj. unfold Np.ravelF2. rewrite (shape2_hd m k a H) by lia.
  rewrite nth_flat_map_seq; [|intros; rewrite length_column; apply H|lia|lia].
  unfold Np.column. destruct H as [L _].
  now rewrite (nth_map_in _ a i 0 []) by lia.
Qed.

Lemma shape2_unravelF2 (m k : nat) (flat : list Q) :
  shape2 m k (Np.unravelF2 m k flat).
Proof.
  unfold shape2, Np.unravelF2. split.
  - now rewrite length_map, length_seq.
  - apply Forall_forall. intros row Hin. apply in_map_iff in Hin as [i [<- _]].
    now rewrite length_map, length_seq.
Qed.

Lemma nth_unravelF2 (m k : nat) (flat : list Q) (i j : nat) :
  (i < m)%nat -> (j < k)%nat ->
  nth j (nth i (Np.unravelF2 m k flat) []) 0 = nth (i + m * j) flat 0.
Proof.
  intros Hi Hj. unfold Np.unravelF2.
  rewrite nth_seq_map by assumption. now rewrite nth_seq_map.
Qed.

(** Laying a flat array out as rows and reading the rows column by column
    gives the flat array back. *)
Lemma ravelF2_unravelF2 (m k : nat) (flat : list Q) :
  List.length flat = (m * k)%nat -> Np.ravelF2 (Np.unravelF2 m k flat) = flat.
Proof.
  intros L. pose proof (shape2_unravelF2 m k flat) as Sh.
  apply (nth_ext _ _ 0 0).
  - now rewrite (length_ravelF2 m k _ Sh).
  - intros n Hn. rewrite (length_ravelF2 m k _ Sh) in Hn.
    assert (Hm : (0 < m)%nat) by nia.
    assert (n = n mod m + m * (n / m))%nat as E
      by (pose proof (Nat.div_mod_eq n m); lia).
    assert (n mod m < m)%nat by (apply Nat.mod_upper_bound; lia).
    assert (n / m < k)%nat by (apply Nat.Div0.div_lt_upper_bound; nia).
    rewrite E at 1. rewrite (nth_ravelF2 m k) by assumption.
    rewrite nth_unravelF2 by assumption. now rewrite <- E.
Qed.

Lemma ravelF2_map (f : Q -> Q) (m k : nat) (a : Np.ndarray2) :
  shape2 m k a -> Np.ravelF2 (map (map f) a) = map f (Np.ravelF2 a).
Proof.
  intros H.
  assert (H' : shape2 m k (map (map f) a)).
  { destruct H as [L F]. split; [now rewrite length_map|].
    apply Forall_forall. intros row Hin. apply in_map_iff in Hin as [r [<- Hr]].
    rewrite length_map. rewrite Forall_forall in F. now apply F. }
  apply (nth_ext _ _ 0 (f 0)).
  - now rewrite length_map, (length_ravelF2 m k _ H), (length_ravelF2 m k _ H').
  - intros n Hn. rewrite (length_ravelF2 m k _ H') in Hn.
    assert (Hm : (0 < m)%nat) by nia.
    assert (n = n mod m + m * (n / m))%nat as E
      by (pose proof (Nat.div_mod_eq n m); lia).
    assert (n mod m < m)%nat by (apply Nat.mod_upper_bound; lia).
    assert (n / m < k)%nat by (apply Nat.Div0.div_lt_upper_bound; nia).
    rewrite map_nth. rewrite E.
    rewrite !(nth_ravelF2 m k) by assumption.
    destruct H as [L F].
    rewrite (nth_map_in (map f) a _ [] []) by lia.
    apply nth_map_in. rewrite (shape2_nth m k a (n mod m) (conj L F)) by lia. lia.
Qed.

End Arrays.

Section Arrays4.
Import Py ResolveCube Spec.

Lemma shape4_nth (nr ng nb nc : nat) (t : Np.ndarray4) (r g b : nat) :
  shape4 nr ng nb nc t -> (r < nr)%nat -> (g < ng)%nat -> (b < nb)%nat ->
  List.length (nth r t []) = ng /\
  List.length (nth g (nth r t []) []) = nb /\
  List.length (cell t r g b) = nc.
Proof.
  intros [L F] Hr Hg Hb. unfold cell.
  rewrite Forall_forall in F.
  destruct (F (nth r t []) ltac:(apply nth_In; lia)) as [Lg Fg].
  rewrite Forall_forall in Fg.
  destruct (Fg (nth g (nth r t []) []) ltac:(apply nth_In; lia)) as [Lb Fb].
  rewrite Forall_forall in Fb.
  pose proof (Fb (nth b (nth g (nth r t []) []) []) ltac:(apply nth_In; lia)).
  auto.
Qed.

Lemma index_lt (m a i j : nat) : (i < m -> j < a -> i + m * j < m * a)%nat.
Proof. intros Hi Hj. assert (m * j + m <= m * a)%nat by nia. lia. Qed.

Lemma index_lt3 (nr ng nb r g b : nat) :
  (r < nr -> g < ng -> b < nb -> r + nr * (g + ng * b) < nr * ng * nb)%nat.
Proof.
  intros Hr Hg Hb. pose proof (index_lt ng nb g b Hg Hb).
  rewrite <- Nat.mul_assoc. now apply index_lt.
Qed.

Lemma index_lt4 (nr ng nb nc r g b c : nat) :
  (r < nr -> g < ng -> b < nb -> c < nc ->
   r + nr * (g + ng * (b + nb * c)) < nr * ng * nb * nc)%nat.
Proof.
  intros Hr Hg Hb Hc. pose proof (index_lt nb nc b c Hb Hc).
  replace (nr * ng * nb * nc)%nat with (nr * ng * (nb * nc))%nat by ring.
  now apply index_lt3.
Qed.

Lemma hd_nth_0 {A : Type} (l : list A) (d : A) : hd d l = nth 0 l d.
Proof. now destruct l. Qed.

Lemma shape4_hd (nr ng nb nc : nat) (t : Np.ndarray4) :
  shape4 nr ng nb nc t -> (0 < nr)%nat -> (0 < ng)%nat -> (0 < nb)%nat ->
  List.length (hd [] t) = ng /\
  List.length (hd [] (hd [] t)) = nb /\
  List.length (hd [] (hd [] (hd [] t))) = nc.
Proof.
  intros H Hr Hg Hb.
  pose proof (shape4_nth nr ng nb nc t 0 0 0 H Hr Hg Hb) as N.
  unfold cell in N. now rewrite !hd_nth_0.
Qed.

Lemma shape4_eta (nr ng nb nc : nat) (t : Np.ndarray4) :
  shape4 nr ng nb nc t ->
  t = map (fun r => map (fun g => map (fun b => map (fun c => Np.get4 t r g b c)
        (seq 0 nc)) (seq 0 nb)) (seq 0 ng)) (seq 0 nr).
Proof.
  intros H. pose proof H as [L _].
  rewrite <- (map_seq_nth t []) at 1. rewrite L.
  apply map_ext_in. intros r Hr. apply in_seq in Hr.
  rewrite <- (map_seq_nth (nth r t []) []).
  destruct (Nat.eq_dec ng 0) as [Zg|Zg].
  { subst ng. destruct H as [_ F]. rewrite Forall_forall in F.
    destruct (F (nth r t []) ltac:(apply nth_In; lia)) as [-> _]. reflexivity. }
  destruct (Nat.eq_dec nb 0) as [Zb|Zb].
  { subst nb. destruct H as [_ F]. rewrite Forall_forall in F.
    destruct (F (nth r t []) ltac:(apply nth_In; lia)) as [Lg Fg].
    rewrite Lg. apply map_ext_in. intros g Hg. apply in_seq in Hg.
    rewrite Forall_forall in Fg.
    destruct (Fg (nth g (nth r t []) []) ltac:(apply nth_In; lia)) as [Lb _].
    destruct (nth g (nth r t []) []); [reflexivity|discriminate]. }
  destruct (shape4_nth nr ng nb nc t r 0 0 H) as [Lg _]; [lia..|].
  rewrite Lg. apply map_ext_in. intros g Hg. apply in_seq in Hg.
  destruct (shape4_nth nr ng nb nc t r g 0 H) as [_ [Lb _]]; [lia..|].
  rewrite <- (map_seq_nth (nth g (nth r t []) []) []), Lb.
  apply map_ext_in. intros b Hb. apply in_seq in Hb.
  destruct (shape4_nth nr ng nb nc t r g b H) as [_ [_ Lc]]; [lia..|].
  unfold cell in Lc.
  rewrite <- (map_seq_nth (nth b (nth g (nth r t []) []) []) 0), Lc.
  reflexivity.
Qed.

Lemma length_ravelF4 (nr ng nb nc : nat) (t : Np.ndarray4) :
  shape4 nr ng nb nc t -> (0 < nr)%nat -> (0 < ng)%nat -> (0 < nb)%nat ->
  List.length (Np.ravelF4 t) = (nr * ng * nb * nc)%nat.
Proof.
  intros H Hr Hg Hb. unfold Np.ravelF4.
  destruct (shape4_hd nr ng nb nc t H Hr Hg Hb) as [-> [-> ->]].
  destruct H as [<- _].
  apply length_flat_map_seq. intros c _.
  apply length_flat_map_seq. intros b _.
  rewrite (length_flat_map_seq _ (List.length t)); [reflexivity|].
  intros g _. now rewrite length_map, length_seq.
Qed.

Lemma nth_ravelF4 (nr ng nb nc : nat) (t : Np.ndarray4) (r g b c : nat) :
  shape4 nr ng nb nc t ->
  (r < nr)%nat -> (g < ng)%nat -> (b < nb)%nat -> (c < nc)%nat ->
  nth (r + nr * (g + ng * (b + nb * c))) (Np.ravelF4 t) 0 = Np.get4 t r g b c.
Proof.
  intros H Hr Hg Hb Hc. unfold Np.ravelF4.
  destruct (shape4_hd nr ng nb nc t H) as [-> [-> ->]]; [lia..|].
  destruct H as [<- _]. set (n := List.length t) in *.
  assert (L1 : forall b c, List.length (flat_map (fun g0 =>
            map (fun r0 => Np.get4 t r0 g0 b c) (seq 0 n)) (seq 0 ng)) = (n * ng)%nat).
  { intros. apply length_flat_map_seq. intros. now rewrite length_map, length_seq. }
  assert (L2 : forall c, List.length (flat_map (fun b0 => flat_map (fun g0 =>
            map (fun r0 => Np.get4 t r0 g0 b0 c) (seq 0 n)) (seq 0 ng)) (seq 0 nb))
            = (n * ng * nb)%nat).
  { intros. apply length_flat_map_seq. intros. apply L1. }
  replace (r + n * (g + ng * (b + nb * c)))%nat
    with ((r + n * (g + ng * b)) + (n * ng * nb) * c)%nat by ring.
  rewrite (nth_flat_map_seq _ (n * ng * nb));
    [|intros; apply L2|now apply index_lt3|lia].
  replace (r + n * (g + ng * b))%nat with ((r + n * g) + (n * ng) * b)%nat by ring.
  rewrite (nth_flat_map_seq _ (n * ng));
    [|intros; apply L1|now apply index_lt|lia].
  rewrite (nth_flat_map_seq _ n);
    [|intros; now rewrite length_map, length_seq|lia|lia].
  now rewrite nth_seq_map.
Qed.

(** Flattening a grid in Fortran order and laying the result out again
    gives the grid back. *)
Lemma unravelF4_ravelF4 (nr ng nb nc : nat) (t : Np.ndarray4) :
  shape4 nr ng nb nc t ->
  Np.unravelF4 nr ng nb nc (Np.ravelF4 t) = t.
Proof.
  intros H. rewrite (shape4_eta nr ng nb nc t H) at 2. unfold Np.unravelF4.
  apply map_ext_in. intros r Hr. apply in_seq in Hr.
  apply map_ext_in. intros g Hg. apply in_seq in Hg.
  apply map_ext_in. intros b Hb. apply in_seq in Hb.
  apply map_ext_in. intros c Hc. apply in_seq in Hc.
  apply (nth_ravelF4 nr ng nb nc); (assumption || lia).
Qed.

Lemma unravelF4_map (f : Q -> Q) (nr ng nb nc : nat) (flat : list Q) :
  List.length flat = (nr * ng * nb * nc)%nat ->
  Np.unravelF4 nr ng nb nc (map f flat) = map4 f (Np.unravelF4 nr ng nb nc flat).
Proof.
  intros L. unfold Np.unravelF4, map4.
  rewrite map_map. apply map_ext_in. intros r Hr. apply in_seq in Hr.
  rewrite map_map. apply map_ext_in. intros g Hg. apply in_seq in Hg.
  rewrite map_map. apply map_ext_in. intros b Hb. apply in_seq in Hb.
  rewrite map_map. apply map_ext_in. intros c Hc. apply in_seq in Hc.
  apply nth_map_in. rewrite L. apply index_lt4; lia.
Qed.

(** The writer's flattening, row by row: row [i] is the cell at
    [r = i mod s], [g = (i / s) mod s], [b = i / s ^ 2]. *)
Lemma reshape_rows_cube (s : nat) (t : Np.ndarray4) :
  shape4 s s s 3 t -> (0 < s)%nat ->
  Np.reshape_rows t =
  Ok (map (fun i => cell t (i mod s) ((i / s) mod s) (i / (s * s)))
          (seq 0 (s * s * s))).
Proof.
  intros H Hs. unfold Np.reshape_rows.
  rewrite (length_ravelF4 s s s 3 t H) by assumption.
  replace (s * s * s * 3)%nat with (3 * (s * s * s))%nat by lia.
  rewrite Nat.mul_comm, Nat.Div0.mod_mul, Nat.div_mul by lia.
  simpl Nat.eqb. cbv iota. f_equal. unfold Np.unravelF2.
  apply map_ext_in. intros i Hi. apply in_seq in Hi.
  set (r := (i mod s)%nat). set (g := ((i / s) mod s)%nat). set (b := (i / (s * s))%nat).
  assert (Hr : (r < s)%nat) by (apply Nat.mod_upper_bound; lia).
  assert (Hg : (g < s)%nat) by (apply Nat.mod_upper_bound; lia).
  assert (Hb : (b < s)%nat) by (apply Nat.Div0.div_lt_upper_bound; nia).
  assert (E : (i = r + s * (g + s * b))%nat).
  { subst r g b. rewrite <- Nat.Div0.div_div.
    pose proof (Nat.div_mod_eq i s). pose proof (Nat.div_mod_eq (i / s) s). nia. }
  destruct (shape4_nth s s s 3 t r g b H Hr Hg Hb) as [_ [_ Lc]].
  rewrite <- (map_seq_nth (cell t r g b) 0), Lc.
  apply map_ext_in. intros c Hc. apply in_seq in Hc.
  replace (i + s * s * s * c)%nat with (r + s * (g + s * (b + s * c)))%nat by nia.
  now rewrite (nth_ravelF4 s s s 3 t r g b c H) by lia.
Qed.

Lemma reshape_rows_unravel (s : nat) (t : Np.ndarray4) :
  shape4 s s s 3 t -> (0 < s)%nat ->
  Np.reshape_rows t = Ok (Np.unravelF2 (s * s * s) 3 (Np.ravelF4 t)).
Proof.
  intros H Hs. unfold Np.reshape_rows.
  rewrite (length_ravelF4 s s s 3 t H) by assumption.
  replace (s * s * s * 3)%nat with (3 * (s * s * s))%nat by lia.
  rewrite Nat.mul_comm, Nat.Div0.mod_mul, Nat.div_mul by lia. reflexivity.
Qed.

(** Reading back the rows of a grid, each scalar changed by [f], gives the
    grid with each scalar changed by [f]. *)
Lemma reshape_cube_rows (f : Q -> Q) (s : nat) (t : Np.ndarray4) :
  shape4 s s s 3 t -> (0 < s)%nat ->
  Np.reshape_cube (Z.of_nat s)
    (map (map f) (Np.unravelF2 (s * s * s) 3 (Np.ravelF4 t))) = Ok (map4 f t).
Proof.
  intros H Hs. unfold Np.reshape_cube.
  replace (Z.of_nat s <? 0)%Z with false by (symmetry; apply Z.ltb_ge; lia).
  pose proof (length_ravelF4 s s s 3 t H Hs Hs Hs) as L.
  rewrite (ravelF2_map f (s * s * s) 3) by apply shape2_unravelF2.
  rewrite ravelF2_unravelF2 by lia.
  rewrite length_map, L.
  replace (Z.of_nat (s * s * s * 3) =? Z.of_nat s * Z.of_nat s * Z.of_nat s * 3)%Z
    with true by (symmetry; apply Z.eqb_eq; lia).
  cbv zeta. rewrite Nat2Z.id.
  rewrite unravelF4_map by assumption.
  now rewrite (unravelF4_ravelF4 s s s 3 t H).
Qed.

End Arrays4.

(** ** Writing *)

Section Writing.
Import Py ResolveCube Spec.
Local Open Scope string_scope.

Lemma range_line_ok (keyword : string) (d : nat) (dom : Np.ndarray2) :
  shape2 2 3 dom ->
  range_line keyword d dom = Ok (range_lines keyword d dom).
Proof.
  intros [L F]. unfold range_line, range_lines.
  destruct (Np.array_equal dom default_domain); [reflexivity|]. simpl negb. cbv iota.
  destruct dom as [|r0 [|r1 [|r2 dom]]]; try discriminate.
  inversion F as [|? ? L0 F1]; subst. inversion F1 as [|? ? L1 _]; subst.
  destruct r0 as [|a r0]; [discriminate|]. destruct r1 as [|b r1]; [discriminate|].
  reflexivity.
Qed.

Lemma cube_rows_min_length (c : LUT3D.t) :
  shape4 (LUT3D.size c) (LUT3D.size c) (LUT3D.size c) 3 (LUT3D.table c) ->
  Forall (fun row => 3 <= List.length row)%nat (cube_rows (LUT3D.table c)).
Proof.
  intros H4. apply Forall_forall. intros row Hin. unfold cube_rows in Hin.
  apply in_map_iff in Hin as [i [<- Hi]]. apply in_seq in Hi.
  fold (LUT3D.size c) in *.
  destruct (Nat.eq_dec (LUT3D.size c) 0) as [Z|Z]; [rewrite Z in Hi; simpl in Hi; lia|].
  destruct (shape4_nth _ _ _ _ _ (i mod LUT3D.size c)
              ((i / LUT3D.size c) mod LUT3D.size c)
              (i / (LUT3D.size c * LUT3D.size c)) H4) as [_ [_ ->]];
    [apply Nat.mod_upper_bound; lia|apply Nat.mod_upper_bound; lia| |lia].
  apply Nat.Div0.div_lt_upper_bound. lia.
Qed.

Lemma write_cube_ok (c : LUT3D.t) (d : nat) :
  rectilinear (LUT3D.domain c) ->
  shape4 (LUT3D.size c) (LUT3D.size c) (LUT3D.size c) 3 (LUT3D.table c) ->
  (2 <= Z.of_nat (LUT3D.size c) <= 256)%Z ->
  write_LUT_ResolveCube (Lut (L3D c)) d = (Lut (L3D c), Ok (cube_writes c d)).
Proof.
  intros [Sh U] H4 Hs. unfold write_LUT_ResolveCube, write_stages. f_equal.
  rewrite U. change (Np.count_unique (LUT2D.domain LUT2D_default)) with 2%nat.
  simpl assert. simpl bind at 1. simpl bind at 1.
  replace (2 <=? Z.of_nat (LUT3D.size c))%Z with true
    by (symmetry; apply Z.leb_le; lia).
  replace (Z.of_nat (LUT3D.size c) <=? 256)%Z with true
    by (symmetry; apply Z.leb_le; lia).
  simpl assert. simpl bind at 1. simpl bind at 1.
  rewrite range_line_ok by assumption. simpl bind at 1. simpl bind at 1.
  simpl bind at 1.
  rewrite (reshape_rows_cube (LUT3D.size c)) by (assumption || lia).
  simpl bind at 1. change (map _ (seq 0 _)) with (cube_rows (LUT3D.table c)).
  rewrite data_lines_ok by now apply cube_rows_min_length. reflexivity.
Qed.

Lemma write_shaper_ok (l : LUT2D.t) (d : nat) :
  rectilinear (LUT2D.domain l) ->
  Forall (fun row => 3 <= List.length row)%nat (LUT2D.table l) ->
  (2 <= Z.of_nat (LUT2D.size l) <= 65536)%Z ->
  write_LUT_ResolveCube (Lut (L2D l)) d = (Lut (L2D l), Ok (shaper_writes l d)).
Proof.
  intros [Sh U] H3 Hs. unfold write_LUT_ResolveCube, write_stages. f_equal.
  rewrite U. change (Np.count_unique (LUT3D.domain LUT3D_default)) with 2%nat.
  simpl assert. simpl bind at 1.
  replace (2 <=? Z.of_nat (LUT2D.size l))%Z with true
    by (symmetry; apply Z.leb_le; lia).
  replace (Z.of_nat (LUT2D.size l) <=? 65536)%Z with true
    by (symmetry; apply Z.leb_le; lia).
  simpl assert. simpl bind at 1. simpl bind at 1.
  rewrite range_line_ok by assumption. simpl bind at 1. simpl bind at 1.
  simpl bind at 1.
  rewrite data_lines_ok by assumption. simpl. now rewrite app_nil_r.
Qed.

(** A sequence of a shaper and a cube that the format can hold is written,
    and these are its writes. *)
Lemma write_combined_ok (l : LUT2D.t) (c : LUT3D.t) (d : nat) :
  rectilinear (LUT2D.domain l) ->
  Forall (fun row => 3 <= List.length row)%nat (LUT2D.table l) ->
  (2 <= Z.of_nat (LUT2D.size l) <= 65536)%Z ->
  rectilinear (LUT3D.domain c) ->
  shape4 (LUT3D.size c) (LUT3D.size c) (LUT3D.size c) 3 (LUT3D.table c) ->
  (2 <= Z.of_nat (LUT3D.size c) <= 256)%Z ->
  write_LUT_ResolveCube (LUTSequence [L2D l; L3D c]) d =
  (LUTSequence [L2D l; L3D c], Ok (combined_writes l c d)).
Proof.
  intros [Sh2 U2] H3 Hs2 [Sh3 U3] H4 Hs3.
  unfold write_LUT_ResolveCube, write_stages. f_equal.
  rewrite U2, U3. cbn [Nat.eqb andb assert bind].
  replace (2 <=? Z.of_nat (LUT2D.size l))%Z with true
    by (symmetry; apply Z.leb_le; lia).
  replace (Z.of_nat (LUT2D.size l) <=? 65536)%Z with true
    by (symmetry; apply Z.leb_le; lia).
  replace (2 <=? Z.of_nat (LUT3D.size c))%Z with true
    by (symmetry; apply Z.leb_le; lia).
  replace (Z.of_nat (LUT3D.size c) <=? 256)%Z with true
    by (symmetry; apply Z.leb_le; lia).
  cbn [andb assert bind].
  rewrite !range_line_ok by assumption. cbn [bind].
  rewrite data_lines_ok by assumption. cbn [bind].
  rewrite (reshape_rows_cube (LUT3D.size c)) by (assumption || lia). cbn [bind].
  change (map _ (seq 0 _)) with (cube_rows (LUT3D.table c)).
  rewrite data_lines_ok by now apply cube_rows_min_length.
  cbn [bind]. unfold combined_writes. rewrite <- !app_assoc. reflexivity.
Qed.

End Writing.

(** ** Reading what was written *)

Section ReadWrite.
Import Py ResolveCube Spec.
Local Open Scope string_scope.

Lemma is_line_intro (l : string) : single_line l = true -> is_line (l ++ NL).
Proof. intros H. now exists l. Qed.

Lemma digits_single_line (s : string) :
  string_forall isdigit s = true -> single_line s = true.
Proof.
  apply string_forall_impl. intros c Hc.
  apply number_char_not_newline. now apply isdigit_number_char.
Qed.

Lemma is_line_title (name : string) :
  single_line name = true -> is_line (title_line name).
Proof.
  intros H. unfold title_line.
  replace ("TITLE " ++ quote ++ name ++ quote ++ NL) with (("TITLE " ++ quote ++ name ++ quote) ++ NL)
    by (simpl; now rewrite append_assoc).
  apply is_line_intro. unfold single_line in *.
  now rewrite !string_forall_app, H.
Qed.

Lemma is_line_comment (c : string) :
  single_line c = true -> is_line (comment_line c).
Proof.
  intros H. unfold comment_line.
  replace ("# " ++ c ++ NL) with (("# " ++ c) ++ NL) by now rewrite append_assoc.
  apply is_line_intro. unfold single_line in *.
  now rewrite !string_forall_app, H.
Qed.

Lemma is_line_size (keyword : string) (n : nat) :
  single_line keyword = true -> is_line (size_line keyword n).
Proof.
  intros H. unfold size_line.
  replace (keyword ++ " " ++ str_N (N.of_nat n) ++ NL)
    with ((keyword ++ " " ++ str_N (N.of_nat n)) ++ NL)
    by now rewrite !append_assoc.
  apply is_line_intro. unfold single_line in *.
  rewrite !string_forall_app, H.
  now rewrite (digits_single_line _ (str_N_isdigit _)).
Qed.

Lemma is_line_range (keyword : string) (d : nat) (lo hi : Q) :
  single_line keyword = true -> is_line (range_text keyword d lo hi).
Proof.
  intros H. unfold range_text.
  replace (keyword ++ " " ++ (format_float d lo ++ " " ++ format_float d hi) ++ NL)
    with ((keyword ++ " " ++ format_float d lo ++ " " ++ format_float d hi) ++ NL)
    by now rewrite !append_assoc.
  apply is_line_intro.
  pose proof (format_float_single_line d lo) as H1.
  pose proof (format_float_single_line d hi) as H2.
  unfold single_line in *.
  now rewrite !string_forall_app, H, H1, H2.
Qed.

Lemma is_line_row (d : nat) (row : list Q) : is_line (row_line d row).
Proof.
  unfold row_line. apply is_line_intro.
  pose proof (format_float_single_line d (nth 0 row 0)) as H0.
  pose proof (format_float_single_line d (nth 1 row 0)) as H1.
  pose proof (format_float_single_line d (nth 2 row 0)) as H2.
  unfold single_line in *.
  now rewrite !string_forall_app, H0, H1, H2.
Qed.

Lemma is_line_NL : is_line NL.
Proof. now exists "". Qed.

Lemma Forall_is_line_range (keyword : string) (d : nat) (dom : Np.ndarray2) :
  single_line keyword = true ->
  Forall is_line (range_lines keyword d dom).
Proof.
  intros H. unfold range_lines. destruct (Np.array_equal dom default_domain).
  - constructor.
  - repeat constructor. now apply is_line_range.
Qed.

Lemma Forall_is_line_comments (cs : list string) :
  Forall (fun c => single_line c = true) cs ->
  Forall is_line (map comment_line cs).
Proof.
  intros H. apply Forall_forall. intros w Hin.
  apply in_map_iff in Hin as [c [<- Hc]]. rewrite Forall_forall in H.
  now apply is_line_comment, H.
Qed.

Lemma Forall_is_line_rows (d : nat) (rows : list (list Q)) :
  Forall is_line (map (row_line d) rows).
Proof.
  apply Forall_forall. intros w Hin. apply in_map_iff in Hin as [r [<- _]].
  apply is_line_row.
Qed.

Lemma asarray_triples (rows : list (list Q)) :
  Forall is_triple rows -> Np.asarray rows = Ok rows.
Proof.
  intros H. unfold Np.asarray.
  replace (forallb _ rows) with true; [reflexivity|]. symmetry.
  apply forallb_forall. intros r Hr. apply Nat.eqb_eq.
  rewrite Forall_forall in H. rewrite (H r Hr).
  destruct rows as [|r0 rows]; [contradiction|]. simpl.
  symmetry. apply H. now left.
Qed.

Lemma quantize_triple (d : nat) (row : list Q) :
  is_triple row ->
  [quantize d (nth 0 row 0); quantize d (nth 1 row 0); quantize d (nth 2 row 0)]
  = map (quantize d) row.
Proof.
  unfold is_triple. destruct row as [|a [|b [|c [|x row]]]]; simpl; try discriminate.
  reflexivity.
Qed.

Lemma quantize_triples (d : nat) (rows : list (list Q)) :
  Forall is_triple rows ->
  map (fun row => [quantize d (nth 0 row 0); quantize d (nth 1 row 0);
                   quantize d (nth 2 row 0)]) rows
  = map (map (quantize d)) rows.
Proof.
  intros H. apply map_ext_in. intros row Hin. rewrite Forall_forall in H.
  now apply quantize_triple, H.
Qed.

Lemma Forall_triple_map (f : Q -> Q) (rows : list (list Q)) :
  Forall is_triple rows -> Forall is_triple (map (map f) rows).
Proof.
  intros H. apply Forall_forall. intros r Hin. apply in_map_iff in Hin as [r' [<- Hr]].
  unfold is_triple. rewrite length_map. rewrite Forall_forall in H. now apply H.
Qed.

Lemma cube_rows_unravel (s : nat) (t : Np.ndarray4) :
  shape4 s s s 3 t -> (0 < s)%nat ->
  cube_rows t = Np.unravelF2 (s * s * s) 3 (Np.ravelF4 t).
Proof.
  intros H Hs. pose proof (reshape_rows_cube s t H Hs) as E1.
  pose proof (reshape_rows_unravel s t H Hs) as E2.
  rewrite E1 in E2. injection E2 as <-. unfold cube_rows.
  now destruct H as [-> _].
Qed.

Lemma cube_rows_triples (s : nat) (t : Np.ndarray4) :
  shape4 s s s 3 t -> (0 < s)%nat -> Forall is_triple (cube_rows t).
Proof.
  intros H Hs. rewrite (cube_rows_unravel s t H Hs).
  apply (shape2_unravelF2 (s * s * s) 3).
Qed.

Lemma scan_cons (st : locals) (x : string) (l : list string) :
  scan st (x :: l) = bind (step st x) (fun st' => scan st' l).
Proof. reflexivity. Qed.

Lemma scan_nil (st : locals) : scan st [] = Ok st.
Proof. reflexivity. Qed.

(** What the reader's loop computes on the writes of a cube. *)
Lemma scan_cube_writes (path : string) (c : LUT3D.t) (d : nat) :
  (Z.of_nat (LUT3D.size c) < 2 ^ 63)%Z ->
  scan (init path) (cube_writes c d) =
  Ok {| title := read_title (LUT3D.name c);
        size2D := 2;
        size3D := Z.of_nat (LUT3D.size c);
        table := map (fun row => [quantize d (nth 0 row 0); quantize d (nth 1 row 0);
                                  quantize d (nth 2 row 0)])
                     (cube_rows (LUT3D.table c));
        comments := map strip (LUT3D.comments c);
        has_2D := false;
        has_3D := true;
        LUT0 := LUT2D_default;
        LUT1 := LUT3D.make "" [] (read_domain d (LUT3D.domain c)) [] |}.
Proof.
  intros Hsz.
  unfold cube_writes. rewrite scan_cons, step_title_line. cbn [bind].
  rewrite scan_app, scan_comment_lines. cbn [bind].
  rewrite scan_cons, step_size_line_3D by exact Hsz. cbn [bind].
  rewrite scan_app. unfold range_lines, read_domain.
  destruct (Np.array_equal (LUT3D.domain c) default_domain).
  - rewrite scan_nil. cbn [bind]. rewrite scan_row_lines. reflexivity.
  - rewrite scan_cons, step_range_3D. cbn [bind]. rewrite scan_nil. cbn [bind].
    rewrite scan_row_lines. reflexivity.
Qed.

Lemma scan_NL (st : locals) : scan st [NL] = Ok st.
Proof. rewrite scan_cons, step_blank by reflexivity. reflexivity. Qed.

(** What the reader's loop computes on the writes of a shaper. *)
Lemma scan_shaper_writes (path : string) (l : LUT2D.t) (d : nat) :
  (Z.of_nat (LUT2D.size l) < 2 ^ 63)%Z ->
  scan (init path) (shaper_writes l d) =
  Ok {| title := read_title (LUT2D.name l);
        size2D := Z.of_nat (LUT2D.size l);
        size3D := 2;
        table := map (fun row => [quantize d (nth 0 row 0); quantize d (nth 1 row 0);
                                  quantize d (nth 2 row 0)])
                     (LUT2D.table l);
        comments := map strip (LUT2D.comments l);
        has_2D := true;
        has_3D := false;
        LUT0 := LUT2D.make "" [] (read_domain d (LUT2D.domain l)) [];
        LUT1 := LUT3D_default |}.
Proof.
  intros Hsz.
  unfold shaper_writes. rewrite scan_cons, step_title_line. cbn [bind].
  rewrite scan_app, scan_comment_lines. cbn [bind].
  rewrite scan_cons, step_size_line_1D by exact Hsz. cbn [bind].
  rewrite scan_app. unfold range_lines, read_domain.
  destruct (Np.array_equal (LUT2D.domain l) default_domain).
  - rewrite scan_nil. cbn [bind]. rewrite scan_app, scan_row_lines. cbn [bind].
    now rewrite scan_NL.
  - rewrite scan_cons, step_range_1D. cbn [bind]. rewrite scan_nil. cbn [bind].
    rewrite scan_app, scan_row_lines. cbn [bind]. now rewrite scan_NL.
Qed.

Lemma cube_writes_lines (c : LUT3D.t) (d : nat) :
  single_line (LUT3D.name c) = true ->
  Forall (fun s => single_line s = true) (LUT3D.comments c) ->
  Forall is_line (cube_writes c d).
Proof.
  intros Hn Hc. unfold cube_writes. constructor; [now apply is_line_title|].
  apply Forall_app. split; [now apply Forall_is_line_comments|].
  constructor; [now apply is_line_size|].
  apply Forall_app. split; [now apply Forall_is_line_range|].
  apply Forall_is_line_rows.
Qed.

Lemma shaper_writes_lines (l : LUT2D.t) (d : nat) :
  single_line (LUT2D.name l) = true ->
  Forall (fun s => single_line s = true) (LUT2D.comments l) ->
  Forall is_line (shaper_writes l d).
Proof.
  intros Hn Hc. unfold shaper_writes. constructor; [now apply is_line_title|].
  apply Forall_app. split; [now apply Forall_is_line_comments|].
  constructor; [now apply is_line_size|].
  apply Forall_app. split; [now apply Forall_is_line_range|].
  apply Forall_app. split; [apply Forall_is_line_rows|].
  repeat constructor. apply is_line_NL.
Qed.

(** Reading the file written for a cube: the grid comes back with each
    scalar rounded to the precision of the text, in the same cells. *)
Lemma read_cube_writes (path : string) (c : LUT3D.t) (d : nat) :
  shape4 (LUT3D.size c) (LUT3D.size c) (LUT3D.size c) 3 (LUT3D.table c) ->
  (0 < LUT3D.size c)%nat ->
  single_line (LUT3D.name c) = true ->
  Forall (fun s => single_line s = true) (LUT3D.comments c) ->
  (Z.of_nat (LUT3D.size c) < 2 ^ 63)%Z ->
  read_LUT_ResolveCube path (file_text (cube_writes c d)) =
  Ok (Lut (L3D (LUT3D.make (read_title (LUT3D.name c))
                           (map4 (quantize d) (LUT3D.table c))
                           (read_domain d (LUT3D.domain c))
                           (map strip (LUT3D.comments c))))).
Proof.
  intros H4 Hs Hn Hc Hsz. unfold read_LUT_ResolveCube.
  rewrite readlines_file_text by now apply cube_writes_lines.
  rewrite scan_cube_writes by exact Hsz. simpl bind. unfold classify.
  pose proof (cube_rows_triples _ _ H4 Hs) as T.
  simpl table. rewrite (quantize_triples d _ T).
  rewrite asarray_triples by now apply Forall_triple_map.
  simpl bind. simpl has_2D. simpl has_3D. cbv iota. simpl andb. cbv iota.
  simpl size3D. rewrite (cube_rows_unravel _ _ H4 Hs).
  rewrite reshape_cube_rows by assumption. reflexivity.
Qed.

(** Reading the file written for a shaper: the table comes back with each
    scalar rounded to the precision of the text. *)
Lemma read_shaper_writes (path : string) (l : LUT2D.t) (d : nat) :
  Forall is_triple (LUT2D.table l) ->
  single_line (LUT2D.name l) = true ->
  Forall (fun s => single_line s = true) (LUT2D.comments l) ->
  (Z.of_nat (LUT2D.size l) < 2 ^ 63)%Z ->
  read_LUT_ResolveCube path (file_text (shaper_writes l d)) =
  Ok (Lut (L2D (LUT2D.make (read_title (LUT2D.name l))
                           (map (map (quantize d)) (LUT2D.table l))
                           (read_domain d (LUT2D.domain l))
                           (map strip (LUT2D.comments l))))).
Proof.
  intros T Hn Hc Hsz. unfold read_LUT_ResolveCube.
  rewrite readlines_file_text by now apply shaper_writes_lines.
  rewrite scan_shaper_writes by exact Hsz. simpl bind. unfold classify.
  simpl table. rewrite (quantize_triples d _ T).
  rewrite asarray_triples by now apply Forall_triple_map.
  reflexivity.
Qed.

Lemma slice_to_nat {A : Type} (n : nat) (l : list A) :
  (n <= List.length l)%nat -> Np.slice_to (Z.of_nat n) l = firstn n l.
Proof.
  intros H. unfold Np.slice_to, Np.slice_index.
  replace (Z.of_nat n <? 0)%Z with false by (symmetry; apply Z.ltb_ge; lia).
  rewrite Nat2Z.id. f_equal. lia.
Qed.

Lemma slice_from_nat {A : Type} (n : nat) (l : list A) :
  (n <= List.length l)%nat -> Np.slice_from (Z.of_nat n) l = skipn n l.
Proof.
  intros H. unfold Np.slice_from, Np.slice_index.
  replace (Z.of_nat n <? 0)%Z with false by (symmetry; apply Z.ltb_ge; lia).
  rewrite Nat2Z.id. f_equal. lia.
Qed.

(** The loop on the rows of a shaper, the blank line and the rows of a
    cube. *)
Lemma scan_tables (st : locals) (d : nat) (rows2 rows3 : list (list Q)) :
  scan st (map (row_line d) rows2 ++ [NL] ++ map (row_line d) rows3) =
  Ok (add_rows
        (map (fun row => [quantize d (nth 0 row 0); quantize d (nth 1 row 0);
                          quantize d (nth 2 row 0)]) rows2 ++
         map (fun row => [quantize d (nth 0 row 0); quantize d (nth 1 row 0);
                          quantize d (nth 2 row 0)]) rows3) st).
Proof.
  rewrite scan_app, scan_row_lines. cbn [bind].
  rewrite scan_app, scan_NL. cbn [bind]. rewrite scan_row_lines.
  unfold add_rows. cbn [title size2D size3D table comments has_2D has_3D LUT0 LUT1].
  now rewrite <- app_assoc.
Qed.

(** What the reader's loop computes on the writes of a shaper and a cube. *)
Lemma scan_combined_writes (path : string) (l : LUT2D.t) (c : LUT3D.t) (d : nat) :
  (Z.of_nat (LUT2D.size l) < 2 ^ 63)%Z ->
  (Z.of_nat (LUT3D.size c) < 2 ^ 63)%Z ->
  scan (init path) (combined_writes l c d) =
  Ok {| title := read_title (LUT3D.name c);
        size2D := Z.of_nat (LUT2D.size l);
        size3D := Z.of_nat (LUT3D.size c);
        table := (map (fun row => [quantize d (nth 0 row 0); quantize d (nth 1 row 0);
                                   quantize d (nth 2 row 0)]) (LUT2D.table l) ++
                  map (fun row => [quantize d (nth 0 row 0); quantize d (nth 1 row 0);
                                   quantize d (nth 2 row 0)])
                      (cube_rows (LUT3D.table c)))%list;
        comments := map strip (LUT2D.comments l ++ LUT3D.comments c)%list;
        has_2D := true;
        has_3D := true;
        LUT0 := LUT2D.make "" [] (read_domain d (LUT2D.domain l)) [];
        LUT1 := LUT3D.make "" [] (read_domain d (LUT3D.domain c)) [] |}.
Proof.
  intros Hsz2 Hsz3.
  unfold combined_writes, range_lines, read_domain.
  rewrite scan_cons, step_title_line. cbn [bind].
  rewrite scan_app, scan_comment_lines. cbn [bind].
  rewrite scan_app, scan_comment_lines. cbn [bind].
  rewrite scan_cons, step_size_line_1D by exact Hsz2. cbn [bind].
  rewrite scan_app.
  destruct (Np.array_equal (LUT2D.domain l) default_domain).
  - rewrite scan_nil. cbn [bind].
    rewrite scan_cons, step_size_line_3D by exact Hsz3. cbn [bind]. rewrite scan_app.
    destruct (Np.array_equal (LUT3D.domain c) default_domain).
    + rewrite scan_nil. cbn [bind]. rewrite scan_tables, map_app. reflexivity.
    + rewrite scan_cons, step_range_3D. cbn [bind]. rewrite scan_nil. cbn [bind].
      rewrite scan_tables, map_app. reflexivity.
  - rewrite scan_cons, step_range_1D. cbn [bind]. rewrite scan_nil. cbn [bind].
    rewrite scan_cons, step_size_line_3D by exact Hsz3. cbn [bind]. rewrite scan_app.
    destruct (Np.array_equal (LUT3D.domain c) default_domain).
    + rewrite scan_nil. cbn [bind]. rewrite scan_tables, map_app. reflexivity.
    + rewrite scan_cons, step_range_3D. cbn [bind]. rewrite scan_nil. cbn [bind].
      rewrite scan_tables, map_app. reflexivity.
Qed.

Lemma combined_writes_lines (l : LUT2D.t) (c : LUT3D.t) (d : nat) :
  single_line (LUT3D.name c) = true ->
  Forall (fun s => single_line s = true) (LUT2D.comments l) ->
  Forall (fun s => single_line s = true) (LUT3D.comments c) ->
  Forall is_line (combined_writes l c d).
Proof.
  intros Hn Hl Hc. unfold combined_writes. constructor; [now apply is_line_title|].
  apply Forall_app. split; [now apply Forall_is_line_comments|].
  apply Forall_app. split; [now apply Forall_is_line_comments|].
  constructor; [now apply is_line_size|].
  apply Forall_app. split; [now apply Forall_is_line_range|].
  constructor; [now apply is_line_size|].
  apply Forall_app. split; [now apply Forall_is_line_range|].
  apply Forall_app. split; [apply Forall_is_line_rows|].
  constructor; [apply is_line_NL|]. apply Forall_is_line_rows.
Qed.

(** Reading the file written for a shaper and a cube: the tables come back
    rounded to the precision of the text, the stage names are derived from
    the name of the cube, and the comments of both stages go to the cube. *)
Lemma read_combined_writes (path : string) (l : LUT2D.t) (c : LUT3D.t) (d : nat) :
  Forall is_triple (LUT2D.table l) ->
  shape4 (LUT3D.size c) (LUT3D.size c) (LUT3D.size c) 3 (LUT3D.table c) ->
  (0 < LUT3D.size c)%nat ->
  single_line (LUT3D.name c) = true ->
  Forall (fun s => single_line s = true) (LUT2D.comments l) ->
  Forall (fun s => single_line s = true) (LUT3D.comments c) ->
  (Z.of_nat (LUT2D.size l) < 2 ^ 63)%Z ->
  (Z.of_nat (LUT3D.size c) < 2 ^ 63)%Z ->
  read_LUT_ResolveCube path (file_text (combined_writes l c d)) =
  Ok (LUTSequence
        [L2D (LUT2D.make (read_title (LUT3D.name c) ++ " - Shaper")
                         (map (map (quantize d)) (LUT2D.table l))
                         (read_domain d (LUT2D.domain l)) []);
         L3D (LUT3D.make (read_title (LUT3D.name c) ++ " - Cube")
                         (map4 (quantize d) (LUT3D.table c))
                         (read_domain d (LUT3D.domain c))
                         (map strip (LUT2D.comments l ++ LUT3D.comments c)%list))]).
Proof.
  intros T H4 Hs Hn Hl Hc Hsz2 Hsz3. unfold read_LUT_ResolveCube.
  rewrite readlines_file_text by now apply combined_writes_lines.
  rewrite scan_combined_writes by assumption. cbn [bind]. unfold classify.
  pose proof (cube_rows_triples _ _ H4 Hs) as T3.
  cbn [table has_2D has_3D size2D size3D title comments LUT0 LUT1 andb].
  rewrite (quantize_triples d _ T), (quantize_triples d _ T3).
  rewrite asarray_triples
    by (apply Forall_app; split; now apply Forall_triple_map).
  cbn [bind].
  assert (L : List.length (map (map (quantize d)) (LUT2D.table l)) = LUT2D.size l)
    by apply length_map.
  rewrite slice_to_nat, slice_from_nat by (rewrite length_app; lia).
  rewrite <- L.
  rewrite firstn_app, firstn_all, Nat.sub_diag, skipn_app, skipn_all, Nat.sub_diag.
  cbn [firstn skipn app]. rewrite app_nil_r.
  rewrite (cube_rows_unravel _ _ H4 Hs).
  rewrite reshape_cube_rows by assumption. reflexivity.
Qed.

End ReadWrite.

(** ** What the loop computes from the lines of a file *)

Section ScanEffect.
Import Py ResolveCube Spec.
Local Open Scope string_scope.

Lemma bind_Ok_inv {A B : Type} (m : result A) (k : A -> result B) (b : B) :
  bind m k = Ok b -> exists a, m = Ok a /\ k a = Ok b.
Proof. destruct m as [a|e]; simpl; [eauto|discriminate]. Qed.

(** The effect of one line on each variable of the reader. *)
Lemma step_effect (st st' : locals) (line : string) :
  step st line = Ok st' ->
  comments st' =
    (comments st ++ (if is_comment line then [strip (drop_first (strip line))]
                     else []))%list /\
  (exists rows,
     mapM _parse_array (if is_data line then [tokens_of line] else []) = Ok rows /\
     table st' = (table st ++ rows)%list) /\
  has_2D st' = has_2D st || is_directive "LUT_1D_SIZE" line /\
  has_3D st' = has_3D st || is_directive "LUT_3D_SIZE" line /\
  size2D st' = declared_size "LUT_1D_SIZE" [line] (size2D st) /\
  size3D st' = declared_size "LUT_3D_SIZE" [line] (size3D st) /\
  title st' = declared_title [line] (title st) /\
  LUT2D.comments (LUT0 st') = LUT2D.comments (LUT0 st).
Proof.
  unfold step, is_comment, is_data, is_directive, head_token, tokens_of, is_blank.
  simpl declared_size. simpl declared_title.
  unfold is_directive, head_token, tokens_of, is_blank, is_comment.
  destruct (String.length (strip line) =? 0)%nat eqn:B.
  { apply Nat.eqb_eq in B. destruct (strip line); [|discriminate].
    intros H. injection H as <-. simpl.
    rewrite !app_nil_r, !orb_false_r. effect_goals (@nil (list Q)). }
  destruct (startswith "#" (strip line)) eqn:C.
  { intros H. injection H as <-. simpl.
    rewrite !orb_false_r. effect_goals (@nil (list Q)). }
  simpl negb. simpl andb.
  destruct (split (strip line)) as [|t0 args] eqn:S; [discriminate|].
  unfold dispatch. simpl hd. simpl tl. simpl existsb.
  destruct (t0 =? "TITLE") eqn:E1.
  { apply String.eqb_eq in E1. subst t0. intros H. injection H as <-. simpl.
    rewrite !app_nil_r, !orb_false_r. effect_goals (@nil (list Q)). }
  destruct (t0 =? "LUT_1D_INPUT_RANGE") eqn:E2.
  { apply String.eqb_eq in E2. subst t0. intros H.
    apply bind_Ok_inv in H as [dom [_ H]]. injection H as <-. simpl.
    rewrite !app_nil_r, !orb_false_r. effect_goals (@nil (list Q)). }
  destruct (t0 =? "LUT_3D_INPUT_RANGE") eqn:E3.
  { apply String.eqb_eq in E3. subst t0. intros H.
    apply bind_Ok_inv in H as [dom [_ H]]. injection H as <-. simpl.
    rewrite !app_nil_r, !orb_false_r. effect_goals (@nil (list Q)). }
  destruct (t0 =? "LUT_1D_SIZE") eqn:E4.
  { apply String.eqb_eq in E4. subst t0. intros H.
    apply bind_Ok_inv in H as [tok [Htok H]].
    apply bind_Ok_inv in H as [n [Hn H]]. injection H as <-.
    unfold second in Htok. destruct args as [|tok' args]; [discriminate|].
    simpl in Htok. injection Htok as ->. unfold int_ in Hn.
    destruct (parse_int tok) as [n'|] eqn:P; [|discriminate].
    destruct ((- 2 ^ 63 <=? n') && (n' <? 2 ^ 63))%Z; [|discriminate].
    injection Hn as ->. simpl.
    rewrite !app_nil_r, !orb_false_r, !orb_true_r. effect_goals (@nil (list Q)). }
  destruct (t0 =? "LUT_3D_SIZE") eqn:E5.
  { apply String.eqb_eq in E5. subst t0. intros H.
    apply bind_Ok_inv in H as [tok [Htok H]].
    apply bind_Ok_inv in H as [n [Hn H]]. injection H as <-.
    unfold second in Htok. destruct args as [|tok' args]; [discriminate|].
    simpl in Htok. injection Htok as ->. unfold int_ in Hn.
    destruct (parse_int tok) as [n'|] eqn:P; [|discriminate].
    destruct ((- 2 ^ 63 <=? n') && (n' <? 2 ^ 63))%Z; [|discriminate].
    injection Hn as ->. simpl.
    rewrite !app_nil_r, !orb_false_r, !orb_true_r. effect_goals (@nil (list Q)). }
  intros H. apply bind_Ok_inv in H as [row [Hrow H]]. injection H as <-. simpl.
  rewrite !app_nil_r, !orb_false_r. rewrite Hrow. effect_goals [row].
Qed.

Lemma declared_size_cons (keyword line : string) (lines : list string) (acc : Z) :
  declared_size keyword (line :: lines) acc =
  declared_size keyword lines (declared_size keyword [line] acc).
Proof. reflexivity. Qed.

Lemma declared_title_cons (line : string) (lines : list string) (acc : string) :
  declared_title (line :: lines) acc =
  declared_title lines (declared_title [line] acc).
Proof. reflexivity. Qed.

(** The variables of the reader after the loop, from the lines of the file. *)
Lemma scan_effect (lines : list string) (st st' : locals) :
  scan st lines = Ok st' ->
  comments st' = (comments st ++ comment_texts lines)%list /\
  (exists rows,
     mapM _parse_array (data_tokens lines) = Ok rows /\
     table st' = (table st ++ rows)%list) /\
  has_2D st' = has_2D st || existsb (is_directive "LUT_1D_SIZE") lines /\
  has_3D st' = has_3D st || existsb (is_directive "LUT_3D_SIZE") lines /\
  size2D st' = declared_size "LUT_1D_SIZE" lines (size2D st) /\
  size3D st' = declared_size "LUT_3D_SIZE" lines (size3D st) /\
  title st' = declared_title lines (title st) /\
  LUT2D.comments (LUT0 st') = LUT2D.comments (LUT0 st).
Proof.
  revert st. induction lines as [|line lines IH]; intros st H.
  - injection H as <-. simpl. rewrite !app_nil_r, !orb_false_r.
    effect_goals (@nil (list Q)).
  - simpl in H. apply bind_Ok_inv in H as [st1 [H1 H2]].
    apply step_effect in H1 as (C1 & (rows1 & R1 & T1) & A1 & B1 & S1 & S1' & L1 & K1).
    apply IH in H2 as (C2 & (rows2 & R2 & T2) & A2 & B2 & S2 & S2' & L2 & K2).
    rewrite (declared_size_cons "LUT_1D_SIZE" line lines),
      (declared_size_cons "LUT_3D_SIZE" line lines),
      (declared_title_cons line lines).
    rewrite <- S1, <- S1', <- L1.
    split; [|split; [|repeat split; try assumption]].
    + rewrite C2, C1. unfold comment_texts. simpl filter.
      destruct (is_comment line); simpl; now rewrite <- app_assoc.
    + exists (rows1 ++ rows2)%list. split.
      * unfold data_tokens in *. simpl filter.
        destruct (is_data line); simpl in *.
        -- destruct (_parse_array (tokens_of line)) as [row|]; [|discriminate].
           simpl in R1. injection R1 as <-. now rewrite R2.
        -- injection R1 as <-. exact R2.
      * rewrite T2, T1. now rewrite <- app_assoc.
    + rewrite A2, A1. simpl. now rewrite orb_assoc.
    + rewrite B2, B1. simpl. now rewrite orb_assoc.
    + now rewrite K2.
Qed.

End ScanEffect.

(** ** The reader on a file with both size directives *)

Section Combined.
Import Py ResolveCube Spec Claims Samples.
Local Open Scope string_scope.

Lemma shape4_unravelF4 (nr ng nb nc : nat) (flat : list Q) :
  shape4 nr ng nb nc (Np.unravelF4 nr ng nb nc flat).
Proof.
  unfold shape4, Np.unravelF4. split; [now rewrite length_map, length_seq|].
  apply Forall_forall. intros p Hp. apply in_map_iff in Hp as [r [<- _]].
  split; [now rewrite length_map, length_seq|].
  apply Forall_forall. intros q Hq. apply in_map_iff in Hq as [g [<- _]].
  split; [now rewrite length_map, length_seq|].
  apply Forall_forall. intros row Hrow. apply in_map_iff in Hrow as [b [<- _]].
  now rewrite length_map, length_seq.
Qed.

Lemma cell_unravelF4 (s : nat) (a : Np.ndarray2) (r g b : nat) :
  shape2 (s * s * s) 3 a -> (r < s)%nat -> (g < s)%nat -> (b < s)%nat ->
  cell (Np.unravelF4 s s s 3 (Np.ravelF2 a)) r g b = nth (r + s * (g + s * b)) a [].
Proof.
  intros H Hr Hg Hb. unfold cell, Np.unravelF4.
  rewrite !nth_seq_map by assumption.
  set (i := (r + s * (g + s * b))%nat).
  assert (Hi : (i < s * s * s)%nat) by now apply index_lt3.
  rewrite <- (map_seq_nth (nth i a []) 0), (shape2_nth _ _ _ _ H Hi).
  apply map_ext_in. intros c Hc. apply in_seq in Hc.
  replace (r + s * (g + s * (b + s * c)))%nat with (i + s * s * s * c)%nat
    by (subst i; ring).
  apply (nth_ravelF2 (s * s * s) 3); (assumption || lia).
Qed.

Lemma nth_skipn {A : Type} (n i : nat) (l : list A) (d : A) :
  nth i (skipn n l) d = nth (n + i) l d.
Proof.
  revert l. induction n as [|n IH]; intros l; [reflexivity|].
  destruct l as [|x l]; [now destruct i|]. simpl. apply IH.
Qed.

End Combined.

(** ** The claims about the reader *)

Section ReaderClaims.
Import Py ResolveCube Spec Claims Samples.
Local Open Scope string_scope.

(** C3.  A file with both a [LUT_1D_SIZE n] and a [LUT_3D_SIZE s] directive
    whose lines all parse and whose data rows are [n + s^3] triples is read
    as a (shaper, cube) pair: the first [n] data rows, in file order, are
    the shaper table; the remaining rows fill the [s x s x s] cube with the
    red index fastest and the blue index slowest (the cell [(r, g, b)] is
    the row [r + s g + s^2 b] of the remainder); the stages are named
    [title - Shaper] and [title - Cube]; all the comments of the file go to
    the cube and the shaper has none. *)
Theorem read_combined_split
    (path content : string) (st : locals) (n s : nat) (rows : list (list Q)) :
  scan (init path) (readlines content) = Ok st ->
  existsb (is_directive "LUT_1D_SIZE") (readlines content) = true ->
  existsb (is_directive "LUT_3D_SIZE") (readlines content) = true ->
  declared_size "LUT_1D_SIZE" (readlines content) 2 = Z.of_nat n ->
  declared_size "LUT_3D_SIZE" (readlines content) 2 = Z.of_nat s ->
  mapM _parse_array (data_tokens (readlines content)) = Ok rows ->
  Forall is_triple rows ->
  List.length rows = (n + s * s * s)%nat ->
  exists shaper cube,
    read_LUT_ResolveCube path content = Ok (LUTSequence [L2D shaper; L3D cube]) /\
    LUT2D.table shaper = firstn n rows /\
    shape4 s s s 3 (LUT3D.table cube) /\
    (forall r g b, (r < s)%nat -> (g < s)%nat -> (b < s)%nat ->
       cell (LUT3D.table cube) r g b = nth (n + (r + s * (g + s * b))) rows []) /\
    LUT2D.name shaper =
      declared_title (readlines content) (default_title path) ++ " - Shaper" /\
    LUT3D.name cube =
      declared_title (readlines content) (default_title path) ++ " - Cube" /\
    LUT3D.comments cube = comment_texts (readlines content) /\
    LUT2D.comments shaper = [].
Proof.
  intros Hscan H1 H3 Hn Hs Hrows Ht Hlen.
  pose proof (scan_effect _ _ _ Hscan)
    as (C & (rows' & R & T) & A & B & S1 & S3 & L & K).
  rewrite Hrows in R. injection R as <-. simpl in C, T, A, B, S1, S3, L, K.
  rewrite H1 in A. rewrite H3 in B. rewrite Hn in S1. rewrite Hs in S3.
  assert (Hrest : shape2 (s * s * s) 3 (skipn n rows)).
  { split; [rewrite length_skipn; lia|].
    pose proof Ht as Ht'. rewrite <- (firstn_skipn n rows) in Ht'.
    now apply Forall_app in Ht' as [_ Ht']. }
  unfold read_LUT_ResolveCube. rewrite Hscan. cbn [bind]. unfold classify.
  rewrite T, asarray_triples by assumption. cbn [bind].
  rewrite A, B, S1, S3. cbn [andb].
  rewrite slice_to_nat, slice_from_nat by lia.
  unfold Np.reshape_cube.
  replace (Z.of_nat s <? 0)%Z with false by (symmetry; apply Z.ltb_ge; lia).
  rewrite (length_ravelF2 _ _ _ Hrest).
  replace (Z.of_nat (s * s * s * 3) =? Z.of_nat s * Z.of_nat s * Z.of_nat s * 3)%Z
    with true by (symmetry; apply Z.eqb_eq; lia).
  cbv zeta. rewrite Nat2Z.id. cbn [bind].
  eexists. eexists. split; [reflexivity|].
  unfold LUT2D.set_table, LUT2D.set_name, LUT3D.set_table, LUT3D.set_comments,
    LUT3D.set_name.
  cbn [LUT2D.table LUT2D.name LUT2D.comments LUT3D.table LUT3D.name LUT3D.comments].
  split; [reflexivity|]. split; [apply shape4_unravelF4|].
  split.
  { intros r g b Hr Hg Hb. rewrite cell_unravelF4 by assumption.
    apply nth_skipn. }
  rewrite L, C, K. repeat split; reflexivity.
Qed.


Lemma read_combined_split_witness :
  exists shaper cube,
    read_LUT_ResolveCube "luts/Demo_File.cube" combined_file =
      Ok (LUTSequence [L2D shaper; L3D cube]) /\
    LUT2D.table shaper =
      firstn 2 [[0.0; 0.0; 0.0]; [1.0; 1.0; 1.0]; [0.0; 0.0; 0.0]; [1.0; 0.0; 0.0];
                [0.0; 1.0; 0.0]; [1.0; 1.0; 0.0]; [0.0; 0.0; 1.0]; [1.0; 0.0; 1.0];
                [0.0; 1.0; 1.0]; [1.0; 1.0; 1.0]] /\
    shape4 2 2 2 3 (LUT3D.table cube) /\
    (forall r g b, (r < 2)%nat -> (g < 2)%nat -> (b < 2)%nat ->
       cell (LUT3D.table cube) r g b =
       nth (2 + (r + 2 * (g + 2 * b)))
           [[0.0; 0.0; 0.0]; [1.0; 1.0; 1.0]; [0.0; 0.0; 0.0]; [1.0; 0.0; 0.0];
                [0.0; 1.0; 0.0]; [1.0; 1.0; 0.0]; [0.0; 0.0; 1.0]; [1.0; 0.0; 1.0];
                [0.0; 1.0; 1.0]; [1.0; 1.0; 1.0]] []) /\
    LUT2D.name shaper =
      declared_title (readlines combined_file) (default_title "luts/Demo_File.cube")
      ++ " - Shaper" /\
    LUT3D.name cube =
      declared_title (readlines combined_file) (default_title "luts/Demo_File.cube")
      ++ " - Cube" /\
    LUT3D.comments cube = comment_texts (readlines combined_file) /\
    LUT2D.comments shaper = [].
Proof.
  eapply (read_combined_split "luts/Demo_File.cube" combined_file _ 2 2).
  - vm_compute. reflexivity.
  - vm_compute. reflexivity.
  - vm_compute. reflexivity.
  - vm_compute. reflexivity.
  - vm_compute. reflexivity.
  - vm_compute. reflexivity.
  - repeat constructor.
  - reflexivity.
Defined.


(** C5.  The reader on a file with no size directive: the empty file is
    read without any error and the call returns [None]. *)
Theorem read_empty_file_returns_None (path : string) :
  read_LUT_ResolveCube path "" = Ok None_.
Proof. reflexivity. Qed.

(** The same holds for every file without a size directive whose lines
    parse: the three branches on [has_2D] and [has_3D] are skipped. *)
Lemma read_without_size_directive (path content : string) (st : locals) :
  scan (init path) (readlines content) = Ok st ->
  existsb (is_directive "LUT_1D_SIZE") (readlines content) = false ->
  existsb (is_directive "LUT_3D_SIZE") (readlines content) = false ->
  Np.asarray (table st) = Ok (table st) ->
  read_LUT_ResolveCube path content = Ok None_.
Proof.
  intros Hscan H1 H3 Ha.
  pose proof (scan_effect _ _ _ Hscan) as (_ & _ & A & B & _).
  simpl in A, B. rewrite H1 in A. rewrite H3 in B.
  unfold read_LUT_ResolveCube. rewrite Hscan. cbn [bind]. unfold classify.
  rewrite Ha. cbn [bind]. now rewrite A, B.
Qed.

Example read_no_size_file :
  read_LUT_ResolveCube "Demo.cube" no_size_file = Ok None_.
Proof. vm_compute. reflexivity. Qed.

(** C6, as stated, fails: a shaper file that declares 3 rows and holds 2 is
    read without error. *)
Lemma size_mismatch_not_refused : ~ size_mismatch_refused.
Proof.
  intros H.
  destruct (H "short.cube" short_shaper_file
              {| title := "short"; size2D := 3; size3D := 2;
                 table := [[0.0; 0.0; 0.0]; [1.0; 1.0; 1.0]];
                 comments := []; has_2D := true; has_3D := false;
                 LUT0 := LUT2D_default; LUT1 := LUT3D_default |} 3%Z)
    as [e He].
  - vm_compute. reflexivity.
  - reflexivity.
  - discriminate.
  - vm_compute in He. discriminate.
Qed.

Example read_short_shaper_file :
  read_LUT_ResolveCube "short.cube" short_shaper_file =
  Ok (Lut (L2D (LUT2D.make "short" [[0.0; 0.0; 0.0]; [1.0; 1.0; 1.0]]
                           default_domain []))).
Proof. vm_compute. reflexivity. Qed.

Lemma pow3 (z : Z) : (z ^ 3 = z * z * z)%Z.
Proof. ring. Qed.

Lemma shape2_triples (rows : list (list Q)) :
  Forall is_triple rows -> shape2 (List.length rows) 3 rows.
Proof. intros H. now split. Qed.

(** C6, amended.  For a file whose lines parse (each size within the range of
    [np.int_], each number a literal), whose range directives carry two
    values and whose data rows are triples: a cube file whose number of
    rows is not the cube of the declared size is refused with
    [ValueError]; so is a file with both directives (shaper size [n >= 1],
    cube size [s >= 1]) and a data row, whose number of rows is not
    [n + s^3]; in a file with a shaper size only and a data row, the
    declared size is not compared with the rows, which all go to the table
    of the shaper that is returned. *)
Theorem size_mismatch_cube_refused (path content : string) (st : locals) :
  scan (init path) (readlines content) = Ok st ->
  range_pairs (readlines content) = true ->
  Forall is_triple (table st) ->
  (has_2D st = false -> has_3D st = true ->
   Z.of_nat (List.length (table st)) <> (size3D st ^ 3)%Z ->
   read_LUT_ResolveCube path content = Raise ValueError) /\
  (has_2D st = true -> has_3D st = true ->
   (1 <= size2D st)%Z -> (1 <= size3D st)%Z -> table st <> [] ->
   Z.of_nat (List.length (table st)) <> (size2D st + size3D st ^ 3)%Z ->
   read_LUT_ResolveCube path content = Raise ValueError) /\
  (has_2D st = true -> has_3D st = false -> table st <> [] ->
   exists l, read_LUT_ResolveCube path content = Ok (Lut (L2D l)) /\
             LUT2D.table l = table st).
Proof.
  intros Hscan _ Ht. unfold read_LUT_ResolveCube. rewrite Hscan. cbn [bind].
  unfold classify. rewrite asarray_triples by assumption. cbn [bind].
  split; [|split].
  - intros -> -> Hne. cbn [andb]. unfold Np.reshape_cube.
    destruct (size3D st <? 0)%Z eqn:E; [reflexivity|]. apply Z.ltb_ge in E.
    rewrite (length_ravelF2 _ _ _ (shape2_triples _ Ht)).
    replace (_ =? _)%Z with false; [reflexivity|]. symmetry.
    apply Z.eqb_neq. intros Heq. apply Hne. rewrite pow3. lia.
  - intros -> -> Hn Hs _ Hne. cbn [andb]. unfold Np.reshape_cube.
    replace (size3D st <? 0)%Z with false by (symmetry; apply Z.ltb_ge; lia).
    assert (Hrest : Forall is_triple (Np.slice_from (size2D st) (table st))).
    { unfold Np.slice_from. pose proof Ht as Ht'.
      rewrite <- (firstn_skipn (Np.slice_index (size2D st) (List.length (table st)))
                    (table st)) in Ht'.
      now apply Forall_app in Ht' as [_ Ht']. }
    rewrite (length_ravelF2 _ _ _ (shape2_triples _ Hrest)).
    replace (_ =? _)%Z with false; [reflexivity|]. symmetry.
    apply Z.eqb_neq. intros Heq. apply Hne. rewrite pow3.
    unfold Np.slice_from, Np.slice_index in Heq. rewrite length_skipn in Heq.
    replace (size2D st <? 0)%Z with false in Heq by (symmetry; apply Z.ltb_ge; lia).
    assert (1 <= size3D st * size3D st * size3D st)%Z by nia.
    lia.
  - intros -> -> _. cbn [andb]. eexists. split; reflexivity.
Qed.

Lemma size_mismatch_cube_refused_witness :
  read_LUT_ResolveCube "short.cube" short_cube_file = Raise ValueError.
Proof.
  refine (proj1 (size_mismatch_cube_refused "short.cube" short_cube_file
                   {| title := "short"; size2D := 2; size3D := 2;
                      table := [[0.0; 0.0; 0.0]];
                      comments := []; has_2D := false; has_3D := true;
                      LUT0 := LUT2D_default; LUT1 := LUT3D_default |} _ _ _) _ _ _).
  - vm_compute. reflexivity.
  - vm_compute. reflexivity.
  - repeat constructor.
  - reflexivity.
  - reflexivity.
  - vm_compute. discriminate.
Defined.

(** C10.  A line that starts with [#] once trimmed adds one comment: the
    text after the [#], trimmed on both sides; the stored text neither
    starts nor ends with whitespace, so the whitespace that surrounds the
    text of a comment line is lost. *)
Theorem comment_line_stripped (st : locals) (line rest : string) :
  strip line = String "#" rest ->
  step st line = Ok (add_comment (strip rest) st) /\
  lstrip (strip rest) = strip rest /\
  rstrip (strip rest) = strip rest /\
  (forall w1 w2 text, all_space w1 = true -> all_space w2 = true ->
     rest = w1 ++ text ++ w2 -> strip rest = strip text).
Proof.
  intros H. split; [now apply step_comment|].
  split; [apply lstrip_strip|]. split; [apply rstrip_strip|].
  intros w1 w2 text H1 H2 ->.
  now rewrite strip_space_l, strip_space_r.
Qed.

Lemma comment_line_stripped_witness :
  step (init "Demo.cube") "  #   A  comment.   " =
    Ok (add_comment "A  comment." (init "Demo.cube")).
Proof.
  exact (proj1 (comment_line_stripped (init "Demo.cube") "  #   A  comment.   "
                  "   A  comment." eq_refl)).
Defined.

End ReaderClaims.

(** ** The claims about the writer *)

Section WriterClaims.
Import Py ResolveCube Spec Claims Samples.
Local Open Scope string_scope.

(** C4.  The writer stores into its argument: given a sequence whose first
    stage is a [LUT1D], the call leaves the caller's sequence with a [LUT2D]
    in its place, whatever the outcome of the call. *)
Theorem write_replaces_first_stage (s : LUT1D.t) (c : LUT3D.t) (d : nat) :
  fst (write_LUT_ResolveCube (LUTSequence [L1D s; L3D c]) d) =
    LUTSequence [L2D (as_LUT2D s); L3D c] /\
  fst (write_LUT_ResolveCube (LUTSequence [L1D s; L3D c]) d) <>
    LUTSequence [L1D s; L3D c].
Proof. split; [reflexivity|discriminate]. Qed.

(** A [LUT1D] argument is written as the shaper that repeats it on the
    three channels. *)
Lemma write_1D_as_2D (l : LUT1D.t) (d : nat) :
  snd (write_LUT_ResolveCube (Lut (L1D l)) d) =
  snd (write_LUT_ResolveCube (Lut (L2D (as_LUT2D l))) d).
Proof. reflexivity. Qed.

(** Every other argument is left as it was. *)
Lemma write_keeps_other_arguments (LUT : object) (d : nat) :
  (forall s c, LUT <> LUTSequence [L1D s; L3D c]) ->
  fst (write_LUT_ResolveCube LUT d) = LUT.
Proof.
  intros H. destruct LUT as [[l|l|l]|stages|]; try reflexivity.
  destruct stages as [|[s|s|s] [|[c|c|c] [|x stages]]]; try reflexivity.
  now elim (H s c).
Qed.

End WriterClaims.

Section WriterLines.
Import Py ResolveCube Spec Claims Samples.
Local Open Scope string_scope.

Lemma array_equal1_spec (a b : list Q) :
  Np.array_equal1 a b = true <-> Forall2 Qeq a b.
Proof.
  revert b. induction a as [|x a IH]; intros [|y b]; simpl; split; intros H;
    try discriminate; try constructor; try (now inversion H).
  - apply andb_prop in H as [H _]. now apply Qeq_bool_iff.
  - apply andb_prop in H as [_ H]. now apply IH.
  - inversion H; subst. apply andb_true_intro. split.
    + now apply Qeq_bool_iff.
    + now apply IH.
Qed.

Lemma array_equal_spec (a b : Np.ndarray2) :
  Np.array_equal a b = true <-> same_domain a b.
Proof.
  unfold same_domain.
  revert b. induction a as [|x a IH]; intros [|y b]; simpl; split; intros H;
    try discriminate; try constructor; try (now inversion H).
  - apply andb_prop in H as [H _]. now apply array_equal1_spec.
  - apply andb_prop in H as [_ H]. now apply IH.
  - inversion H; subst. apply andb_true_intro. split.
    + now apply array_equal1_spec.
    + now apply IH.
Qed.

Lemma range_line_inv (keyword : string) (d : nat) (dom : Np.ndarray2) (r : list string) :
  range_line keyword d dom = Ok r ->
  (Np.array_equal dom default_domain = true /\ r = []) \/
  (Np.array_equal dom default_domain = false /\
   r = [range_text keyword d (bound dom 0) (bound dom 1)]).
Proof.
  unfold range_line. destruct (Np.array_equal dom default_domain).
  - intros H. injection H as <-. now left.
  - intros H. right. split; [reflexivity|]. cbn [negb] in H.
    apply bind_Ok_inv in H as [lo [Hlo H]].
    apply bind_Ok_inv in H as [hi [Hhi H]].
    cbn in H. injection H as <-.
    unfold domain_at, bound in *.
    destruct dom as [|[|a r0] [|[|b r1] dom]]; try discriminate.
    cbn in Hlo, Hhi. injection Hlo as <-. injection Hhi as <-. reflexivity.
Qed.

Lemma mapM_Ok_inv {A B : Type} (f : A -> result B) (l : list A) (bs : list B) :
  mapM f l = Ok bs -> Forall2 (fun a b => f a = Ok b) l bs.
Proof.
  revert bs. induction l as [|a l IH]; intros bs H.
  - injection H as <-. constructor.
  - cbn in H. apply bind_Ok_inv in H as [b [Hb H]].
    apply bind_Ok_inv in H as [bs' [Hbs H]]. injection H as <-.
    constructor; auto.
Qed.

(** Each data line starts with a sign or a digit. *)
Lemma data_lines_first (d : nat) (t : Np.ndarray2) (rows : list string) :
  data_lines d t = Ok rows ->
  Forall (fun w => first_char sign_or_digit w = true) rows.
Proof.
  intros H. apply mapM_Ok_inv in H.
  induction H as [|row w t' rows' Hw _ IH]; constructor; [|assumption].
  apply bind_Ok_inv in Hw as [s [Hs Hw]]. injection Hw as <-.
  unfold _format_array in Hs. destruct row as [|a [|b [|c row]]]; try discriminate.
  injection Hs as <-. rewrite !append_assoc. apply first_char_app, format_float_first.
Qed.

(** The writes of a successful call, part by part. *)
Lemma write_stages_inv (h2 h3 : bool) (name : string) (s : LUT2D.t) (c : LUT3D.t)
    (d : nat) (writes : list string) :
  write_stages h2 h3 name s c d = Ok writes ->
  exists head2 head3 body2 body3,
    writes = (title_line name ::
              map comment_line (LUT2D.comments s) ++
              map comment_line (LUT3D.comments c) ++
              head2 ++ head3 ++ body2 ++ body3)%list /\
    (if h2 then
       exists r rows,
         range_line "LUT_1D_INPUT_RANGE" d (LUT2D.domain s) = Ok r /\
         head2 = size_line "LUT_1D_SIZE" (LUT2D.size s) :: r /\
         data_lines d (LUT2D.table s) = Ok rows /\
         body2 = (rows ++ [NL])%list
     else head2 = [] /\ body2 = []) /\
    (if h3 then
       exists r t rows,
         range_line "LUT_3D_INPUT_RANGE" d (LUT3D.domain c) = Ok r /\
         head3 = size_line "LUT_3D_SIZE" (LUT3D.size c) :: r /\
         Np.reshape_rows (LUT3D.table c) = Ok t /\
         data_lines d t = Ok rows /\
         body3 = rows
     else head3 = [] /\ body3 = []).
Proof.
  unfold write_stages. intros H.
  apply bind_Ok_inv in H as [_ [_ H]].
  apply bind_Ok_inv in H as [_ [_ H]].
  apply bind_Ok_inv in H as [_ [_ H]].
  apply bind_Ok_inv in H as [head2 [H2 H]].
  apply bind_Ok_inv in H as [head3 [H3 H]].
  apply bind_Ok_inv in H as [body2 [B2 H]].
  apply bind_Ok_inv in H as [body3 [B3 H]].
  injection H as <-. exists head2, head3, body2, body3.
  split; [reflexivity|]. split.
  - destruct h2.
    + apply bind_Ok_inv in H2 as [r [Hr H2]]. injection H2 as <-.
      apply bind_Ok_inv in B2 as [rows [Hrows B2]]. injection B2 as <-.
      now exists r, rows.
    + injection H2 as <-. injection B2 as <-. now split.
  - destruct h3.
    + apply bind_Ok_inv in H3 as [r [Hr H3]]. injection H3 as <-.
      apply bind_Ok_inv in B3 as [t [Ht B3]].
      now exists r, t, body3.
    + injection H3 as <-. injection B3 as <-. now split.
Qed.

Lemma startswith_first (c : ascii) (k w : string) :
  sign_or_digit c = false ->
  first_char sign_or_digit w = true ->
  startswith (String c k) w = false.
Proof.
  intros Hc Hw. destruct w as [|x w]; [reflexivity|]. simpl in *.
  destruct (Ascii.eqb_spec c x); [congruence|reflexivity].
Qed.

Lemma startswith_comment_line (c : ascii) (k text : string) :
  Ascii.eqb c "#" = false -> startswith (String c k) (comment_line text) = false.
Proof. intros H. unfold comment_line. simpl. now rewrite H. Qed.


Lemma write_stages_size_assertion (h2 h3 : bool) (name : string) (s : LUT2D.t)
    (c : LUT3D.t) (d : nat) :
  (h2 = true /\ ~ (2 <= Z.of_nat (LUT2D.size s) <= 65536)%Z) \/
  (h3 = true /\ ~ (2 <= Z.of_nat (LUT3D.size c) <= 256)%Z) ->
  exists msg, write_stages h2 h3 name s c d = Raise (AssertionError msg).
Proof.
  intros H. unfold write_stages.
  destruct ((Np.count_unique (LUT2D.domain s) =? 2)%nat &&
            (Np.count_unique (LUT3D.domain c) =? 2)%nat);
    [|eexists; reflexivity].
  cbn [assert bind].
  destruct h2.
  - destruct ((2 <=? Z.of_nat (LUT2D.size s))%Z &&
              (Z.of_nat (LUT2D.size s) <=? 65536)%Z) eqn:E2;
      [|eexists; reflexivity].
    cbn [assert bind]. apply andb_prop in E2 as [E2 E2'].
    apply Z.leb_le in E2, E2'.
    destruct H as [[_ H]|[-> H]]; [lia|].
    destruct ((2 <=? Z.of_nat (LUT3D.size c))%Z &&
              (Z.of_nat (LUT3D.size c) <=? 256)%Z) eqn:E3;
      [|eexists; reflexivity].
    apply andb_prop in E3 as [E3 E3']. apply Z.leb_le in E3, E3'. lia.
  - cbn [bind]. destruct H as [[H _]|[-> H]]; [discriminate|].
    destruct ((2 <=? Z.of_nat (LUT3D.size c))%Z &&
              (Z.of_nat (LUT3D.size c) <=? 256)%Z) eqn:E3;
      [|eexists; reflexivity].
    apply andb_prop in E3 as [E3 E3']. apply Z.leb_le in E3, E3'. lia.
Qed.

(** C7.  Whatever the argument, when its shaper stage has a size outside
    [2, 65536] or its cube stage has a size outside [2, 256], the call
    fails with an [AssertionError]: it does not return. *)
Theorem write_rejects_sizes (LUT : object) (d : nat) :
  (exists s, shaper_stage LUT = Some s /\
             ~ (2 <= Z.of_nat (LUT2D.size s) <= 65536)%Z) \/
  (exists c, cube_stage LUT = Some c /\
             ~ (2 <= Z.of_nat (LUT3D.size c) <= 256)%Z) ->
  exists msg, snd (write_LUT_ResolveCube LUT d) = Raise (AssertionError msg).
Proof.
  intros H. destruct LUT as [[l|l|l]|stages|]; cbn [write_LUT_ResolveCube snd].
  - apply write_stages_size_assertion. left.
    destruct H as [(s & Hs & H)|(c & Hc & _)]; [|discriminate].
    injection Hs as <-. now split.
  - apply write_stages_size_assertion. left.
    destruct H as [(s & Hs & H)|(c & Hc & _)]; [|discriminate].
    injection Hs as <-. now split.
  - apply write_stages_size_assertion. right.
    destruct H as [(s & Hs & _)|(c & Hc & H)]; [discriminate|].
    injection Hc as <-. now split.
  - destruct stages as [|[s|s|s] [|[c|c|c] [|x stages]]];
      try (eexists; reflexivity); cbn [snd].
    + apply write_stages_size_assertion.
      destruct H as [(s' & Hs & H)|(c' & Hc & H)].
      * left. injection Hs as <-. now split.
      * right. injection Hc as <-. now split.
    + apply write_stages_size_assertion.
      destruct H as [(s' & Hs & H)|(c' & Hc & H)].
      * left. injection Hs as <-. now split.
      * right. injection Hc as <-. now split.
  - eexists. reflexivity.
Qed.

Lemma write_rejects_sizes_witness :
  exists msg,
    snd (write_LUT_ResolveCube
           (Lut (L2D (LUT2D.make "One row" [[0; 0; 0]] default_domain []))) 7)
    = Raise (AssertionError msg).
Proof.
  apply write_rejects_sizes. left.
  exists (LUT2D.make "One row" [[0; 0; 0]] default_domain []).
  split; [reflexivity|]. cbn. lia.
Defined.

Lemma in_data_lines_not_keyword (k w : string) (d : nat) (t : Np.ndarray2)
    (rows : list string) :
  data_lines d t = Ok rows -> In w rows ->
  startswith (String "L" k) w = false /\ startswith "#" w = false.
Proof.
  intros H Hin. apply data_lines_first in H. rewrite Forall_forall in H.
  split; apply startswith_first; auto.
Qed.

(** Among the writes of a successful call, the lines that start with
    [LUT_1D_INPUT_RANGE]. *)
Lemma in_writes_range_1D (h2 h3 : bool) (name : string) (s : LUT2D.t)
    (c : LUT3D.t) (d : nat) (writes : list string) (w : string) :
  write_stages h2 h3 name s c d = Ok writes ->
  (In w writes /\ startswith "LUT_1D_INPUT_RANGE" w = true) <->
  (h2 = true /\ Np.array_equal (LUT2D.domain s) default_domain = false /\
   w = range_text "LUT_1D_INPUT_RANGE" d (bound (LUT2D.domain s) 0)
                  (bound (LUT2D.domain s) 1)).
Proof.
  intros H. apply write_stages_inv in H
    as (head2 & head3 & body2 & body3 & -> & H2 & H3).
  split.
  - intros [Hin Hw]. destruct Hin as [<-|Hin]; [other_line|].
    apply in_app_or in Hin as [Hin|Hin].
    { apply in_map_iff in Hin as [x [<- _]]. other_line. }
    apply in_app_or in Hin as [Hin|Hin].
    { apply in_map_iff in Hin as [x [<- _]]. other_line. }
    apply in_app_or in Hin as [Hin|Hin].
    { destruct h2; [|destruct H2 as [-> _]; contradiction].
      destruct H2 as (r & rows & Hr & -> & _ & _).
      destruct Hin as [<-|Hin]; [other_line|].
      apply range_line_inv in Hr as [[_ ->]|[E ->]]; [contradiction|].
      destruct Hin as [<-|[]]. auto. }
    apply in_app_or in Hin as [Hin|Hin].
    { destruct h3; [|destruct H3 as [-> _]; contradiction].
      destruct H3 as (r & t & rows & Hr & -> & _ & _ & _).
      destruct Hin as [<-|Hin]; [other_line|].
      apply range_line_inv in Hr as [[_ ->]|[E ->]]; [contradiction|].
      destruct Hin as [<-|[]]. other_line. }
    apply in_app_or in Hin as [Hin|Hin].
    { destruct h2; [|destruct H2 as [_ ->]; contradiction].
      destruct H2 as (r & rows & _ & _ & Hrows & ->).
      apply in_app_or in Hin as [Hin|[<-|[]]]; [|other_line].
      destruct (in_data_lines_not_keyword "UT_1D_INPUT_RANGE" _ _ _ _ Hrows Hin).
      congruence. }
    destruct h3; [|destruct H3 as [_ ->]; contradiction].
    destruct H3 as (r & t & rows & _ & _ & _ & Hrows & ->).
    destruct (in_data_lines_not_keyword "UT_1D_INPUT_RANGE" _ _ _ _ Hrows Hin).
    congruence.
  - intros (-> & E & ->). split; [|reflexivity].
    destruct H2 as (r & rows & Hr & -> & _ & _).
    apply range_line_inv in Hr as [[E' _]|[_ ->]]; [congruence|].
    right. apply in_or_app. right. apply in_or_app. right.
    apply in_or_app. left. right. now left.
Qed.

(** Among the writes of a successful call, the lines that start with
    [LUT_3D_INPUT_RANGE]. *)
Lemma in_writes_range_3D (h2 h3 : bool) (name : string) (s : LUT2D.t)
    (c : LUT3D.t) (d : nat) (writes : list string) (w : string) :
  write_stages h2 h3 name s c d = Ok writes ->
  (In w writes /\ startswith "LUT_3D_INPUT_RANGE" w = true) <->
  (h3 = true /\ Np.array_equal (LUT3D.domain c) default_domain = false /\
   w = range_text "LUT_3D_INPUT_RANGE" d (bound (LUT3D.domain c) 0)
                  (bound (LUT3D.domain c) 1)).
Proof.
  intros H. apply write_stages_inv in H
    as (head2 & head3 & body2 & body3 & -> & H2 & H3).
  split.
  - intros [Hin Hw]. destruct Hin as [<-|Hin]; [other_line|].
    apply in_app_or in Hin as [Hin|Hin].
    { apply in_map_iff in Hin as [x [<- _]]. other_line. }
    apply in_app_or in Hin as [Hin|Hin].
    { apply in_map_iff in Hin as [x [<- _]]. other_line. }
    apply in_app_or in Hin as [Hin|Hin].
    { destruct h2; [|destruct H2 as [-> _]; contradiction].
      destruct H2 as (r & rows & Hr & -> & _ & _).
      destruct Hin as [<-|Hin]; [other_line|].
      apply range_line_inv in Hr as [[_ ->]|[E ->]]; [contradiction|].
      destruct Hin as [<-|[]]. other_line. }
    apply in_app_or in Hin as [Hin|Hin].
    { destruct h3; [|destruct H3 as [-> _]; contradiction].
      destruct H3 as (r & t & rows & Hr & -> & _ & _ & _).
      destruct Hin as [<-|Hin]; [other_line|].
      apply range_line_inv in Hr as [[_ ->]|[E ->]]; [contradiction|].
      destruct Hin as [<-|[]]. auto. }
    apply in_app_or in Hin as [Hin|Hin].
    { destruct h2; [|destruct H2 as [_ ->]; contradiction].
      destruct H2 as (r & rows & _ & _ & Hrows & ->).
      apply in_app_or in Hin as [Hin|[<-|[]]]; [|other_line].
      destruct (in_data_lines_not_keyword "UT_3D_INPUT_RANGE" _ _ _ _ Hrows Hin).
      congruence. }
    destruct h3; [|destruct H3 as [_ ->]; contradiction].
    destruct H3 as (r & t & rows & _ & _ & _ & Hrows & ->).
    destruct (in_data_lines_not_keyword "UT_3D_INPUT_RANGE" _ _ _ _ Hrows Hin).
    congruence.
  - intros (-> & E & ->). split; [|reflexivity].
    destruct H3 as (r & t & rows & Hr & -> & _ & _ & _).
    apply range_line_inv in Hr as [[E' _]|[_ ->]]; [congruence|].
    right. apply in_or_app. right. apply in_or_app. right.
    apply in_or_app. right. apply in_or_app. left. right. now left.
Qed.


Lemma not_same_domain (dom : Np.ndarray2) :
  Np.array_equal dom default_domain = false <-> ~ same_domain dom default_domain.
Proof.
  rewrite <- array_equal_spec. destruct (Np.array_equal dom default_domain);
    split; congruence.
Qed.

Lemma range_1D_iff (h3 : bool) (name : string) (s : LUT2D.t) (c : LUT3D.t)
    (d : nat) (writes : list string) :
  write_stages true h3 name s c d = Ok writes ->
  ((exists w, In w writes /\ startswith "LUT_1D_INPUT_RANGE" w = true) <->
   ~ same_domain (LUT2D.domain s) default_domain) /\
  (forall w, In w writes -> startswith "LUT_1D_INPUT_RANGE" w = true ->
     w = range_text "LUT_1D_INPUT_RANGE" d (bound (LUT2D.domain s) 0)
                    (bound (LUT2D.domain s) 1)).
Proof.
  intros H. split; [split|].
  - intros [w Hw]. apply (in_writes_range_1D _ _ _ _ _ _ _ w H) in Hw.
    now apply not_same_domain.
  - intros E. apply not_same_domain in E. eexists.
    apply (in_writes_range_1D _ _ _ _ _ _ _ _ H). auto.
  - intros w Hin Hw.
    now apply (in_writes_range_1D _ _ _ _ _ _ _ w H).
Qed.

Lemma range_3D_iff (h2 : bool) (name : string) (s : LUT2D.t) (c : LUT3D.t)
    (d : nat) (writes : list string) :
  write_stages h2 true name s c d = Ok writes ->
  ((exists w, In w writes /\ startswith "LUT_3D_INPUT_RANGE" w = true) <->
   ~ same_domain (LUT3D.domain c) default_domain) /\
  (forall w, In w writes -> startswith "LUT_3D_INPUT_RANGE" w = true ->
     w = range_text "LUT_3D_INPUT_RANGE" d (bound (LUT3D.domain c) 0)
                    (bound (LUT3D.domain c) 1)).
Proof.
  intros H. split; [split|].
  - intros [w Hw]. apply (in_writes_range_3D _ _ _ _ _ _ _ w H) in Hw.
    now apply not_same_domain.
  - intros E. apply not_same_domain in E. eexists.
    apply (in_writes_range_3D _ _ _ _ _ _ _ _ H). auto.
  - intros w Hin Hw.
    now apply (in_writes_range_3D _ _ _ _ _ _ _ w H).
Qed.

Lemma data_lines_is_line (d : nat) (t : Np.ndarray2) (rows : list string) :
  data_lines d t = Ok rows -> Forall is_line rows.
Proof.
  intros H. apply mapM_Ok_inv in H.
  induction H as [|row w t' rows' Hw _ IH]; constructor; [|assumption].
  apply bind_Ok_inv in Hw as [s [Hs Hw]]. injection Hw as <-.
  unfold _format_array in Hs. destruct row as [|a [|b [|c row]]]; try discriminate.
  injection Hs as <-. exact (is_line_row d (a :: b :: c :: row)).
Qed.

(** When the name and the comments hold no line break, each write of a
    successful call is one line of the file. *)
Lemma write_stages_lines (h2 h3 : bool) (name : string) (s : LUT2D.t)
    (c : LUT3D.t) (d : nat) (writes : list string) :
  write_stages h2 h3 name s c d = Ok writes ->
  single_line name = true ->
  Forall (fun x => single_line x = true) (LUT2D.comments s) ->
  Forall (fun x => single_line x = true) (LUT3D.comments c) ->
  Forall is_line writes.
Proof.
  intros H Hn Hs Hc. apply write_stages_inv in H
    as (head2 & head3 & body2 & body3 & -> & H2 & H3).
  constructor; [now apply is_line_title|].
  apply Forall_app. split; [now apply Forall_is_line_comments|].
  apply Forall_app. split; [now apply Forall_is_line_comments|].
  assert (R : forall keyword dom r,
             single_line keyword = true ->
             range_line keyword d dom = Ok r -> Forall is_line r).
  { intros keyword dom r Hk Hr.
    apply range_line_inv in Hr as [[_ ->]|[_ ->]]; [constructor|].
    constructor; [now apply is_line_range|constructor]. }
  assert (A2 : Forall is_line head2 /\ Forall is_line body2).
  { destruct h2; [|destruct H2 as [-> ->]; now split].
    destruct H2 as (r & rows & Hr & -> & Hrows & ->). split.
    - constructor; [now apply is_line_size|].
      exact (R "LUT_1D_INPUT_RANGE" _ r eq_refl Hr).
    - apply Forall_app. split; [now apply (data_lines_is_line d _ _ Hrows)|].
      constructor; [apply is_line_NL|constructor]. }
  assert (A3 : Forall is_line head3 /\ Forall is_line body3).
  { destruct h3; [|destruct H3 as [-> ->]; now split].
    destruct H3 as (r & t & rows & Hr & -> & _ & Hrows & ->). split.
    - constructor; [now apply is_line_size|].
      exact (R "LUT_3D_INPUT_RANGE" _ r eq_refl Hr).
    - now apply (data_lines_is_line d _ _ Hrows). }
  destruct A2 as [A2 B2]. destruct A3 as [A3 B3].
  repeat (apply Forall_app; split); assumption.
Qed.

Lemma write_lines (LUT : object) (d : nat) (writes : list string) :
  snd (write_LUT_ResolveCube LUT d) = Ok writes ->
  Forall (fun t => single_line t = true) (texts_of LUT) ->
  readlines (file_text writes) = writes.
Proof.
  intros H T. apply readlines_file_text.
  destruct LUT as [[l|l|l]|stages|]; try discriminate;
    cbn [write_LUT_ResolveCube snd texts_of] in H, T.
  - inversion T; subst. eapply write_stages_lines; eauto; constructor.
  - inversion T; subst. eapply write_stages_lines; eauto; constructor.
  - inversion T; subst. eapply write_stages_lines; eauto; constructor.
  - destruct stages as [|[s0|s0|s0] [|[c|c|c] [|x stages]]]; try discriminate;
      cbn [snd flat_map] in H, T; rewrite app_nil_r in T;
      apply Forall_app in T as [T1 T2]; inversion T1; inversion T2; subst;
      eapply write_stages_lines; eauto.
Qed.

Lemma carries_format_float (d : nat) (x : Q) : carries d x (format_float d x).
Proof.
  split; [apply format_float_token|].
  split; [apply format_float_fractional_digits|].
  exists (quantize d x). split; [apply float_format_float|apply quantize_close].
Qed.

Lemma range_text_line_of (keyword : string) (d : nat) (dom : Np.ndarray2) :
  range_line_of keyword d dom
    (range_text keyword d (bound dom 0) (bound dom 1)).
Proof.
  exists (format_float d (bound dom 0)), (format_float d (bound dom 1)).
  split; [|split; apply carries_format_float].
  unfold range_text, NL, LF. now rewrite !append_assoc.
Qed.

(** C8.  In the file of a successful call whose names and comments hold no
    line break, a line that starts with [LUT_1D_INPUT_RANGE] (resp.
    [LUT_3D_INPUT_RANGE]) exists exactly when the domain of the shaper
    (resp. cube) stage is not the default one, as arrays of scalars; such a
    line is the keyword followed by two words, each with exactly
    [decimals] digits after the point, whose values are [domain[0][0]] and
    [domain[1][0]] up to [10 ^ -decimals]. *)
Theorem range_line_iff_not_default (LUT : object) (d : nat) (writes : list string) :
  snd (write_LUT_ResolveCube LUT d) = Ok writes ->
  Forall (fun t => single_line t = true) (texts_of LUT) ->
  (forall s, shaper_stage LUT = Some s ->
     ((exists line, In line (readlines (file_text writes)) /\
                    startswith "LUT_1D_INPUT_RANGE" line = true) <->
      ~ same_domain (LUT2D.domain s) default_domain) /\
     (forall line, In line (readlines (file_text writes)) ->
        startswith "LUT_1D_INPUT_RANGE" line = true ->
        range_line_of "LUT_1D_INPUT_RANGE" d (LUT2D.domain s) line)) /\
  (forall c, cube_stage LUT = Some c ->
     ((exists line, In line (readlines (file_text writes)) /\
                    startswith "LUT_3D_INPUT_RANGE" line = true) <->
      ~ same_domain (LUT3D.domain c) default_domain) /\
     (forall line, In line (readlines (file_text writes)) ->
        startswith "LUT_3D_INPUT_RANGE" line = true ->
        range_line_of "LUT_3D_INPUT_RANGE" d (LUT3D.domain c) line)).
Proof.
  intros H T. rewrite (write_lines LUT d writes H T).
  assert (G1 : forall h3 name s c,
             write_stages true h3 name s c d = Ok writes ->
             ((exists line, In line writes /\
                            startswith "LUT_1D_INPUT_RANGE" line = true) <->
              ~ same_domain (LUT2D.domain s) default_domain) /\
             (forall line, In line writes ->
                startswith "LUT_1D_INPUT_RANGE" line = true ->
                range_line_of "LUT_1D_INPUT_RANGE" d (LUT2D.domain s) line)).
  { intros h3 name s c Hw. destruct (range_1D_iff _ _ _ _ _ _ Hw) as [A B].
    split; [exact A|]. intros line Hin Hl. rewrite (B line Hin Hl).
    apply range_text_line_of. }
  assert (G3 : forall h2 name s c,
             write_stages h2 true name s c d = Ok writes ->
             ((exists line, In line writes /\
                            startswith "LUT_3D_INPUT_RANGE" line = true) <->
              ~ same_domain (LUT3D.domain c) default_domain) /\
             (forall line, In line writes ->
                startswith "LUT_3D_INPUT_RANGE" line = true ->
                range_line_of "LUT_3D_INPUT_RANGE" d (LUT3D.domain c) line)).
  { intros h2 name s c Hw. destruct (range_3D_iff _ _ _ _ _ _ Hw) as [A B].
    split; [exact A|]. intros line Hin Hl. rewrite (B line Hin Hl).
    apply range_text_line_of. }
  split.
  - intros s Hs. destruct LUT as [[l|l|l]|stages|]; try discriminate;
      cbn [write_LUT_ResolveCube snd] in H.
    + injection Hs as <-. exact (G1 _ _ _ _ H).
    + injection Hs as <-. exact (G1 _ _ _ _ H).
    + destruct stages as [|[s0|s0|s0] [|[c|c|c] [|x stages]]]; try discriminate;
        cbn [snd] in H; injection Hs as <-; exact (G1 _ _ _ _ H).
  - intros c Hc. destruct LUT as [[l|l|l]|stages|]; try discriminate;
      cbn [write_LUT_ResolveCube snd] in H.
    + injection Hc as <-. exact (G3 _ _ _ _ H).
    + destruct stages as [|[s0|s0|s0] [|[c0|c0|c0] [|x stages]]]; try discriminate;
        cbn [snd] in H; injection Hc as <-; exact (G3 _ _ _ _ H).
Qed.

(** The file of the sample shaper, whose domain is [-0.1] to [3]: its range
    line at 7 decimals. *)
Lemma range_line_iff_not_default_witness :
  exists writes,
    snd (write_LUT_ResolveCube (Lut (L2D sample_shaper)) 7) = Ok writes /\
    In ("LUT_1D_INPUT_RANGE -0.1000000 3.0000000" ++ String "010"%char "")
       (readlines (file_text writes)) /\
    range_line_of "LUT_1D_INPUT_RANGE" 7 [[-1 # 10; -1 # 10; -1 # 10]; [3; 3; 3]]
      ("LUT_1D_INPUT_RANGE -0.1000000 3.0000000" ++ String "010"%char "").
Proof.
  exists (shaper_writes sample_shaper 7).
  assert (E : snd (write_LUT_ResolveCube (Lut (L2D sample_shaper)) 7) =
              Ok (shaper_writes sample_shaper 7)) by (vm_compute; reflexivity).
  assert (I : In ("LUT_1D_INPUT_RANGE -0.1000000 3.0000000" ++ String "010"%char "")
                 (readlines (file_text (shaper_writes sample_shaper 7))))
    by (vm_compute; auto 10).
  split; [exact E|]. split; [exact I|].
  refine (proj2 (proj1 (range_line_iff_not_default (Lut (L2D sample_shaper)) 7
                          (shaper_writes sample_shaper 7) E _)
                       sample_shaper eq_refl) _ I eq_refl).
  repeat constructor.
Defined.

(** C9.  For a sequence of a shaper and a cube whose names and comments
    hold no line break, the file of a successful call starts with the
    [TITLE] line, which quotes the name of the cube; then come the
    comments of the shaper in their order, each after [# ], then the
    comments of the cube in their order, then the [LUT_1D_SIZE] line; no
    later line starts with [#]. *)
Theorem combined_comments_order (s0 : lut) (c : LUT3D.t) (d : nat)
    (writes : list string) :
  snd (write_LUT_ResolveCube (LUTSequence [s0; L3D c]) d) = Ok writes ->
  Forall (fun t => single_line t = true) (texts_of (LUTSequence [s0; L3D c])) ->
  exists shaper rest,
    shaper_stage (LUTSequence [s0; L3D c]) = Some shaper /\
    readlines (file_text writes) =
      (("TITLE " ++ String "034"%char
          (LUT3D.name c ++ String "034"%char (String "010"%char "")))%string ::
       map (fun x => "# " ++ x ++ String "010"%char "")%string
           (LUT2D.comments shaper) ++
       map (fun x => "# " ++ x ++ String "010"%char "")%string
           (LUT3D.comments c) ++
       ("LUT_1D_SIZE " ++ str_N (N.of_nat (List.length (LUT2D.table shaper))) ++
        String "010"%char "")%string :: rest)%list /\
    Forall (fun line => startswith "#" line = false) rest.
Proof.
  intros H T. rewrite (write_lines _ d writes H T).
  assert (G : forall shaper,
             write_stages true true (LUT3D.name c) shaper c d = Ok writes ->
             exists rest,
               writes = (title_line (LUT3D.name c) ::
                         map comment_line (LUT2D.comments shaper) ++
                         map comment_line (LUT3D.comments c) ++
                         size_line "LUT_1D_SIZE" (LUT2D.size shaper) :: rest)%list /\
               Forall (fun w => startswith "#" w = false) rest).
  { intros shaper Hw. apply write_stages_inv in Hw
      as (head2 & head3 & body2 & body3 & -> & H2 & H3).
    destruct H2 as (r2 & rows2 & Hr2 & -> & Hrows2 & ->).
    destruct H3 as (r3 & t & rows3 & Hr3 & -> & _ & Hrows3 & ->).
    exists (r2 ++ (size_line "LUT_3D_SIZE" (LUT3D.size c) :: r3) ++
            (rows2 ++ [NL]) ++ rows3)%list.
    split; [reflexivity|].
    apply Forall_app. split.
    { apply range_line_inv in Hr2 as [[_ ->]|[_ ->]]; repeat constructor. }
    apply Forall_app. split.
    { constructor; [reflexivity|].
      apply range_line_inv in Hr3 as [[_ ->]|[_ ->]]; repeat constructor. }
    apply Forall_app. split.
    { apply Forall_app. split; [|repeat constructor].
      apply Forall_forall. intros w Hin.
      apply (in_data_lines_not_keyword "" _ _ _ _ Hrows2 Hin). }
    apply Forall_forall. intros w Hin.
    apply (in_data_lines_not_keyword "" _ _ _ _ Hrows3 Hin). }
  destruct s0 as [s|s|s]; cbn [write_LUT_ResolveCube snd] in H; try discriminate.
  - destruct (G _ H) as (rest & Hw & Hrest). now exists (as_LUT2D s), rest.
  - destruct (G _ H) as (rest & Hw & Hrest). now exists s, rest.
Qed.

(** The file of the sample sequence: its first four lines. *)
Lemma combined_comments_order_witness :
  exists writes rest,
    snd (write_LUT_ResolveCube (LUTSequence [L1D sample_1D; L3D sample_cube]) 3)
    = Ok writes /\
    readlines (file_text writes) =
      (("TITLE " ++ String "034"%char ("My Cube" ++ String "034"%char
                                        (String "010"%char "")))%string ::
       ("# A shaper comment." ++ String "010"%char "")%string ::
       ("# A cube comment." ++ String "010"%char "")%string ::
       ("LUT_1D_SIZE 3" ++ String "010"%char "")%string :: rest)%list /\
    Forall (fun line => startswith "#" line = false) rest.
Proof.
  destruct (snd (write_LUT_ResolveCube (LUTSequence [L1D sample_1D; L3D sample_cube]) 3))
    as [writes|e] eqn:E; [|vm_compute in E; discriminate].
  destruct (combined_comments_order (L1D sample_1D) sample_cube 3 writes E)
    as (shaper & rest & H1 & H2 & H3); [repeat constructor|].
  injection H1 as <-.
  exists writes, rest. split; [reflexivity|]. split; [exact H2|exact H3].
Defined.

End WriterLines.

(** ** The round trips *)

Section RoundTrips.
Import Py ResolveCube Spec Claims Samples.
Local Open Scope string_scope.

Lemma Forall2_map_r {A B : Type} (R : A -> B -> Prop) (f : A -> B) (l : list A) :
  (forall x, R x (f x)) -> Forall2 R l (map f l).
Proof. intros H. induction l; constructor; auto. Qed.

Lemma table_close_quantize (d : nat) (a : Np.ndarray2) :
  table_close d a (map (map (quantize d)) a).
Proof.
  apply Forall2_map_r. intros row. apply Forall2_map_r. apply quantize_close.
Qed.

Lemma grid_close_quantize (d : nat) (t : Np.ndarray4) :
  grid_close d t (map4 (quantize d) t).
Proof.
  apply Forall2_map_r. intros p. apply Forall2_map_r. intros q.
  apply table_close_quantize.
Qed.

Lemma shape4_map4 (f : Q -> Q) (nr ng nb nc : nat) (t : Np.ndarray4) :
  shape4 nr ng nb nc t -> shape4 nr ng nb nc (map4 f t).
Proof.
  unfold shape4, map4. intros [L F]. split; [now rewrite length_map|].
  apply Forall_map. eapply Forall_impl; [|exact F]. intros p [Lp Fp].
  split; [now rewrite length_map|].
  apply Forall_map. eapply Forall_impl; [|exact Fp]. intros q [Lq Fq].
  split; [now rewrite length_map|].
  apply Forall_map. eapply Forall_impl; [|exact Fq]. intros row Lrow.
  now rewrite length_map.
Qed.

Lemma firstn_seq_le (n start len : nat) :
  (n <= len)%nat -> firstn n (seq start len) = seq start n.
Proof.
  revert start len. induction n as [|n IH]; intros start len H; [reflexivity|].
  destruct len as [|len]; [lia|]. simpl. f_equal. apply IH. lia.
Qed.

Lemma firstn_map_seq {A : Type} (f : nat -> A) (n m : nat) :
  (n <= m)%nat -> firstn n (map f (seq 0 m)) = map f (seq 0 n).
Proof.
  intros H. rewrite firstn_map. now rewrite firstn_seq_le.
Qed.

(** C1.  A cube of side [s] in [2, 256] with a domain the writer accepts and
    a name and comments that fit on a line is written, and reading the
    written file gives a cube of side [s] whose scalars are within
    [10 ^ -decimals] of the ones written, cell by cell.  The data rows of
    the file are the cells in axis-major order: row [i] is the cell at
    [r = i mod s], [g = (i / s) mod s], [b = i / s^2], so that the first [s]
    data rows are the cells [(r, 0, 0)] for [r = 0 .. s - 1]. *)
Theorem cube_roundtrip_axis_major (path : string) (c : LUT3D.t) (s d : nat) :
  shape4 s s s 3 (LUT3D.table c) ->
  rectilinear (LUT3D.domain c) ->
  (2 <= Z.of_nat s <= 256)%Z ->
  single_line (LUT3D.name c) = true ->
  Forall (fun x => single_line x = true) (LUT3D.comments c) ->
  exists writes header data c',
    snd (write_LUT_ResolveCube (Lut (L3D c)) d) = Ok writes /\
    read_LUT_ResolveCube path (file_text writes) = Ok (Lut (L3D c')) /\
    shape4 s s s 3 (LUT3D.table c') /\
    grid_close d (LUT3D.table c) (LUT3D.table c') /\
    writes = (header ++ data)%list /\
    header = (title_line (LUT3D.name c) ::
              map comment_line (LUT3D.comments c) ++
              size_line "LUT_3D_SIZE" s ::
              range_lines "LUT_3D_INPUT_RANGE" d (LUT3D.domain c))%list /\
    data = map (fun i => row_line d (cell (LUT3D.table c) (i mod s) ((i / s) mod s)
                                         (i / (s * s))))
               (seq 0 (s * s * s)) /\
    firstn s data = map (fun r => row_line d (cell (LUT3D.table c) r 0 0)) (seq 0 s).
Proof.
  intros H4 Hdom Hs Hn Hc.
  assert (Hsize : LUT3D.size c = s) by apply H4.
  pose proof (write_cube_ok c d Hdom) as W. rewrite Hsize in W.
  specialize (W H4 Hs).
  pose proof (read_cube_writes path c d) as R. rewrite Hsize in R.
  specialize (R H4 ltac:(lia) Hn Hc (fits_long s ltac:(lia))).
  eexists (cube_writes c d), _, _, _.
  split; [now rewrite W|]. split; [exact R|].
  cbn [LUT3D.table]. split; [now apply shape4_map4|].
  split; [apply grid_close_quantize|].
  split; [|split; [reflexivity|split; [reflexivity|]]].
  - unfold cube_writes, cube_rows, LUT3D.size in *. rewrite Hsize.
    rewrite map_map. cbn [app]. f_equal. rewrite <- app_assoc. reflexivity.
  - rewrite firstn_map_seq by nia. apply map_ext_in. intros r Hr.
    apply in_seq in Hr.
    rewrite Nat.mod_small, Nat.div_small, Nat.Div0.mod_0_l by lia.
    now rewrite Nat.div_small by nia.
Qed.

Lemma cube_roundtrip_axis_major_witness :
  exists writes header data c',
    snd (write_LUT_ResolveCube (Lut (L3D sample_cube)) 3) = Ok writes /\
    read_LUT_ResolveCube "My_Cube.cube" (file_text writes) = Ok (Lut (L3D c')) /\
    shape4 2 2 2 3 (LUT3D.table c') /\
    grid_close 3 (LUT3D.table sample_cube) (LUT3D.table c') /\
    writes = (header ++ data)%list /\
    header = (title_line (LUT3D.name sample_cube) ::
              map comment_line (LUT3D.comments sample_cube) ++
              size_line "LUT_3D_SIZE" 2 ::
              range_lines "LUT_3D_INPUT_RANGE" 3 (LUT3D.domain sample_cube))%list /\
    data = map (fun i => row_line 3 (cell (LUT3D.table sample_cube) (i mod 2)
                                         ((i / 2) mod 2) (i / (2 * 2))))
               (seq 0 (2 * 2 * 2)) /\
    firstn 2 data =
      map (fun r => row_line 3 (cell (LUT3D.table sample_cube) r 0 0)) (seq 0 2).
Proof.
  apply (cube_roundtrip_axis_major "My_Cube.cube" sample_cube 2 3).
  - unfold shape4. cbn. repeat constructor.
  - split; [unfold shape2; cbn; repeat constructor|vm_compute; reflexivity].
  - lia.
  - reflexivity.
  - repeat constructor.
Defined.

Lemma Qeq_close (d : nat) (x y : Q) : x == y -> close d x y.
Proof.
  intros H. unfold close.
  assert (E : x - y == 0) by (rewrite H; ring).
  rewrite E. discriminate.
Qed.

Lemma count_unique_uniform (lo hi : Q) :
  ~ lo == hi -> Np.count_unique (uniform_domain lo hi) = 2%nat.
Proof.
  intros H. unfold Np.count_unique, uniform_domain.
  cbn [List.concat app Np.unique existsb].
  assert (Qeq_bool lo hi = false) as E.
  { destruct (Qeq_bool lo hi) eqn:E; [|reflexivity].
    apply Qeq_bool_iff in E. contradiction. }
  assert (Qeq_bool lo lo = true) as E1 by now apply Qeq_bool_iff.
  assert (Qeq_bool hi hi = true) as E2 by now apply Qeq_bool_iff.
  rewrite E, E1, E2. reflexivity.
Qed.

Lemma rectilinear_uniform (lo hi : Q) :
  ~ lo == hi -> rectilinear (uniform_domain lo hi).
Proof.
  intros H. split; [|now apply count_unique_uniform].
  unfold shape2, uniform_domain. split; [reflexivity|]. repeat constructor.
Qed.

Lemma read_domain_close (d : nat) (lo hi : Q) :
  table_close d (uniform_domain lo hi) (read_domain d (uniform_domain lo hi)).
Proof.
  unfold read_domain.
  destruct (Np.array_equal (uniform_domain lo hi) default_domain) eqn:E.
  - apply array_equal_spec in E. unfold same_domain in E. unfold table_close.
    eapply Forall2_impl; [|exact E]. intros a b Hab.
    eapply Forall2_impl; [|exact Hab]. intros x y. apply Qeq_close.
  - unfold uniform_domain, bound, Np.tstack3. cbn.
    repeat constructor; apply quantize_close.
Qed.

(** C2, amended.  A shaper with rows of three scalars, a size in
    [2, 65536], one pair of distinct bounds for the three channels of its
    domain, and a name and comments that fit on a line is written, and
    reading the written file gives a shaper whose table and domain are
    within [10 ^ -decimals] of the ones written and whose comments are the
    ones written with the whitespace at both ends removed. *)
Theorem shaper_roundtrip_stripped
    (path : string) (l : LUT2D.t) (lo hi : Q) (d : nat) :
  valid_shaper l lo hi ->
  exists writes l',
    snd (write_LUT_ResolveCube (Lut (L2D l)) d) = Ok writes /\
    read_LUT_ResolveCube path (file_text writes) = Ok (Lut (L2D l')) /\
    table_close d (LUT2D.table l) (LUT2D.table l') /\
    table_close d (LUT2D.domain l) (LUT2D.domain l') /\
    LUT2D.comments l' = map strip (LUT2D.comments l).
Proof.
  intros (Ht & Hs & Hd & Hne & Hn & Hc).
  assert (Hrect : rectilinear (LUT2D.domain l))
    by (rewrite Hd; now apply rectilinear_uniform).
  assert (H3 : Forall (fun row => 3 <= List.length row)%nat (LUT2D.table l)).
  { eapply Forall_impl; [|exact Ht]. intros row Hrow. unfold is_triple in Hrow. lia. }
  pose proof (write_shaper_ok l d Hrect H3 Hs) as W.
  pose proof (read_shaper_writes path l d Ht Hn Hc
                (fits_long (LUT2D.size l) ltac:(lia))) as R.
  eexists (shaper_writes l d), _.
  split; [now rewrite W|]. split; [exact R|]. cbn [LUT2D.table LUT2D.domain LUT2D.comments].
  split; [apply table_close_quantize|]. split; [|reflexivity].
  rewrite Hd. apply read_domain_close.
Qed.

Lemma sample_shaper_valid : valid_shaper sample_shaper (-1 # 10) 3.
Proof.
  unfold valid_shaper. split; [repeat constructor|].
  split; [cbn; lia|]. split; [reflexivity|]. split; [discriminate|].
  split; [reflexivity|repeat constructor].
Qed.

Lemma shaper_roundtrip_stripped_witness :
  exists writes l',
    snd (write_LUT_ResolveCube (Lut (L2D sample_shaper)) 7) = Ok writes /\
    read_LUT_ResolveCube "My_LUT.cube" (file_text writes) = Ok (Lut (L2D l')) /\
    table_close 7 (LUT2D.table sample_shaper) (LUT2D.table l') /\
    table_close 7 (LUT2D.domain sample_shaper) (LUT2D.domain l') /\
    LUT2D.comments l' = map strip (LUT2D.comments sample_shaper).
Proof.
  exact (shaper_roundtrip_stripped "My_LUT.cube" sample_shaper (-1 # 10) 3 7
           sample_shaper_valid).
Defined.

(** C2, as stated, fails: a comment that starts with a space is read back
    without it. *)
Lemma shaper_roundtrip_comments_differ : ~ shaper_roundtrip (fun cs => cs).
Proof.
  intros H.
  destruct (H "padded.cube" padded_shaper 0 1 7%nat) as (writes & l' & Hw & Hr & _ & _ & Hc).
  - unfold valid_shaper. split; [repeat constructor|].
    split; [cbn; lia|]. split; [reflexivity|]. split; [discriminate|].
    split; [reflexivity|repeat constructor].
  - vm_compute in Hw. injection Hw as <-.
    vm_compute in Hr. injection Hr as <-.
    cbn in Hc. discriminate Hc.
Qed.

End RoundTrips.

(** ** The reader, line by line: what is ignored and what is refused *)

Section ReaderLines.
Import Py ResolveCube Spec Props.
Local Open Scope string_scope.

Lemma step_strip (st : locals) (line : string) :
  step st (strip line) = step st line.
Proof. unfold step. now rewrite strip_idem. Qed.

Lemma step_is_blank (st : locals) (line : string) :
  is_blank line = true -> step st line = Ok st.
Proof. unfold is_blank, step. now intros ->. Qed.

Lemma scan_significant (lines : list string) (st : locals) :
  scan st (significant lines) = scan st lines.
Proof.
  revert st. induction lines as [|l lines IH]; intros st; [reflexivity|].
  unfold significant. cbn [filter].
  destruct (is_blank l) eqn:B; cbn [negb map].
  - rewrite scan_cons, (step_is_blank _ _ B). cbn [bind]. apply IH.
  - rewrite !scan_cons, step_strip.
    destruct (step st l) as [st'|e]; [|reflexivity]. cbn [bind]. apply IH.
Qed.

(** X1.  Blank lines, and the whitespace around the text of a line, do not
    count: two files with the same significant lines are read alike. *)
Theorem read_ignores_blank_lines_and_padding (path content content' : string) :
  significant (readlines content) = significant (readlines content') ->
  read_LUT_ResolveCube path content = read_LUT_ResolveCube path content'.
Proof.
  intros H. unfold read_LUT_ResolveCube.
  now rewrite <- (scan_significant (readlines content)), H, scan_significant.
Qed.

Lemma read_ignores_blank_lines_and_padding_witness :
  read_LUT_ResolveCube "a.cube" ("LUT_1D_SIZE 2" ++ NL ++ "0 0 0" ++ NL ++ "1 1 1" ++ NL) =
  read_LUT_ResolveCube "a.cube"
    (NL ++ "   LUT_1D_SIZE 2  " ++ NL ++ NL ++ "0 0 0   " ++ NL ++ "  " ++ NL ++
     "   1 1 1").
Proof.
  apply read_ignores_blank_lines_and_padding. vm_compute. reflexivity.
Defined.

Lemma universal_newlines_to_crlf (s : string) :
  string_forall (fun c => negb (Ascii.eqb c CR)) s = true ->
  universal_newlines (to_crlf s) = s.
Proof.
  induction s as [|c s IH]; [reflexivity|]. cbn [string_forall].
  intros H. apply andb_prop in H as [Hc Hs]. apply negb_true_iff in Hc.
  cbn [to_crlf]. destruct (Ascii.eqb c LF) eqn:E.
  - apply Ascii.eqb_eq in E. subst c. cbn. now rewrite IH.
  - cbn [universal_newlines]. rewrite Hc. now rewrite IH.
Qed.

(** X2.  A file with Windows line ends is read as the same file with line
    feeds. *)
Theorem read_crlf (path content : string) :
  string_forall (fun c => negb (Ascii.eqb c CR)) content = true ->
  read_LUT_ResolveCube path (to_crlf content) = read_LUT_ResolveCube path content.
Proof.
  intros H. unfold read_LUT_ResolveCube, readlines.
  now rewrite universal_newlines_to_crlf, universal_newlines_id.
Qed.

Lemma read_crlf_witness :
  read_LUT_ResolveCube "a.cube"
    (to_crlf ("LUT_1D_SIZE 2" ++ NL ++ "0 0 0" ++ NL ++ "1 1 1" ++ NL)) =
  read_LUT_ResolveCube "a.cube" ("LUT_1D_SIZE 2" ++ NL ++ "0 0 0" ++ NL ++ "1 1 1" ++ NL).
Proof. apply read_crlf. vm_compute. reflexivity. Defined.

(** *** Errors of a line *)

Lemma scan_raise (pre post : list string) (line : string) (st st1 : locals)
    (e : exn) :
  scan st pre = Ok st1 -> step st1 line = Raise e ->
  scan st (pre ++ line :: post) = Raise e.
Proof.
  intros Hpre Hline. rewrite scan_app, Hpre. cbn [bind].
  now rewrite scan_cons, Hline.
Qed.

Lemma step_directive (st : locals) (keyword line : string) :
  keyword <> "" -> is_directive keyword line = true ->
  step st line = dispatch st (keyword :: tl (tokens_of line)).
Proof.
  unfold is_directive, is_blank, is_comment, head_token, tokens_of, step.
  intros Hne H. apply andb_prop in H as [H Hk]. apply andb_prop in H as [Hb Hc].
  apply negb_true_iff in Hb, Hc. rewrite Hb, Hc.
  apply String.eqb_eq in Hk.
  destruct (split (strip line)) as [|t0 args] eqn:E.
  - cbn in Hk. now subst keyword.
  - cbn in Hk. now subst t0.
Qed.

Lemma nth_error_tl {A : Type} (l : list A) (n : nat) :
  nth_error (tl l) n = nth_error l (S n).
Proof. destruct l; [now destruct n|reflexivity]. Qed.

Lemma span_digits_spec (s d r : string) :
  span_digits s = (d, r) ->
  s = d ++ r /\ string_forall isdigit d = true.
Proof.
  revert d r. induction s as [|c s IH]; intros d r H.
  - injection H as <- <-. now split.
  - cbn [span_digits] in H. destruct (isdigit c) eqn:Hc.
    + destruct (span_digits s) as [d' r'] eqn:E. injection H as <- <-.
      destruct (IH _ _ eq_refl) as [-> Hd]. split; [reflexivity|].
      cbn [string_forall]. now rewrite Hc, Hd.
    + injection H as <- <-. now split.
Qed.

Lemma take_sign_spec (s : string) :
  (take_sign s = (false, s)) \/
  (exists c, s = String c (snd (take_sign s)) /\
             (c = "-"%char \/ c = "+"%char)).
Proof.
  destruct s as [|c s]; [now left|].
  destruct (Ascii.eqb_spec c "-"); [subst; right; eexists; split; [reflexivity|now left]|].
  destruct (Ascii.eqb_spec c "+"); [subst; right; eexists; split; [reflexivity|now right]|].
  left. cbn.
  destruct c as [[] [] [] [] [] [] [] []]; try reflexivity; congruence.
Qed.

(** The characters of a text that has an ungrouping are those of the
    ungrouping and the underscore. *)
Lemma ungroup_from_chars (p : ascii -> bool) (s t : string) (prev : ascii) :
  p "_"%char = true ->
  ungroup_from prev s = Some t -> string_forall p t = true ->
  string_forall p s = true.
Proof.
  intros Hu. revert t prev. induction s as [|c s IH]; intros t prev H Ht;
    [reflexivity|].
  cbn [ungroup_from] in H. cbn [string_forall].
  destruct (Ascii.eqb_spec c "_") as [->|Hc].
  - destruct (isdigit prev); [|discriminate]. now rewrite Hu, (IH _ _ H Ht).
  - destruct (Ascii.eqb prev "_" && negb (isdigit c))%bool; [discriminate|].
    destruct (ungroup_from c s) as [t'|] eqn:E; [|discriminate].
    injection H as <-. cbn [string_forall] in Ht.
    apply andb_prop in Ht as [Hpc Ht]. now rewrite Hpc, (IH _ _ E Ht).
Qed.

Lemma decimal_int_chars (s : string) (z : Z) :
  decimal_int s = Some z -> string_forall int_char s = true.
Proof.
  unfold decimal_int. intros H.
  destruct (take_sign s) as [neg s1] eqn:T.
  destruct (span_digits s1) as [dg r] eqn:E.
  apply span_digits_spec in E as [-> Hd].
  destruct dg as [|c dg]; [discriminate|]. destruct r; [|discriminate].
  rewrite append_nil_r in *.
  assert (D : string_forall int_char (String c dg) = true).
  { eapply string_forall_impl; [|exact Hd].
    intros x Hx. unfold int_char. now rewrite Hx. }
  destruct (take_sign_spec s) as [E|[x [E Hx]]]; rewrite T in E.
  - injection E as _ <-. exact D.
  - cbn [snd] in E. rewrite E. cbn [string_forall] in D |- *.
    rewrite D, andb_true_r.
    destruct Hx as [-> | ->]; reflexivity.
Qed.

(** An integer literal holds nothing but digits, signs and underscores. *)
Lemma parse_int_chars (s : string) (z : Z) :
  parse_int s = Some z -> string_forall int_char s = true.
Proof.
  unfold parse_int. destruct (ungroup s) as [t|] eqn:U; [|discriminate].
  intros H. apply decimal_int_chars in H.
  exact (ungroup_from_chars int_char s t _ eq_refl U H).
Qed.

(** X3.  After lines that parse, with range directives of two values, a size
    directive without a value, or with a value that is no integer literal,
    stops the reader: [tokens[1]] raises [IndexError] and [np.int_] raises
    [ValueError], whatever follows in the file. *)
Theorem read_bad_size_directive
    (path content keyword line : string) (pre post : list string) (st : locals) :
  readlines content = (pre ++ line :: post)%list ->
  scan (init path) pre = Ok st ->
  range_pairs pre = true ->
  keyword = "LUT_1D_SIZE" \/ keyword = "LUT_3D_SIZE" ->
  is_directive keyword line = true ->
  match nth_error (tokens_of line) 1 with
  | None => read_LUT_ResolveCube path content = Raise IndexError
  | Some tok =>
      string_forall int_char tok = false ->
      read_LUT_ResolveCube path content = Raise ValueError
  end.
Proof.
  intros Hl Hpre _ Hk Hd.
  assert (S : forall e, step st line = Raise e ->
                        read_LUT_ResolveCube path content = Raise e).
  { intros e He. unfold read_LUT_ResolveCube.
    now rewrite Hl, (scan_raise pre post line _ st e Hpre He). }
  rewrite (step_directive st keyword line) in S
    by (assumption || (destruct Hk as [-> | ->]; discriminate)).
  rewrite <- nth_error_tl.
  destruct (nth_error (tl (tokens_of line)) 0) as [tok|] eqn:E.
  - intros Htok. apply S.
    assert (P : parse_int tok = None).
    { destruct (parse_int tok) as [z|] eqn:P; [|reflexivity].
      apply parse_int_chars in P. congruence. }
    destruct Hk as [-> | ->]; cbn [dispatch String.eqb Ascii.eqb Bool.eqb];
      unfold second, int_; rewrite E; cbn [of_option bind]; now rewrite P.
  - apply S.
    destruct Hk as [-> | ->]; cbn [dispatch String.eqb Ascii.eqb Bool.eqb];
      unfold second; now rewrite E.
Qed.

Lemma read_bad_size_directive_witness :
  read_LUT_ResolveCube "a.cube" ("# c" ++ NL ++ "LUT_3D_SIZE" ++ NL ++ "0 0 0" ++ NL)
    = Raise IndexError /\
  read_LUT_ResolveCube "a.cube" ("# c" ++ NL ++ "LUT_1D_SIZE 4.0" ++ NL ++ "0 0 0" ++ NL)
    = Raise ValueError.
Proof.
  split.
  - exact (read_bad_size_directive "a.cube"
             ("# c" ++ NL ++ "LUT_3D_SIZE" ++ NL ++ "0 0 0" ++ NL)
             "LUT_3D_SIZE" ("LUT_3D_SIZE" ++ NL) ["# c" ++ NL] ["0 0 0" ++ NL]
             (add_comment "c" (init "a.cube"))
             eq_refl eq_refl eq_refl (or_intror eq_refl) eq_refl).
  - exact (read_bad_size_directive "a.cube"
             ("# c" ++ NL ++ "LUT_1D_SIZE 4.0" ++ NL ++ "0 0 0" ++ NL)
             "LUT_1D_SIZE" ("LUT_1D_SIZE 4.0" ++ NL) ["# c" ++ NL] ["0 0 0" ++ NL]
             (add_comment "c" (init "a.cube"))
             eq_refl eq_refl eq_refl (or_introl eq_refl) eq_refl eq_refl).
Defined.

End ReaderLines.

(** ** Data rows that do not parse *)

Section ReaderRows.
Import Py ResolveCube Spec Props.
Local Open Scope string_scope.

Lemma string_forall_app_inv p (a b : string) :
  string_forall p a = true -> string_forall p b = true ->
  string_forall p (a ++ b) = true.
Proof. intros Ha Hb. now rewrite string_forall_app, Ha, Hb. Qed.

Lemma int_char_float_char (c : ascii) : int_char c = true -> float_char c = true.
Proof.
  unfold int_char, float_char. intros H.
  apply orb_prop in H as [H|H]; [|now rewrite H, !orb_true_r].
  apply orb_prop in H as [H|H]; [|now rewrite H, !orb_true_r].
  apply orb_prop in H as [H|H]; [now rewrite H|now rewrite H, !orb_true_r].
Qed.

Lemma isdigit_float_char (c : ascii) : isdigit c = true -> float_char c = true.
Proof. unfold float_char. now intros ->. Qed.

Lemma parse_exponent_chars (s : string) (e : Z) :
  parse_exponent s = Some e -> string_forall float_char s = true.
Proof.
  destruct s as [|c t]; [reflexivity|]. cbn [parse_exponent string_forall].
  destruct (Ascii.eqb c "e" || Ascii.eqb c "E")%bool eqn:E; [|discriminate].
  intros H. apply decimal_int_chars in H.
  rewrite (string_forall_impl _ _ _ int_char_float_char H), andb_true_r.
  apply orb_prop in E as [E|E]; apply Ascii.eqb_eq in E; now subst c.
Qed.

Lemma fraction_absent (c : ascii) (t : string) :
  c <> "."%char ->
  match c with
  | "."%char => span_digits t
  | _ => ("", String c t)
  end = ("", String c t).
Proof.
  intros Hc. destruct c as [[] [] [] [] [] [] [] []]; try reflexivity. now elim Hc.
Qed.

Lemma decimal_float_chars (s : string) (x : Q) :
  decimal_float s = Some x -> string_forall float_char s = true.
Proof.
  unfold decimal_float. intros H.
  destruct (take_sign s) as [neg s1] eqn:T.
  destruct (span_digits s1) as [ip s2] eqn:E1.
  apply span_digits_spec in E1 as [-> Hip].
  assert (D : string_forall float_char (ip ++ s2) = true).
  { apply string_forall_app_inv;
      [exact (string_forall_impl _ _ _ isdigit_float_char Hip)|].
    destruct s2 as [|c t].
    - reflexivity.
    - destruct (Ascii.eqb_spec c ".") as [->|Hc].
      + destruct (span_digits t) as [fp s3] eqn:E2.
        apply span_digits_spec in E2 as [-> Hfp].
        destruct (ip ++ fp); [discriminate|].
        destruct (parse_exponent s3) as [e|] eqn:P; [|discriminate].
        cbn [string_forall]. change (float_char ".") with true. cbn [andb].
        apply string_forall_app_inv;
          [exact (string_forall_impl _ _ _ isdigit_float_char Hfp)|].
        eapply parse_exponent_chars, P.
      + rewrite (fraction_absent c t Hc) in H. cbv beta iota in H.
        destruct (ip ++ ""); [discriminate|].
        destruct (parse_exponent (String c t)) as [e|] eqn:P; [|discriminate].
        eapply parse_exponent_chars, P. }
  destruct (take_sign_spec s) as [E|[c [E Hc]]]; rewrite T in E.
  - injection E as _ <-. exact D.
  - cbn [snd] in E. rewrite E. cbn [string_forall]. rewrite D, andb_true_r.
    destruct Hc as [-> | ->]; reflexivity.
Qed.

(** A float literal holds nothing but the characters of the literals of
    Python. *)
Lemma parse_float_chars (s : string) (x : Q) :
  parse_float s = Some x -> string_forall float_char s = true.
Proof.
  unfold parse_float. destruct (ungroup s) as [t|] eqn:U; [|discriminate].
  intros H. apply decimal_float_chars in H.
  exact (ungroup_from_chars float_char s t _ eq_refl U H).
Qed.

Lemma parse_array_raise (tokens : list string) (e : exn) :
  _parse_array tokens = Raise e -> e = ValueError.
Proof.
  unfold _parse_array. induction tokens as [|t ts IH]; [discriminate|].
  cbn [mapM]. unfold float at 1.
  destruct (parse_float t); cbn [of_option bind]; [|now intros [= <-]].
  destruct (mapM float ts); cbn [bind]; [discriminate|].
  intros [= <-]. now apply IH.
Qed.

Lemma parse_array_alien (tokens : list string) :
  Exists (fun tok => string_forall float_char tok = false) tokens ->
  _parse_array tokens = Raise ValueError.
Proof.
  intros H. destruct (_parse_array tokens) as [row|e] eqn:E.
  - exfalso. unfold _parse_array in E. apply mapM_Ok_inv in E.
    induction E as [|t x ts row Ht _ IH]; [inversion H|].
    inversion H as [? ? Hs|? ? Hs]; subst; [|now apply IH].
    unfold float in Ht. destruct (parse_float t) as [q|] eqn:P; [|discriminate].
    apply parse_float_chars in P. congruence.
  - f_equal. eapply parse_array_raise, E.
Qed.

Lemma first_char_lstrip (s : string) : first_char isspace (lstrip s) = false.
Proof.
  induction s as [|c s IH]; [reflexivity|]. cbn [lstrip].
  destruct (isspace c) eqn:E; [exact IH|exact E].
Qed.

(** A line that is not blank has a first word. *)
Lemma split_strip_nonempty (line : string) :
  split (strip line) = [] -> strip line = "".
Proof.
  pose proof (first_char_lstrip (strip line)) as F. rewrite lstrip_strip in F.
  destruct (strip line) as [|c r]; [reflexivity|]. cbn [first_char] in F.
  cbn [split]. rewrite F. destruct r as [|a r]; [discriminate|].
  destruct (isspace a); [discriminate|]. destruct (split (String a r)); discriminate.
Qed.

Lemma step_data_line (st : locals) (line : string) :
  is_data line = true ->
  step st line =
  bind (_parse_array (tokens_of line)) (fun row => Ok (add_rows [row] st)).
Proof.
  unfold is_data, is_blank, is_comment, head_token, tokens_of, step.
  intros H. apply andb_prop in H as [H Hk]. apply andb_prop in H as [Hb Hc].
  apply negb_true_iff in Hb, Hc, Hk. rewrite Hb, Hc.
  destruct (split (strip line)) as [|t0 args] eqn:E.
  - apply split_strip_nonempty in E. rewrite E in Hb. discriminate.
  - cbn [hd existsb keywords] in Hk.
    apply orb_false_iff in Hk as [K1 Hk]. apply orb_false_iff in Hk as [K2 Hk].
    apply orb_false_iff in Hk as [K3 Hk]. apply orb_false_iff in Hk as [K4 Hk].
    apply orb_false_iff in Hk as [K5 _].
    unfold dispatch. now rewrite K1, K2, K3, K4, K5.
Qed.

(** X4.  After lines that parse, with range directives of two values, a data
    row with a word that holds a character foreign to the float literals
    of Python, such as a comma, stops the reader with [ValueError],
    whatever follows in the file. *)
Theorem read_bad_data_row
    (path content line : string) (pre post : list string) (st : locals) :
  readlines content = (pre ++ line :: post)%list ->
  scan (init path) pre = Ok st ->
  range_pairs pre = true ->
  is_data line = true ->
  Exists (fun tok => string_forall float_char tok = false) (tokens_of line) ->
  read_LUT_ResolveCube path content = Raise ValueError.
Proof.
  intros Hl Hpre _ Hd Htok. unfold read_LUT_ResolveCube. rewrite Hl.
  rewrite (scan_raise pre post line _ st ValueError Hpre); [reflexivity|].
  rewrite (step_data_line _ _ Hd). now rewrite (parse_array_alien _ Htok).
Qed.

Lemma read_bad_data_row_witness :
  read_LUT_ResolveCube "a.cube"
    ("LUT_1D_SIZE 2" ++ NL ++ "0.0, 0.0, 0.0" ++ NL ++ "1.0 1.0 1.0" ++ NL)
  = Raise ValueError.
Proof.
  apply (read_bad_data_row "a.cube" _ ("0.0, 0.0, 0.0" ++ NL)
           ["LUT_1D_SIZE 2" ++ NL] ["1.0 1.0 1.0" ++ NL]
           (set_size2D 2 (init "a.cube"))).
  - reflexivity.
  - reflexivity.
  - reflexivity.
  - reflexivity.
  - left. reflexivity.
Defined.

End ReaderRows.

(** ** The reader on whole files *)

Section ReaderFiles.
Import Py ResolveCube Spec Props.
Local Open Scope string_scope.

Lemma declared_domain_cons (keyword line : string) (lines : list string)
    (acc : Np.ndarray2) :
  declared_domain keyword (line :: lines) acc =
  declared_domain keyword lines (declared_domain keyword [line] acc).
Proof. reflexivity. Qed.

(** The effect of one line on the domains of the two stages. *)
Lemma step_domains (st st' : locals) (line : string) :
  step st line = Ok st' ->
  LUT2D.domain (LUT0 st') =
    declared_domain "LUT_1D_INPUT_RANGE" [line] (LUT2D.domain (LUT0 st)) /\
  LUT3D.domain (LUT1 st') =
    declared_domain "LUT_3D_INPUT_RANGE" [line] (LUT3D.domain (LUT1 st)).
Proof.
  unfold step. cbn [declared_domain].
  unfold is_directive, head_token, tokens_of, is_blank, is_comment.
  destruct (String.length (strip line) =? 0)%nat eqn:B.
  { intros H. injection H as <-. now split. }
  destruct (startswith "#" (strip line)) eqn:C.
  { intros H. injection H as <-. now split. }
  cbn [negb andb].
  destruct (split (strip line)) as [|t0 args] eqn:S; [discriminate|].
  unfold dispatch. cbn [hd tl].
  destruct (t0 =? "TITLE") eqn:E1.
  { apply String.eqb_eq in E1. subst t0. intros H. injection H as <-. now split. }
  destruct (t0 =? "LUT_1D_INPUT_RANGE") eqn:E2.
  { apply String.eqb_eq in E2. subst t0. intros H.
    apply bind_Ok_inv in H as [dom [Hd H]]. injection H as <-.
    rewrite Hd. now split. }
  destruct (t0 =? "LUT_3D_INPUT_RANGE") eqn:E3.
  { apply String.eqb_eq in E3. subst t0. intros H.
    apply bind_Ok_inv in H as [dom [Hd H]]. injection H as <-.
    rewrite Hd. now split. }
  destruct (t0 =? "LUT_1D_SIZE") eqn:E4.
  { intros H. apply bind_Ok_inv in H as [tok [_ H]].
    apply bind_Ok_inv in H as [n [_ H]]. injection H as <-. now split. }
  destruct (t0 =? "LUT_3D_SIZE") eqn:E5.
  { intros H. apply bind_Ok_inv in H as [tok [_ H]].
    apply bind_Ok_inv in H as [n [_ H]]. injection H as <-. now split. }
  intros H. apply bind_Ok_inv in H as [row [_ H]]. injection H as <-. now split.
Qed.

(** The domains of the two stages after the loop. *)
Lemma scan_domains (lines : list string) (st st' : locals) :
  scan st lines = Ok st' ->
  LUT2D.domain (LUT0 st') =
    declared_domain "LUT_1D_INPUT_RANGE" lines (LUT2D.domain (LUT0 st)) /\
  LUT3D.domain (LUT1 st') =
    declared_domain "LUT_3D_INPUT_RANGE" lines (LUT3D.domain (LUT1 st)).
Proof.
  revert st. induction lines as [|line lines IH]; intros st H.
  - injection H as <-. now split.
  - rewrite scan_cons in H. apply bind_Ok_inv in H as [st1 [H1 H2]].
    apply step_domains in H1 as [D1 D3]. apply IH in H2 as [E1 E3].
    rewrite (declared_domain_cons "LUT_1D_INPUT_RANGE"),
      (declared_domain_cons "LUT_3D_INPUT_RANGE").
    now rewrite <- D1, <- D3.
Qed.

Lemma asarray_shape2 (m k : nat) (rows : list (list Q)) :
  shape2 m k rows -> Np.asarray rows = Ok rows.
Proof.
  intros [L F]. unfold Np.asarray.
  replace (forallb _ rows) with true; [reflexivity|]. symmetry.
  apply forallb_forall. intros r Hr. apply Nat.eqb_eq.
  rewrite Forall_forall in F. rewrite (F r Hr).
  destruct rows as [|r0 rows]; [contradiction|]. cbn [hd].
  symmetry. apply F. now left.
Qed.

(** X5.  A file with a [LUT_3D_SIZE s] directive and no [LUT_1D_SIZE] directive,
    whose lines parse and whose data rows are [s^3] triples, is read as a
    cube: the cell [(r, g, b)] is the data row [r + s g + s^2 b] (red
    fastest, blue slowest); the name is the title of the last [TITLE] line,
    or else the one made from the path; the comments are those of the file
    in file order; the domain is the one of the last [LUT_3D_INPUT_RANGE]
    line, or else the default one. *)
Theorem read_cube_file
    (path content : string) (st : locals) (s : nat) (rows : list (list Q)) :
  scan (init path) (readlines content) = Ok st ->
  existsb (is_directive "LUT_1D_SIZE") (readlines content) = false ->
  existsb (is_directive "LUT_3D_SIZE") (readlines content) = true ->
  declared_size "LUT_3D_SIZE" (readlines content) 2 = Z.of_nat s ->
  mapM _parse_array (data_tokens (readlines content)) = Ok rows ->
  Forall is_triple rows ->
  List.length rows = (s * s * s)%nat ->
  exists cube,
    read_LUT_ResolveCube path content = Ok (Lut (L3D cube)) /\
    shape4 s s s 3 (LUT3D.table cube) /\
    (forall r g b, (r < s)%nat -> (g < s)%nat -> (b < s)%nat ->
       cell (LUT3D.table cube) r g b = nth (r + s * (g + s * b)) rows []) /\
    LUT3D.name cube = declared_title (readlines content) (default_title path) /\
    LUT3D.comments cube = comment_texts (readlines content) /\
    LUT3D.domain cube =
      declared_domain "LUT_3D_INPUT_RANGE" (readlines content) default_domain.
Proof.
  intros Hscan H1 H3 Hs Hrows Ht Hlen.
  pose proof (scan_effect _ _ _ Hscan)
    as (C & (rows' & R & T) & A & B & _ & S3 & L & _).
  pose proof (scan_domains _ _ _ Hscan) as [_ D3].
  rewrite Hrows in R. injection R as <-. cbn in C, T, A, B, S3, L, D3.
  rewrite H1 in A. rewrite H3 in B. rewrite Hs in S3.
  assert (Hsh : shape2 (s * s * s) 3 rows) by now split.
  unfold read_LUT_ResolveCube. rewrite Hscan. cbn [bind]. unfold classify.
  rewrite T, asarray_triples by assumption. cbn [bind].
  rewrite A, B, S3. cbn [andb].
  unfold Np.reshape_cube.
  replace (Z.of_nat s <? 0)%Z with false by (symmetry; apply Z.ltb_ge; lia).
  rewrite (length_ravelF2 _ _ _ Hsh).
  replace (Z.of_nat (s * s * s * 3) =? Z.of_nat s * Z.of_nat s * Z.of_nat s * 3)%Z
    with true by (symmetry; apply Z.eqb_eq; lia).
  cbv zeta. rewrite Nat2Z.id. cbn [bind].
  eexists. split; [reflexivity|].
  unfold LUT3D.set_table, LUT3D.set_comments, LUT3D.set_name.
  cbn [LUT3D.table LUT3D.name LUT3D.comments LUT3D.domain].
  split; [apply shape4_unravelF4|]. split.
  { intros r g b Hr Hg Hb. now apply cell_unravelF4. }
  now rewrite L, C, D3.
Qed.

Lemma read_cube_file_witness :
  exists cube,
    read_LUT_ResolveCube "luts/Two_Cube.cube"
      ("# first" ++ NL ++ "LUT_3D_SIZE 2" ++ NL ++
       "LUT_3D_INPUT_RANGE 0.0 2.0" ++ NL ++
       "0 0 0" ++ NL ++ "1 0 0" ++ NL ++ "0 1 0" ++ NL ++ "1 1 0" ++ NL ++
       "0 0 1" ++ NL ++ "1 0 1" ++ NL ++ "0 1 1" ++ NL ++ "1 1 1" ++ NL ++
       "# last" ++ NL) = Ok (Lut (L3D cube)) /\
    shape4 2 2 2 3 (LUT3D.table cube) /\
    cell (LUT3D.table cube) 1 0 1 = [1; 0; 1] /\
    LUT3D.name cube = "Two Cube" /\
    LUT3D.comments cube = ["first"; "last"] /\
    LUT3D.domain cube = [[0.0; 0.0; 0.0]; [2.0; 2.0; 2.0]].
Proof.
  destruct (read_cube_file "luts/Two_Cube.cube"
      ("# first" ++ NL ++ "LUT_3D_SIZE 2" ++ NL ++
       "LUT_3D_INPUT_RANGE 0.0 2.0" ++ NL ++
       "0 0 0" ++ NL ++ "1 0 0" ++ NL ++ "0 1 0" ++ NL ++ "1 1 0" ++ NL ++
       "0 0 1" ++ NL ++ "1 0 1" ++ NL ++ "0 1 1" ++ NL ++ "1 1 1" ++ NL ++
       "# last" ++ NL)
      {| title := "Two Cube"; size2D := 2; size3D := 2;
         table := [[0; 0; 0]; [1; 0; 0]; [0; 1; 0]; [1; 1; 0];
                   [0; 0; 1]; [1; 0; 1]; [0; 1; 1]; [1; 1; 1]];
         comments := ["first"; "last"]; has_2D := false; has_3D := true;
         LUT0 := LUT2D_default;
         LUT1 := LUT3D.make "" [] [[0.0; 0.0; 0.0]; [2.0; 2.0; 2.0]] [] |}
      2%nat
      [[0; 0; 0]; [1; 0; 0]; [0; 1; 0]; [1; 1; 0];
       [0; 0; 1]; [1; 0; 1]; [0; 1; 1]; [1; 1; 1]])
    as (cube & R & Sh & Cell & N & Cm & D).
  - vm_compute. reflexivity.
  - vm_compute. reflexivity.
  - vm_compute. reflexivity.
  - vm_compute. reflexivity.
  - vm_compute. reflexivity.
  - repeat constructor.
  - reflexivity.
  - exists cube. split; [exact R|]. split; [exact Sh|].
    split; [exact (Cell 1%nat 0%nat 1%nat ltac:(lia) ltac:(lia) ltac:(lia))|].
    split; [exact N|]. split; [exact Cm|exact D].
Defined.

(** X6.  A file with a [LUT_1D_SIZE] directive and no [LUT_3D_SIZE] directive,
    whose lines parse, whose range directives carry two values and which
    has data rows, all triples, is read as a shaper: the table holds all
    the data rows in file order, whatever the declared size; the name is
    the title of the last [TITLE] line, or else the one made from the path;
    the comments are those of the file; the domain is the one of the last
    [LUT_1D_INPUT_RANGE] line, or else the default one, and a
    [LUT_3D_INPUT_RANGE] line has no effect. *)
Theorem read_shaper_file
    (path content : string) (st : locals) (m : nat) (rows : list (list Q)) :
  scan (init path) (readlines content) = Ok st ->
  range_pairs (readlines content) = true ->
  existsb (is_directive "LUT_1D_SIZE") (readlines content) = true ->
  existsb (is_directive "LUT_3D_SIZE") (readlines content) = false ->
  mapM _parse_array (data_tokens (readlines content)) = Ok rows ->
  shape2 m 3 rows -> (0 < m)%nat ->
  read_LUT_ResolveCube path content =
  Ok (Lut (L2D (LUT2D.make
                  (declared_title (readlines content) (default_title path))
                  rows
                  (declared_domain "LUT_1D_INPUT_RANGE" (readlines content)
                     default_domain)
                  (comment_texts (readlines content))))).
Proof.
  intros Hscan _ H1 H3 Hrows Hsh _.
  pose proof (scan_effect _ _ _ Hscan)
    as (C & (rows' & R & T) & A & B & _ & _ & L & _).
  pose proof (scan_domains _ _ _ Hscan) as [D1 _].
  rewrite Hrows in R. injection R as <-. cbn in C, T, A, B, L, D1.
  rewrite H1 in A. rewrite H3 in B.
  unfold read_LUT_ResolveCube. rewrite Hscan. cbn [bind]. unfold classify.
  rewrite T, (asarray_shape2 _ _ _ Hsh). cbn [bind].
  rewrite A, B. cbn [andb].
  unfold LUT2D.set_table, LUT2D.set_comments, LUT2D.set_name.
  cbn [LUT2D.table LUT2D.name LUT2D.comments LUT2D.domain].
  now rewrite L, C, D1.
Qed.

Lemma read_shaper_file_witness :
  read_LUT_ResolveCube "luts/ramp-up.cube"
    ("LUT_1D_SIZE 16" ++ NL ++ "LUT_3D_INPUT_RANGE 0.0 9.0" ++ NL ++
     "# c" ++ NL ++ "0 0 0" ++ NL ++ "1 1 1" ++ NL) =
  Ok (Lut (L2D (LUT2D.make "ramp up" [[0; 0; 0]; [1; 1; 1]] default_domain ["c"]))).
Proof.
  exact (read_shaper_file "luts/ramp-up.cube"
    ("LUT_1D_SIZE 16" ++ NL ++ "LUT_3D_INPUT_RANGE 0.0 9.0" ++ NL ++
     "# c" ++ NL ++ "0 0 0" ++ NL ++ "1 1 1" ++ NL)
    {| title := "ramp up"; size2D := 16; size3D := 2;
       table := [[0; 0; 0]; [1; 1; 1]];
       comments := ["c"]; has_2D := true; has_3D := false;
       LUT0 := LUT2D_default;
       LUT1 := LUT3D.make "" [] [[0.0; 0.0; 0.0]; [9.0; 9.0; 9.0]] [] |}
    2%nat [[0; 0; 0]; [1; 1; 1]]
    eq_refl eq_refl eq_refl eq_refl eq_refl
    (conj eq_refl
       (Forall_cons [0; 0; 0] eq_refl
          (Forall_cons [1; 1; 1] eq_refl (Forall_nil _))))
    (Nat.lt_0_succ 1)).
Defined.

(** X7.  A file without any size directive, whose lines parse and whose data
    rows have one length, makes the reader return [None]: no exception is
    raised and no LUT is built. *)
Theorem read_file_without_size
    (path content : string) (st : locals) (m k : nat) :
  scan (init path) (readlines content) = Ok st ->
  existsb (is_directive "LUT_1D_SIZE") (readlines content) = false ->
  existsb (is_directive "LUT_3D_SIZE") (readlines content) = false ->
  shape2 m k (table st) ->
  read_LUT_ResolveCube path content = Ok None_.
Proof.
  intros Hscan H1 H3 Hsh.
  pose proof (scan_effect _ _ _ Hscan) as (_ & _ & A & B & _).
  cbn in A, B. rewrite H1 in A. rewrite H3 in B.
  unfold read_LUT_ResolveCube. rewrite Hscan. cbn [bind]. unfold classify.
  rewrite (asarray_shape2 _ _ _ Hsh). cbn [bind]. now rewrite A, B.
Qed.

Lemma read_file_without_size_witness :
  read_LUT_ResolveCube "rows.cube"
    ("TITLE x" ++ NL ++ "0 0 0" ++ NL ++ "1 1 1" ++ NL) = Ok None_.
Proof.
  exact (read_file_without_size "rows.cube"
    ("TITLE x" ++ NL ++ "0 0 0" ++ NL ++ "1 1 1" ++ NL)
    {| title := ""; size2D := 2; size3D := 2;
       table := [[0; 0; 0]; [1; 1; 1]];
       comments := []; has_2D := false; has_3D := false;
       LUT0 := LUT2D_default; LUT1 := LUT3D_default |}
    2%nat 3%nat eq_refl eq_refl eq_refl
    (conj eq_refl
       (Forall_cons [0; 0; 0] eq_refl
          (Forall_cons [1; 1; 1] eq_refl (Forall_nil _))))).
Defined.

(** X8.  The reader checks a cube file by its number of scalars only: when the
    lines parse and the range directives carry two values, with a
    [LUT_3D_SIZE] directive alone, a declared size [s >= 0] and [m] data
    rows of [k] scalars each, the call returns a cube when
    [m k = 3 s^3] and raises [ValueError] otherwise, whether or not the
    rows are triples. *)
Theorem read_cube_file_scalar_count
    (path content : string) (st : locals) (m k : nat) :
  scan (init path) (readlines content) = Ok st ->
  range_pairs (readlines content) = true ->
  has_2D st = false -> has_3D st = true ->
  shape2 m k (table st) ->
  (0 <= size3D st)%Z ->
  (Z.of_nat (m * k) = 3 * size3D st ^ 3 ->
     exists cube, read_LUT_ResolveCube path content = Ok (Lut (L3D cube)))%Z /\
  (Z.of_nat (m * k) <> 3 * size3D st ^ 3 ->
     read_LUT_ResolveCube path content = Raise ValueError)%Z.
Proof.
  intros Hscan _ A B Hsh Hs.
  unfold read_LUT_ResolveCube. rewrite Hscan. cbn [bind]. unfold classify.
  rewrite (asarray_shape2 _ _ _ Hsh). cbn [bind]. rewrite A, B. cbn [andb].
  unfold Np.reshape_cube.
  replace (size3D st <? 0)%Z with false by (symmetry; apply Z.ltb_ge; lia).
  rewrite (length_ravelF2 _ _ _ Hsh). rewrite pow3. split; intros H.
  - replace (_ =? _)%Z with true by (symmetry; apply Z.eqb_eq; lia).
    cbn [bind]. eexists. reflexivity.
  - replace (_ =? _)%Z with false by (symmetry; apply Z.eqb_neq; lia).
    reflexivity.
Qed.

Lemma read_cube_file_scalar_count_witness :
  (exists cube,
     read_LUT_ResolveCube "wide.cube"
       ("LUT_3D_SIZE 1" ++ NL ++ "0" ++ NL ++ "1" ++ NL ++ "2" ++ NL)
     = Ok (Lut (L3D cube))) /\
  read_LUT_ResolveCube "wide.cube"
    ("LUT_3D_SIZE 1" ++ NL ++ "0 1 2 3" ++ NL) = Raise ValueError.
Proof.
  split.
  - destruct (read_cube_file_scalar_count "wide.cube"
       ("LUT_3D_SIZE 1" ++ NL ++ "0" ++ NL ++ "1" ++ NL ++ "2" ++ NL)
       {| title := "wide"; size2D := 2; size3D := 1;
          table := [[0]; [1]; [2]];
          comments := []; has_2D := false; has_3D := true;
          LUT0 := LUT2D_default; LUT1 := LUT3D_default |}
       3%nat 1%nat) as [P _].
    + vm_compute. reflexivity.
    + vm_compute. reflexivity.
    + reflexivity.
    + reflexivity.
    + split; [reflexivity|]. repeat constructor.
    + cbn. lia.
    + apply P. reflexivity.
  - destruct (read_cube_file_scalar_count "wide.cube"
       ("LUT_3D_SIZE 1" ++ NL ++ "0 1 2 3" ++ NL)
       {| title := "wide"; size2D := 2; size3D := 1;
          table := [[0; 1; 2; 3]];
          comments := []; has_2D := false; has_3D := true;
          LUT0 := LUT2D_default; LUT1 := LUT3D_default |}
       1%nat 4%nat) as [_ N].
    + vm_compute. reflexivity.
    + vm_compute. reflexivity.
    + reflexivity.
    + reflexivity.
    + split; [reflexivity|]. repeat constructor.
    + cbn. lia.
    + apply N. cbn. lia.
Defined.

(** *** The domains that the reader builds *)

Lemma channels_equal_tstack3 (a : Np.ndarray1) : channels_equal (Np.tstack3 a).
Proof.
  unfold channels_equal, Np.tstack3. apply Forall_forall. intros row Hrow.
  apply in_map_iff in Hrow as [x [<- _]]. now exists x.
Qed.

Lemma channels_equal_default : channels_equal default_domain.
Proof. repeat constructor; eexists; reflexivity. Qed.

Lemma channels_equal_declared (keyword : string) (lines : list string)
    (acc : Np.ndarray2) :
  channels_equal acc -> channels_equal (declared_domain keyword lines acc).
Proof.
  revert acc. induction lines as [|l lines IH]; intros acc H; [exact H|].
  cbn [declared_domain]. apply IH.
  destruct (is_directive keyword l); [|exact H].
  destruct (_parse_array (tl (tokens_of l))); [apply channels_equal_tstack3|exact H].
Qed.

Lemma classify_domains (st : locals) (o : object) :
  classify st = Ok o ->
  Forall (fun dom => dom = LUT2D.domain (LUT0 st) \/ dom = LUT3D.domain (LUT1 st))
         (domains_of o).
Proof.
  unfold classify. intros H. apply bind_Ok_inv in H as [t [_ H]].
  destruct (has_2D st && has_3D st).
  - apply bind_Ok_inv in H as [cube [_ H]]. injection H as <-.
    cbn. constructor; [now left|]. constructor; [now right|constructor].
  - destruct (has_2D st).
    + injection H as <-. cbn. constructor; [now left|constructor].
    + destruct (has_3D st).
      * apply bind_Ok_inv in H as [cube [_ H]]. injection H as <-.
        cbn. constructor; [now right|constructor].
      * injection H as <-. constructor.
Qed.

(** X9.  Whatever the file, the domain of every LUT that the reader returns
    repeats one scalar on its three channels in each row: a range line
    gives one pair of bounds to the three channels, and per-channel bounds
    are never produced. *)
Theorem read_domains_channels_equal (path content : string) (o : object) :
  read_LUT_ResolveCube path content = Ok o ->
  Forall channels_equal (domains_of o).
Proof.
  unfold read_LUT_ResolveCube. intros H.
  apply bind_Ok_inv in H as [st [Hscan Hc]].
  apply scan_domains in Hscan as [D1 D3]. cbn in D1, D3.
  apply classify_domains in Hc. eapply Forall_impl; [|exact Hc].
  intros dom [-> | ->]; [rewrite D1|rewrite D3];
    apply channels_equal_declared, channels_equal_default.
Qed.

Lemma read_domains_channels_equal_witness :
  Forall channels_equal
    (domains_of (Lut (L2D (LUT2D.make "x" [[0; 0; 0]; [1; 1; 1]]
                                      [[0.0; 0.0; 0.0]; [2.5; 2.5; 2.5]] [])))).
Proof.
  apply (read_domains_channels_equal "x.cube"
           ("LUT_1D_SIZE 2" ++ NL ++ "LUT_1D_INPUT_RANGE 0.0 2.5" ++ NL ++
            "0 0 0" ++ NL ++ "1 1 1" ++ NL)).
  vm_compute. reflexivity.
Defined.

End ReaderFiles.

(** ** Titles *)

Section Titles.
Import Py ResolveCube Spec Props.
Local Open Scope string_scope.

(** *** The title made from the path *)

Lemma mem_char_app (c : ascii) (a b : string) :
  mem_char c (a ++ b) = mem_char c a || mem_char c b.
Proof.
  induction a as [|x a IH]; [reflexivity|]. cbn. now rewrite IH, orb_assoc.
Qed.

Lemma basename_id (f : string) : mem_char "/" f = false -> basename f = f.
Proof. destruct f as [|c f]; [reflexivity|]. cbn [basename]. now intros ->. Qed.

Lemma basename_app (d f : string) :
  mem_char "/" f = false -> basename (d ++ "/" ++ f) = f.
Proof.
  intros Hf. induction d as [|c d IH].
  - cbn. now apply basename_id.
  - change ((String c d) ++ "/" ++ f) with (String c (d ++ "/" ++ f)).
    cbn [basename].
    replace (mem_char "/" (String c (d ++ "/" ++ f))) with true; [exact IH|].
    cbn [mem_char]. rewrite mem_char_app. cbn. now rewrite !orb_true_r.
Qed.

Lemma before_last_app (c : ascii) (stem ext : string) :
  mem_char c ext = false ->
  before_last c (stem ++ String c ext) = stem.
Proof.
  intros He. induction stem as [|x stem IH].
  - cbn. now rewrite He.
  - change ((String x stem) ++ String c ext) with (String x (stem ++ String c ext)).
    cbn [before_last]. rewrite mem_char_app. cbn [mem_char].
    rewrite Ascii.eqb_refl, orb_true_r. cbn. now rewrite IH.
Qed.

Lemma splitext_root_app (stem ext : string) :
  all_char "." stem = false -> mem_char "." ext = false ->
  splitext_root (stem ++ "." ++ ext) = stem.
Proof.
  intros Hs He. unfold splitext_root.
  change (stem ++ "." ++ ext) with (stem ++ String "." ext).
  rewrite mem_char_app. cbn [mem_char]. rewrite Ascii.eqb_refl, orb_true_r.
  cbn [orb]. rewrite before_last_app by assumption. now rewrite Hs.
Qed.

(** X10.  The title of a file without a [TITLE] line comes from its path: the
    directories and the extension are dropped, and each underscore, hyphen
    and dot of what is left becomes a space. *)
Theorem default_title_of_path (dir stem ext : string) :
  dir = "" \/ (exists d, dir = d ++ "/") ->
  mem_char "/" stem = false -> all_char "." stem = false ->
  mem_char "/" ext = false -> mem_char "." ext = false ->
  default_title (dir ++ stem ++ "." ++ ext) =
  replace_char "." " " (replace_char "-" " " (replace_char "_" " " stem)).
Proof.
  intros Hd Hs1 Hs2 He1 He2. unfold default_title.
  assert (Hf : mem_char "/" (stem ++ "." ++ ext) = false).
  { rewrite !mem_char_app. rewrite Hs1, He1. reflexivity. }
  assert (B : basename (dir ++ stem ++ "." ++ ext) = stem ++ "." ++ ext).
  { destruct Hd as [-> | [d ->]].
    - now apply basename_id.
    - rewrite append_assoc. now apply basename_app. }
  now rewrite B, splitext_root_app.
Qed.

Lemma default_title_of_path_witness :
  default_title ("/data/luts/" ++ "ACES_Proxy-10.v2" ++ "." ++ "cube") =
  "ACES Proxy 10 v2".
Proof.
  rewrite (default_title_of_path "/data/luts/" "ACES_Proxy-10.v2" "cube").
  - reflexivity.
  - right. now exists "/data/luts".
  - reflexivity.
  - reflexivity.
  - reflexivity.
  - reflexivity.
Defined.

(** *** The title of a [TITLE] line *)

Lemma join_cons_char (c : ascii) (t : string) (ts : list string) :
  join " " (String c t :: ts) = String c (join " " (t :: ts)).
Proof. destruct ts; reflexivity. Qed.

Lemma join_cons_cons (t u : string) (ts : list string) :
  join " " (t :: u :: ts) = t ++ " " ++ join " " (u :: ts).
Proof. reflexivity. Qed.

Lemma split_nonspace (c : ascii) (s : string) :
  isspace c = false ->
  split (String c s) =
  match s with
  | EmptyString => [String c EmptyString]
  | String c' _ =>
      if isspace c' then String c EmptyString :: split s
      else match split s with
           | t :: ts => String c t :: ts
           | [] => [String c EmptyString]
           end
  end.
Proof. intros H. cbn [split]. now rewrite H. Qed.

(** Splitting into words and joining them with single spaces gives the
    text back when its whitespace is single spaces. *)
Lemma join_split_spaced (s : string) :
  spaced s = true -> ends_nonspace s = true ->
  join " " (split s) = if first_char isspace s then drop_first s else s.
Proof.
  induction s as [|c s IH]; [discriminate|].
  intros Hsp He. cbn [spaced] in Hsp. apply andb_prop in Hsp as [Hc Hsp].
  cbn [first_char drop_first]. destruct (isspace c) eqn:Sc.
  - cbn [negb orb] in Hc. apply andb_prop in Hc as [_ Hf].
    apply negb_true_iff in Hf.
    rewrite (split_cons_space _ _ Sc).
    destruct s as [|c' s]; [cbn in He; now rewrite Sc in He|].
    cbn [ends_nonspace] in He. rewrite (IH Hsp He). now rewrite Hf.
  - rewrite (split_nonspace _ _ Sc).
    destruct s as [|c' s]; [reflexivity|].
    cbn [ends_nonspace] in He. specialize (IH Hsp He).
    cbn [first_char drop_first] in IH.
    destruct (isspace c') eqn:Sc'.
    + cbn [spaced] in Hsp. apply andb_prop in Hsp as [Hc' _].
      rewrite Sc' in Hc'. cbn [negb orb] in Hc'.
      apply andb_prop in Hc' as [Hc' _]. apply Ascii.eqb_eq in Hc'. subst c'.
      destruct (split (String " " s)) as [|t ts].
      * cbn in IH. subst s. cbn in He. discriminate.
      * rewrite join_cons_cons, IH. reflexivity.
    + destruct (split (String c' s)) as [|t ts]; [discriminate|].
      now rewrite join_cons_char, IH.
Qed.

Lemma spaced_app_char (s : string) (q : ascii) :
  isspace q = false -> spaced s = true -> spaced (s ++ String q "") = true.
Proof.
  intros Hq. induction s as [|c s IH]; intros H.
  - cbn. now rewrite Hq.
  - cbn [spaced] in H. apply andb_prop in H as [Hc Hs].
    change ((String c s) ++ String q "") with (String c (s ++ String q "")).
    cbn [spaced]. rewrite (IH Hs), andb_true_r.
    destruct s as [|c' s]; [|exact Hc].
    cbn [append first_char]. rewrite Hq. cbn [negb].
    destruct (isspace c); [|reflexivity]. cbn [negb orb] in *.
    now rewrite andb_true_r in *.
Qed.

Lemma spaced_app_char_inv (s : string) (q : ascii) :
  isspace q = false -> spaced (s ++ String q "") = true -> spaced s = true.
Proof.
  intros Hq. induction s as [|c s IH]; intros H; [reflexivity|].
  change ((String c s) ++ String q "") with (String c (s ++ String q "")) in H.
  cbn [spaced] in H. apply andb_prop in H as [Hc Hs].
  cbn [spaced]. rewrite (IH Hs), andb_true_r.
  destruct s as [|c' s]; [|exact Hc].
  cbn [first_char negb]. destruct (isspace c); [|reflexivity].
  cbn [negb orb] in *. apply andb_prop in Hc as [Hc _]. now rewrite Hc.
Qed.

Lemma ends_nonspace_app_char (s : string) (q : ascii) :
  isspace q = false -> ends_nonspace (s ++ String q "") = true.
Proof.
  intros Hq. induction s as [|c s IH]; [cbn; now rewrite Hq|].
  change ((String c s) ++ String q "") with (String c (s ++ String q "")).
  cbn [ends_nonspace]. destruct (s ++ String q "") eqn:E; [|exact IH].
  destruct s; discriminate.
Qed.

Lemma drop_last_app_char (s : string) (q : ascii) :
  drop_last (s ++ String q "") = s.
Proof.
  induction s as [|c s IH]; [reflexivity|].
  change ((String c s) ++ String q "") with (String c (s ++ String q "")).
  cbn [drop_last]. destruct (s ++ String q "") eqn:E.
  - destruct s; discriminate.
  - now rewrite IH.
Qed.

Lemma quoted (name : string) :
  quote ++ name ++ quote = String (ascii_of_nat 34) (name ++ String (ascii_of_nat 34) "").
Proof. reflexivity. Qed.

(** The first character of the joined words is no whitespace. *)
Lemma join_split_first (s : string) :
  first_char isspace (join " " (split s)) = false.
Proof.
  induction s as [|c s IH]; [reflexivity|].
  destruct (isspace c) eqn:Sc; [now rewrite (split_cons_space _ _ Sc)|].
  rewrite (split_nonspace _ _ Sc).
  destruct s as [|c' s]; [cbn; exact Sc|].
  destruct (isspace c').
  - destruct (split (String c' s)); cbn; exact Sc.
  - destruct (split (String c' s)); [cbn; exact Sc|].
    rewrite join_cons_char. exact Sc.
Qed.

(** The joined words have single spaces only. *)
Lemma spaced_join_split (s : string) : spaced (join " " (split s)) = true.
Proof.
  induction s as [|c s IH]; [reflexivity|].
  destruct (isspace c) eqn:Sc; [now rewrite (split_cons_space _ _ Sc)|].
  rewrite (split_nonspace _ _ Sc).
  destruct s as [|c' s]; [cbn; now rewrite Sc|].
  destruct (isspace c').
  - pose proof (join_split_first (String c' s)) as F.
    destruct (split (String c' s)) as [|t ts]; [cbn; now rewrite Sc|].
    rewrite join_cons_cons.
    change (String c "" ++ " " ++ join " " (t :: ts))
      with (String c (String " " (join " " (t :: ts)))).
    cbn [spaced]. rewrite Sc, F, IH. reflexivity.
  - destruct (split (String c' s)) as [|t ts]; [cbn; now rewrite Sc|].
    rewrite join_cons_char. cbn [spaced]. now rewrite Sc, IH.
Qed.

(** The joined words of a text that ends with the character [q], which is
    no whitespace, end with [q]. *)
Lemma join_split_last (r : string) (q : ascii) :
  isspace q = false ->
  exists m, join " " (split (r ++ String q "")) = m ++ String q "".
Proof.
  intros Hq. induction r as [|c r [m IH]].
  - exists "". cbn. now rewrite Hq.
  - change ((String c r) ++ String q "") with (String c (r ++ String q "")).
    destruct (isspace c) eqn:Sc.
    + rewrite (split_cons_space _ _ Sc). now exists m.
    + rewrite (split_nonspace _ _ Sc).
      destruct (r ++ String q "") as [|c' s] eqn:E; [destruct r; discriminate|].
      destruct (split (String c' s)) as [|t ts].
      * cbn in IH. destruct m; discriminate.
      * destruct (isspace c').
        -- exists (String c (String " " m)). rewrite join_cons_cons, IH.
           reflexivity.
        -- exists (String c m). now rewrite join_cons_char, IH.
Qed.

(** The words of a quoted name, joined, are the quoted title. *)
Lemma join_split_quoted (name : string) :
  join " " (split (quote ++ name ++ quote)) = quote ++ read_title name ++ quote.
Proof.
  assert (Hq : isspace (ascii_of_nat 34) = false) by reflexivity.
  destruct (join_split_last name (ascii_of_nat 34) Hq) as [m Hm].
  unfold read_title. rewrite quoted, (split_nonspace _ _ Hq).
  destruct (name ++ String (ascii_of_nat 34) "") as [|c' s] eqn:E;
    [destruct name; discriminate|].
  destruct (split (String c' s)) as [|t ts];
    [cbn in Hm; destruct m; discriminate|].
  destruct (isspace c').
  - rewrite join_cons_cons, Hm.
    change (String (ascii_of_nat 34) "" ++ " " ++ m ++ String (ascii_of_nat 34) "")
      with (String (ascii_of_nat 34)
              ((String " " m) ++ String (ascii_of_nat 34) "")).
    cbn [drop_first]. now rewrite drop_last_app_char.
  - rewrite join_cons_char, Hm. cbn [drop_first].
    now rewrite drop_last_app_char.
Qed.

(** The title read from the line written for a name is the name exactly
    when the whitespace of the name is single spaces. *)
Lemma read_title_spaced (name : string) :
  read_title name = name <-> spaced name = true.
Proof.
  assert (Hq : isspace (ascii_of_nat 34) = false) by reflexivity.
  split.
  - intros H. pose proof (spaced_join_split (quote ++ name ++ quote)) as S.
    rewrite join_split_quoted, H, quoted in S. cbn [spaced] in S.
    apply andb_prop in S as [_ S]. now apply spaced_app_char_inv in S.
  - intros H. unfold read_title. rewrite quoted.
    rewrite join_split_spaced.
    + cbn [first_char]. rewrite Hq. cbn [drop_first].
      apply drop_last_app_char.
    + cbn [spaced]. rewrite Hq. cbn [negb orb andb].
      now apply spaced_app_char.
    + change (String (ascii_of_nat 34) (name ++ String (ascii_of_nat 34) ""))
        with ((String (ascii_of_nat 34) name) ++ String (ascii_of_nat 34) "").
      now apply ends_nonspace_app_char.
Qed.

End Titles.

(** ** The writer: what is refused and what is written *)

Section WriterChecks.
Import Py ResolveCube Spec Props.
Local Open Scope string_scope.

(** *** The assertions *)

Lemma write_stages_of (LUT : object) (s : LUT2D.t) (c : LUT3D.t) (d : nat) :
  stages_of LUT = Some (s, c) ->
  exists h2 h3 name,
    snd (write_LUT_ResolveCube LUT d) = write_stages h2 h3 name s c d /\
    (h2 = true \/ h3 = true).
Proof.
  intros H. destruct LUT as [[l|l|l]|stages|]; cbn in H.
  - injection H as <- <-. exists true, false, (LUT1D.name l). now split; [|left].
  - injection H as <- <-. exists true, false, (LUT2D.name l). now split; [|left].
  - injection H as <- <-. exists false, true, (LUT3D.name l). now split; [|right].
  - destruct stages as [|[x|x|x] [|[y|y|y] [|z stages]]]; try discriminate;
      injection H as <- <-; exists true, true, (LUT3D.name y); now split; [|left].
  - discriminate.
Qed.

(** The exceptions of the parts of the writer other than its assertions. *)
Lemma range_line_raise (keyword : string) (d : nat) (dom : Np.ndarray2) (e : exn) :
  range_line keyword d dom = Raise e -> e = IndexError.
Proof.
  unfold range_line, domain_at.
  destruct (negb (Np.array_equal dom default_domain)); [|discriminate].
  destruct (nth_error dom 0) as [r0|]; cbn [of_option bind];
    [|now intros [= <-]].
  destruct (nth_error r0 0) as [lo|]; cbn [of_option bind]; [|now intros [= <-]].
  destruct (nth_error dom 1) as [r1|]; cbn [of_option bind]; [|now intros [= <-]].
  destruct (nth_error r1 0) as [hi|]; cbn [of_option bind]; [|now intros [= <-]].
  discriminate.
Qed.

Lemma data_lines_raise (d : nat) (t : Np.ndarray2) (e : exn) :
  data_lines d t = Raise e -> e = IndexError.
Proof.
  unfold data_lines. induction t as [|row t IH]; [discriminate|].
  cbn [mapM]. unfold _format_array at 1.
  destruct row as [|a [|b [|c row]]]; cbn [bind]; try now intros [= <-].
  destruct (mapM _ t) as [rows|e'] eqn:E; cbn [bind]; [discriminate|].
  intros [= <-]. now apply IH.
Qed.

Lemma reshape_rows_raise (t : Np.ndarray4) (e : exn) :
  Np.reshape_rows t = Raise e -> e = ValueError.
Proof.
  unfold Np.reshape_rows. destruct (_ =? _)%nat; [discriminate|]. now intros [= <-].
Qed.

Lemma bind_Raise_inv {A B : Type} (m : result A) (k : A -> result B) (e : exn) :
  bind m k = Raise e -> m = Raise e \/ exists a, m = Ok a /\ k a = Raise e.
Proof.
  destruct m as [a|e']; cbn; intros H; [right; eauto|left].
  now injection H as ->.
Qed.

(** After the assertions, the writer raises nothing but [IndexError] and
    [ValueError]. *)
Lemma write_body_raise (h2 h3 : bool) (name : string) (s : LUT2D.t) (c : LUT3D.t)
    (d : nat) (e : exn) :
  bind (if h2 then
          bind (range_line "LUT_1D_INPUT_RANGE" d (LUT2D.domain s))
            (fun r =>
          Ok (size_line "LUT_1D_SIZE" (List.length (LUT2D.table s)) :: r))
        else Ok []) (fun head2 =>
  bind (if h3 then
          bind (range_line "LUT_3D_INPUT_RANGE" d (LUT3D.domain c))
            (fun r =>
          Ok (size_line "LUT_3D_SIZE" (List.length (LUT3D.table c)) :: r))
        else Ok []) (fun head3 =>
  bind (if h2 then
          bind (data_lines d (LUT2D.table s)) (fun rows =>
          Ok (rows ++ [NL])%list)
        else Ok []) (fun rows2 =>
  bind (if h3 then
          bind (Np.reshape_rows (LUT3D.table c)) (fun table =>
          data_lines d table)
        else Ok []) (fun rows3 =>
  Ok (title_line name ::
      map comment_line (LUT2D.comments s) ++
      map comment_line (LUT3D.comments c) ++
      head2 ++ head3 ++ rows2 ++ rows3)%list)))) = Raise e ->
  e = IndexError \/ e = ValueError.
Proof.
  intros H.
  apply bind_Raise_inv in H as [H|[head2 [_ H]]].
  { destruct h2; [|discriminate].
    apply bind_Raise_inv in H as [H|[r [_ H]]]; [|discriminate].
    left. eapply range_line_raise, H. }
  apply bind_Raise_inv in H as [H|[head3 [_ H]]].
  { destruct h3; [|discriminate].
    apply bind_Raise_inv in H as [H|[r [_ H]]]; [|discriminate].
    left. eapply range_line_raise, H. }
  apply bind_Raise_inv in H as [H|[rows2 [_ H]]].
  { destruct h2; [|discriminate].
    apply bind_Raise_inv in H as [H|[r [_ H]]]; [|discriminate].
    left. eapply data_lines_raise, H. }
  apply bind_Raise_inv in H as [H|[rows3 [_ H]]]; [|discriminate].
  destruct h3; [|discriminate].
  apply bind_Raise_inv in H as [H|[t [_ H]]].
  - right. eapply reshape_rows_raise, H.
  - left. eapply data_lines_raise, H.
Qed.

Lemma write_stages_domain_assertion (h2 h3 : bool) (name : string) (s : LUT2D.t)
    (c : LUT3D.t) (d : nat) :
  write_stages h2 h3 name s c d = Raise (AssertionError "LUT domain must be 1D!")
  <->
  (Np.count_unique (LUT2D.domain s) <> 2%nat \/
   Np.count_unique (LUT3D.domain c) <> 2%nat).
Proof.
  unfold write_stages.
  destruct (Np.count_unique (LUT2D.domain s) =? 2)%nat eqn:E2.
  - destruct (Np.count_unique (LUT3D.domain c) =? 2)%nat eqn:E3.
    + apply Nat.eqb_eq in E2, E3. cbn [andb assert bind]. split; [|intros [H|H]; lia].
      intros H. exfalso.
      apply bind_Raise_inv in H as [H|[_ [_ H]]].
      { destruct h2; [|discriminate]. unfold assert in H.
        destruct (_ && _); discriminate. }
      apply bind_Raise_inv in H as [H|[_ [_ H]]].
      { destruct h3; [|discriminate]. unfold assert in H.
        destruct (_ && _); discriminate. }
      apply write_body_raise in H as [H|H]; discriminate.
    + apply Nat.eqb_neq in E3. cbn [andb assert bind]. split; [now right|reflexivity].
  - apply Nat.eqb_neq in E2. cbn [andb assert bind]. split; [now left|reflexivity].
Qed.

(** X11.  The writer refuses, by its assertion on the domains, exactly the LUTs
    with a stage whose domain does not hold two distinct values: among
    them a domain with equal bounds and a domain with bounds of its own for
    each channel.  The assertion comes before the ones on the sizes. *)
Theorem write_rejects_domain (LUT : object) (s : LUT2D.t) (c : LUT3D.t) (d : nat) :
  stages_of LUT = Some (s, c) ->
  (snd (write_LUT_ResolveCube LUT d) =
     Raise (AssertionError "LUT domain must be 1D!")
   <->
   (Np.count_unique (LUT2D.domain s) <> 2%nat \/
    Np.count_unique (LUT3D.domain c) <> 2%nat)).
Proof.
  intros H. destruct (write_stages_of LUT s c d H) as (h2 & h3 & name & -> & _).
  apply write_stages_domain_assertion.
Qed.

Lemma write_rejects_domain_witness :
  snd (write_LUT_ResolveCube
         (Lut (L2D (LUT2D.make "Per channel" [[0; 0; 0]]
                               [[0; 1 # 10; 0]; [1; 1; 1]] []))) 7) =
  Raise (AssertionError "LUT domain must be 1D!").
Proof.
  apply (proj2 (write_rejects_domain
           (Lut (L2D (LUT2D.make "Per channel" [[0; 0; 0]]
                                 [[0; 1 # 10; 0]; [1; 1; 1]] [])))
           (LUT2D.make "Per channel" [[0; 0; 0]] [[0; 1 # 10; 0]; [1; 1; 1]] [])
           LUT3D_default 7 eq_refl)).
  left. cbn. lia.
Defined.

(** The assertions that the two stages can fail. *)
Lemma write_stages_assertion (h2 h3 : bool) (name : string) (s : LUT2D.t)
    (c : LUT3D.t) (d : nat) (msg : string) :
  write_stages h2 h3 name s c d = Raise (AssertionError msg) ->
  msg = "LUT domain must be 1D!" \/
  msg = "Shaper size must be in domain [2, 65536]!" \/
  msg = "Cube size must be in domain [2, 256]!".
Proof.
  unfold write_stages. intros H.
  apply bind_Raise_inv in H as [H|[_ [_ H]]].
  { unfold assert in H. destruct (_ && _); [discriminate|].
    injection H as <-. now left. }
  apply bind_Raise_inv in H as [H|[_ [_ H]]].
  { destruct h2; [|discriminate]. unfold assert in H.
    destruct (_ && _); [discriminate|]. injection H as <-. right. now left. }
  apply bind_Raise_inv in H as [H|[_ [_ H]]].
  { destruct h3; [|discriminate]. unfold assert in H.
    destruct (_ && _); [discriminate|]. injection H as <-. right. now right. }
  apply write_body_raise in H as [H|H]; discriminate.
Qed.

(** X12.  A sequence is refused by the first assertion exactly when it is not a
    shaper followed by a cube: a sequence of another length, or with a
    stage of another class, is refused and left as it was; a sequence of a
    [LUT1D] or [LUT2D] and a [LUT3D] never fails this assertion. *)
Theorem write_rejects_sequence (stages : list lut) (d : nat) :
  (sequence_ok stages = false ->
   write_LUT_ResolveCube (LUTSequence stages) d =
   (LUTSequence stages,
    Raise (AssertionError "LUTSequence must be 1D+3D or 2D+3D!"))) /\
  (sequence_ok stages = true ->
   snd (write_LUT_ResolveCube (LUTSequence stages) d) <>
   Raise (AssertionError "LUTSequence must be 1D+3D or 2D+3D!")).
Proof.
  split; intros H.
  - destruct stages as [|[x|x|x] [|[y|y|y] [|z stages]]];
      try reflexivity; discriminate.
  - destruct stages as [|[x|x|x] [|[y|y|y] [|z stages]]]; try discriminate;
      cbn [write_LUT_ResolveCube snd]; intros E;
      apply write_stages_assertion in E as [E|[E|E]]; discriminate.
Qed.

Lemma write_rejects_sequence_witness :
  write_LUT_ResolveCube
    (LUTSequence [L3D LUT3D_default; L2D LUT2D_default]) 7 =
    (LUTSequence [L3D LUT3D_default; L2D LUT2D_default],
     Raise (AssertionError "LUTSequence must be 1D+3D or 2D+3D!")) /\
  snd (write_LUT_ResolveCube
         (LUTSequence [L2D LUT2D_default; L3D LUT3D_default]) 7) <>
    Raise (AssertionError "LUTSequence must be 1D+3D or 2D+3D!").
Proof.
  split.
  - apply (proj1 (write_rejects_sequence
                    [L3D LUT3D_default; L2D LUT2D_default] 7)). reflexivity.
  - apply (proj2 (write_rejects_sequence
                    [L2D LUT2D_default; L3D LUT3D_default] 7)). reflexivity.
Defined.

(** *** The rows *)

Lemma data_lines_short (d : nat) (t : Np.ndarray2) :
  Exists (fun row => List.length row < 3)%nat t ->
  data_lines d t = Raise IndexError.
Proof.
  intros H. destruct (data_lines d t) as [rows|e] eqn:E.
  - exfalso. unfold data_lines in E. apply mapM_Ok_inv in E.
    induction E as [|row w t rows Hrow _ IH]; [inversion H|].
    inversion H as [? ? Hs|? ? Hs]; subst; [|now apply IH].
    destruct row as [|a [|b [|c row]]]; cbn in Hs, Hrow; try discriminate. lia.
  - f_equal. eapply data_lines_raise, E.
Qed.

(** X13.  A shaper that passes the assertions and has a row of fewer than three
    scalars makes the call raise [IndexError]: the format of a data row
    takes three scalars. *)
Theorem write_short_row (l : LUT2D.t) (d : nat) :
  rectilinear (LUT2D.domain l) ->
  (2 <= Z.of_nat (LUT2D.size l) <= 65536)%Z ->
  Exists (fun row => List.length row < 3)%nat (LUT2D.table l) ->
  snd (write_LUT_ResolveCube (Lut (L2D l)) d) = Raise IndexError.
Proof.
  intros [Sh U] Hs Hrow. cbn [write_LUT_ResolveCube snd]. unfold write_stages.
  rewrite U. change (Np.count_unique (LUT3D.domain LUT3D_default)) with 2%nat.
  cbn [Nat.eqb andb assert bind].
  replace (2 <=? Z.of_nat (LUT2D.size l))%Z with true
    by (symmetry; apply Z.leb_le; lia).
  replace (Z.of_nat (LUT2D.size l) <=? 65536)%Z with true
    by (symmetry; apply Z.leb_le; lia).
  cbn [andb assert bind].
  rewrite range_line_ok by assumption. cbn [bind].
  now rewrite data_lines_short.
Qed.

Lemma write_short_row_witness :
  snd (write_LUT_ResolveCube
         (Lut (L2D (LUT2D.make "Pairs" [[0; 0]; [1; 1]] default_domain []))) 7) =
  Raise IndexError.
Proof.
  apply write_short_row.
  - split; [split; [reflexivity|repeat constructor]|reflexivity].
  - cbn. lia.
  - left. cbn. lia.
Defined.

Lemma split_app_NL (s : string) : split (s ++ NL) = split s.
Proof.
  rewrite <- (split_rstrip (s ++ NL)), rstrip_app_space by reflexivity.
  apply split_rstrip.
Qed.

(** X14.  The text of a data row is three words, each with exactly [d]
    characters after its point; split and parsed, they give three scalars,
    each within [10 ^ -d] of the scalar written. *)
Theorem format_parse_row (d : nat) (a b c : Q) (rest : list Q) :
  exists s row,
    _format_array d (a :: b :: c :: rest) = Ok s /\
    List.length (split s) = 3%nat /\
    Forall (fun w => fractional_digits w = d) (split s) /\
    _parse_array (split s) = Ok row /\
    Forall2 (close d) [a; b; c] row.
Proof.
  eexists. exists [quantize d a; quantize d b; quantize d c].
  split; [reflexivity|].
  assert (E : split (format_float d a ++ " " ++ format_float d b ++ " " ++
                     format_float d c) =
              [format_float d a; format_float d b; format_float d c]).
  { rewrite <- split_app_NL.
    change ((format_float d a ++ " " ++ format_float d b ++ " " ++
             format_float d c) ++ NL)
      with (row_line d [a; b; c]).
    now rewrite split_row_line. }
  rewrite E. split; [reflexivity|]. split.
  - repeat constructor; apply format_float_fractional_digits.
  - split.
    + unfold _parse_array. cbn [mapM]. rewrite !float_format_float. reflexivity.
    + repeat constructor; apply quantize_close.
Qed.

(** *** The layout of the file *)

(** X15.  The file of a shaper: the title, the comments, the size, the range
    line when the domain is not the default one, one line for each row
    holding its first three scalars, and a blank line. *)
Theorem write_shaper_layout (l : LUT2D.t) (d : nat) :
  rectilinear (LUT2D.domain l) ->
  Forall (fun row => 3 <= List.length row)%nat (LUT2D.table l) ->
  (2 <= Z.of_nat (LUT2D.size l) <= 65536)%Z ->
  snd (write_LUT_ResolveCube (Lut (L2D l)) d) =
  Ok (title_line (LUT2D.name l) ::
      map comment_line (LUT2D.comments l) ++
      size_line "LUT_1D_SIZE" (List.length (LUT2D.table l)) ::
      (if Np.array_equal (LUT2D.domain l) default_domain then []
       else [("LUT_1D_INPUT_RANGE " ++
              format_float d (bound (LUT2D.domain l) 0) ++ " " ++
              format_float d (bound (LUT2D.domain l) 1) ++ NL)%string]) ++
      map (fun row => (format_float d (nth 0 row 0) ++ " " ++
                       format_float d (nth 1 row 0) ++ " " ++
                       format_float d (nth 2 row 0) ++ NL)%string)
          (LUT2D.table l) ++
      [NL])%list.
Proof.
  intros Hd Hr Hs. rewrite (write_shaper_ok l d Hd Hr Hs). cbn [snd].
  unfold shaper_writes, LUT2D.size.
  assert (M : map (row_line d) (LUT2D.table l) =
              map (fun row => format_float d (nth 0 row 0) ++ " " ++
                              format_float d (nth 1 row 0) ++ " " ++
                              format_float d (nth 2 row 0) ++ NL)
                  (LUT2D.table l)).
  { apply map_ext. intros row. unfold row_line. now rewrite !append_assoc. }
  rewrite M. unfold range_lines, range_text.
  destruct (Np.array_equal _ _); [reflexivity|]. now rewrite !append_assoc.
Qed.

Lemma write_shaper_layout_witness :
  snd (write_LUT_ResolveCube
         (Lut (L2D (LUT2D.make "Ramp" [[0; 0; 0; 9]; [1; 1; 1; 9]]
                               [[0; 0; 0]; [2; 2; 2]] ["c"]))) 1) =
  Ok ["TITLE " ++ quote ++ "Ramp" ++ quote ++ NL; "# c" ++ NL;
      "LUT_1D_SIZE 2" ++ NL; "LUT_1D_INPUT_RANGE 0.0 2.0" ++ NL;
      "0.0 0.0 0.0" ++ NL; "1.0 1.0 1.0" ++ NL; NL].
Proof.
  rewrite write_shaper_layout.
  - reflexivity.
  - split; [split; [reflexivity|repeat constructor]|reflexivity].
  - repeat constructor.
  - cbn. lia.
Defined.

(** X16.  The file of a shaper followed by a cube: the title is the name of the
    cube, and the name of the shaper is not written; the comments of the
    shaper come before those of the cube; the two sizes and ranges come
    before any row; the rows of the shaper, a blank line, then the rows of
    the cube with the red index fastest. *)
Theorem write_combined_layout (l : LUT2D.t) (c : LUT3D.t) (s d : nat) :
  rectilinear (LUT2D.domain l) ->
  Forall (fun row => 3 <= List.length row)%nat (LUT2D.table l) ->
  (2 <= Z.of_nat (LUT2D.size l) <= 65536)%Z ->
  rectilinear (LUT3D.domain c) ->
  shape4 s s s 3 (LUT3D.table c) ->
  (2 <= Z.of_nat s <= 256)%Z ->
  snd (write_LUT_ResolveCube (LUTSequence [L2D l; L3D c]) d) =
  Ok (title_line (LUT3D.name c) ::
      map comment_line (LUT2D.comments l) ++
      map comment_line (LUT3D.comments c) ++
      size_line "LUT_1D_SIZE" (List.length (LUT2D.table l)) ::
      range_lines "LUT_1D_INPUT_RANGE" d (LUT2D.domain l) ++
      size_line "LUT_3D_SIZE" s ::
      range_lines "LUT_3D_INPUT_RANGE" d (LUT3D.domain c) ++
      map (row_line d) (LUT2D.table l) ++
      [NL] ++
      map (fun i => row_line d (cell (LUT3D.table c) (i mod s) ((i / s) mod s)
                                     (i / (s * s))))
          (seq 0 (s * s * s)))%list.
Proof.
  intros Hd2 Hr Hs2 Hd3 H4 Hs3.
  assert (Hsize : LUT3D.size c = s) by apply H4.
  rewrite (write_combined_ok l c d) by (rewrite ?Hsize; assumption).
  cbn [snd]. unfold combined_writes, cube_rows, LUT2D.size.
  fold (LUT3D.size c). rewrite Hsize. now rewrite map_map.
Qed.

Lemma write_combined_layout_witness :
  snd (write_LUT_ResolveCube
         (LUTSequence
            [L2D (LUT2D.make "Shaper" [[0; 0; 0]; [1; 1; 1]] default_domain ["s"]);
             L3D Samples.sample_cube]) 1) =
  Ok ["TITLE " ++ quote ++ "My Cube" ++ quote ++ NL;
      "# s" ++ NL; "# A cube comment." ++ NL;
      "LUT_1D_SIZE 2" ++ NL;
      "LUT_3D_SIZE 2" ++ NL; "LUT_3D_INPUT_RANGE -0.1 3.0" ++ NL;
      "0.0 0.0 0.0" ++ NL; "1.0 1.0 1.0" ++ NL; NL;
      "0.0 0.0 0.0" ++ NL; "1.0 0.0 0.0" ++ NL;
      "0.0 1.0 0.0" ++ NL; "1.0 1.0 0.0" ++ NL;
      "0.0 0.0 1.0" ++ NL; "1.0 0.0 1.0" ++ NL;
      "0.0 1.0 1.0" ++ NL; "1.0 1.0 1.0" ++ NL].
Proof.
  rewrite (write_combined_layout _ _ 2%nat).
  - reflexivity.
  - split; [split; [reflexivity|repeat constructor]|reflexivity].
  - repeat constructor.
  - cbn. lia.
  - split; [split; [reflexivity|repeat constructor]|reflexivity].
  - split; [reflexivity|]. repeat constructor.
  - lia.
Defined.

End WriterChecks.

(** ** Round trips: names, sequences, and reading twice *)

Section MoreRoundTrips.
Import Py ResolveCube Spec Claims Props.
Local Open Scope string_scope.

(** *** Rounding *)

(** The rounding depends on the value of the fraction only. *)
Lemma round_half_even_scale (a a' : Z) (b b' : positive) :
  (a * Zpos b' = a' * Zpos b)%Z ->
  round_half_even a b = round_half_even a' b'.
Proof.
  intros E. unfold round_half_even.
  pose proof (Z.div_mod a (Zpos b) ltac:(lia)) as D.
  pose proof (Z.mod_pos_bound a (Zpos b) ltac:(lia)) as B.
  pose proof (Z.div_mod a' (Zpos b') ltac:(lia)) as D'.
  pose proof (Z.mod_pos_bound a' (Zpos b') ltac:(lia)) as B'.
  set (q := (a / Zpos b)%Z) in *. set (r := (a mod Zpos b)%Z) in *.
  set (q' := (a' / Zpos b')%Z) in *. set (r' := (a' mod Zpos b')%Z) in *.
  assert (Hq : q = q').
  { assert (K : (Zpos b * Zpos b' * (q - q') = r' * Zpos b - r * Zpos b')%Z)
      by (rewrite D in E; rewrite D' in E; lia).
    assert (L : (- (Zpos b * Zpos b') < r' * Zpos b - r * Zpos b'
                 < Zpos b * Zpos b')%Z) by nia.
    rewrite <- K in L.
    assert (- 1 < q - q' < 1)%Z by nia. lia. }
  assert (Hr : (r * Zpos b' = r' * Zpos b)%Z)
    by (rewrite D in E; rewrite D' in E; subst q'; lia).
  rewrite <- Hq.
  assert (C1 : (2 * r <? Zpos b)%Z = (2 * r' <? Zpos b')%Z).
  { destruct (2 * r <? Zpos b)%Z eqn:X; destruct (2 * r' <? Zpos b')%Z eqn:Y;
      try reflexivity;
      [apply Z.ltb_lt in X; apply Z.ltb_ge in Y|apply Z.ltb_ge in X; apply Z.ltb_lt in Y];
      nia. }
  assert (C2 : (Zpos b <? 2 * r)%Z = (Zpos b' <? 2 * r')%Z).
  { destruct (Zpos b <? 2 * r)%Z eqn:X; destruct (Zpos b' <? 2 * r')%Z eqn:Y;
      try reflexivity;
      [apply Z.ltb_lt in X; apply Z.ltb_ge in Y|apply Z.ltb_ge in X; apply Z.ltb_lt in Y];
      nia. }
  now rewrite C1, C2.
Qed.

Lemma quantize_Qeq (d : nat) (x y : Q) : x == y -> quantize d x = quantize d y.
Proof.
  intros E. unfold quantize, scaled_round. f_equal.
  apply round_half_even_scale. unfold Qeq in E. nia.
Qed.

(** Rounding a rounded scalar changes nothing. *)
Lemma quantize_idem (d : nat) (x : Q) : quantize d (quantize d x) = quantize d x.
Proof.
  unfold quantize at 1 3. f_equal. unfold scaled_round, quantize. cbn [Qnum Qden].
  unfold round_half_even.
  rewrite Z.div_mul, Z.mod_mul by lia.
  now replace (2 * 0 <? Zpos (pow10 d))%Z with true by (symmetry; apply Z.ltb_lt; lia).
Qed.

Lemma map4_quantize_idem (d : nat) (t : Np.ndarray4) :
  map4 (quantize d) (map4 (quantize d) t) = map4 (quantize d) t.
Proof.
  unfold map4. rewrite map_map. apply map_ext. intros p.
  rewrite map_map. apply map_ext. intros q.
  rewrite map_map. apply map_ext. intros row.
  rewrite map_map. apply map_ext. intros x. apply quantize_idem.
Qed.

(** *** Names and comments that were read *)

Lemma spaced_single_line (s : string) : spaced s = true -> single_line s = true.
Proof.
  unfold single_line.
  induction s as [|c s IH]; [reflexivity|]. cbn [spaced string_forall].
  intros H. apply andb_prop in H as [Hc Hs]. rewrite (IH Hs), andb_true_r.
  destruct (isspace c) eqn:Sc.
  - cbn [negb orb] in Hc. apply andb_prop in Hc as [Hc _].
    apply Ascii.eqb_eq in Hc. now subst c.
  - destruct (Ascii.eqb_spec c LF) as [->|_]; [discriminate|].
    destruct (Ascii.eqb_spec c CR) as [->|_]; [discriminate|]. reflexivity.
Qed.

(** A title that was read has single spaces only, whatever was written. *)
Lemma spaced_read_title (name : string) : spaced (read_title name) = true.
Proof.
  assert (Hq : isspace (ascii_of_nat 34) = false) by reflexivity.
  pose proof (spaced_join_split (quote ++ name ++ quote)) as S.
  rewrite join_split_quoted, quoted in S. cbn [spaced] in S.
  apply andb_prop in S as [_ S]. now apply spaced_app_char_inv in S.
Qed.

Lemma read_title_idem (name : string) :
  read_title (read_title name) = read_title name.
Proof. apply read_title_spaced, spaced_read_title. Qed.

Lemma string_forall_lstrip (p : ascii -> bool) (s : string) :
  string_forall p s = true -> string_forall p (lstrip s) = true.
Proof.
  induction s as [|c s IH]; [reflexivity|]. intros H. cbn [lstrip].
  destruct (isspace c); [|exact H].
  cbn [string_forall] in H. apply andb_prop in H as [_ H]. now apply IH.
Qed.

Lemma string_forall_rstrip (p : ascii -> bool) (s : string) :
  string_forall p s = true -> string_forall p (rstrip s) = true.
Proof.
  induction s as [|c s IH]; [reflexivity|]. intros H.
  cbn [string_forall] in H. apply andb_prop in H as [Hc H]. specialize (IH H).
  cbn [rstrip]. destruct (rstrip s) as [|x r].
  - destruct (isspace c); [reflexivity|]. cbn. now rewrite Hc.
  - cbn [string_forall] in *. now rewrite Hc, IH.
Qed.

Lemma single_line_strip (s : string) :
  single_line s = true -> single_line (strip s) = true.
Proof. intros H. now apply string_forall_rstrip, string_forall_lstrip. Qed.

Lemma Forall_single_line_strip (cs : list string) :
  Forall (fun c => single_line c = true) cs ->
  Forall (fun c => single_line c = true) (map strip cs).
Proof.
  intros H. apply Forall_forall. intros c Hc.
  apply in_map_iff in Hc as [c0 [<- Hc0]]. rewrite Forall_forall in H.
  now apply single_line_strip, H.
Qed.

Lemma map_strip_idem (cs : list string) : map strip (map strip cs) = map strip cs.
Proof. rewrite map_map. apply map_ext. intros c. apply strip_idem. Qed.

(** *** The domain that was read *)

Lemma array_equal_uniform_default (lo hi : Q) :
  Np.array_equal (uniform_domain lo hi) default_domain = true ->
  lo == 0 /\ hi == 1.
Proof.
  unfold uniform_domain, default_domain. cbn [Np.array_equal Np.array_equal1].
  intros H. apply andb_prop in H as [H0 H1].
  apply andb_prop in H0 as [H0 _]. apply andb_prop in H1 as [H1 _].
  apply andb_prop in H1 as [H1 _].
  split; now apply Qeq_bool_iff.
Qed.

Lemma quantize_0 (d : nat) : quantize d 0 == 0.
Proof. unfold quantize, scaled_round, round_half_even. cbn [Qnum Qden]. reflexivity. Qed.

Lemma quantize_1 (d : nat) : quantize d 1 == 1.
Proof.
  unfold quantize, scaled_round, round_half_even. cbn [Qnum Qden].
  rewrite Z.div_1_r, Z.mod_1_r. cbn [Z.mul Z.ltb Z.compare].
  unfold Qeq. cbn [Qnum Qden]. lia.
Qed.

Lemma read_domain_uniform (d : nat) (lo hi : Q) :
  read_domain d (uniform_domain lo hi) =
  if Np.array_equal (uniform_domain lo hi) default_domain then default_domain
  else uniform_domain (quantize d lo) (quantize d hi).
Proof. reflexivity. Qed.

(** The domain that is read back from the range line of a domain with
    distinct bounds is accepted by the writer when the bounds are still
    distinct after rounding. *)
Lemma rectilinear_read_domain (d : nat) (lo hi : Q) :
  ~ quantize d lo == quantize d hi ->
  rectilinear (read_domain d (uniform_domain lo hi)).
Proof.
  intros H. rewrite read_domain_uniform.
  destruct (Np.array_equal _ _).
  - split; [|reflexivity]. split; [reflexivity|repeat constructor].
  - now apply rectilinear_uniform.
Qed.

Lemma same_domain_refl (dom : Np.ndarray2) : same_domain dom dom.
Proof.
  unfold same_domain. induction dom as [|row dom IH]; constructor; [|exact IH].
  induction row; constructor; [reflexivity|assumption].
Qed.

Lemma same_domain_sym (a b : Np.ndarray2) : same_domain a b -> same_domain b a.
Proof.
  unfold same_domain. induction 1 as [|x y a b Hxy _ IH]; constructor; [|exact IH].
  induction Hxy; constructor; [now symmetry|assumption].
Qed.

(** Reading the range line of a domain that was read gives that domain. *)
Lemma read_domain_idem (d : nat) (lo hi : Q) :
  same_domain (read_domain d (read_domain d (uniform_domain lo hi)))
              (read_domain d (uniform_domain lo hi)).
Proof.
  rewrite (read_domain_uniform d lo hi).
  destruct (Np.array_equal (uniform_domain lo hi) default_domain) eqn:E.
  - apply same_domain_refl.
  - rewrite read_domain_uniform.
    destruct (Np.array_equal (uniform_domain (quantize d lo) (quantize d hi))
                default_domain) eqn:E'.
    + apply same_domain_sym. now apply array_equal_spec.
    + rewrite !quantize_idem. apply same_domain_refl.
Qed.

Lemma count_unique_collapsed (a b : Q) :
  a == b -> Np.count_unique (uniform_domain a b) = 1%nat.
Proof.
  intros H. unfold Np.count_unique, uniform_domain.
  cbn [List.concat app Np.unique existsb].
  assert (E : Qeq_bool a b = true) by now apply Qeq_bool_iff.
  assert (E1 : Qeq_bool a a = true) by now apply Qeq_bool_iff.
  assert (E2 : Qeq_bool b b = true) by now apply Qeq_bool_iff.
  rewrite ?E, ?E1, ?E2. cbn [orb]. now rewrite ?E, ?E1, ?E2.
Qed.

(** *** The name of a LUT through the round trip *)

(** X17.  The name of a shaper comes back from the round trip exactly when its
    whitespace is single spaces: a name with a tab or with two spaces in a
    row comes back changed. *)
Theorem shaper_name_roundtrip (path : string) (l : LUT2D.t) (lo hi : Q) (d : nat) :
  valid_shaper l lo hi ->
  exists writes l',
    snd (write_LUT_ResolveCube (Lut (L2D l)) d) = Ok writes /\
    read_LUT_ResolveCube path (file_text writes) = Ok (Lut (L2D l')) /\
    (LUT2D.name l' = LUT2D.name l <-> spaced (LUT2D.name l) = true).
Proof.
  intros (Ht & Hs & Hd & Hne & Hn & Hc).
  assert (Hrect : rectilinear (LUT2D.domain l))
    by (rewrite Hd; now apply rectilinear_uniform).
  assert (H3 : Forall (fun row => 3 <= List.length row)%nat (LUT2D.table l)).
  { eapply Forall_impl; [|exact Ht]. intros row Hrow. unfold is_triple in Hrow. lia. }
  pose proof (write_shaper_ok l d Hrect H3 Hs) as W.
  pose proof (read_shaper_writes path l d Ht Hn Hc
                (fits_long (LUT2D.size l) ltac:(lia))) as R.
  eexists (shaper_writes l d), _.
  split; [now rewrite W|]. split; [exact R|]. cbn [LUT2D.name].
  apply read_title_spaced.
Qed.

Lemma shaper_name_roundtrip_witness :
  exists writes l',
    snd (write_LUT_ResolveCube (Lut (L2D Samples.sample_shaper)) 7) = Ok writes /\
    read_LUT_ResolveCube "x.cube" (file_text writes) = Ok (Lut (L2D l')) /\
    (LUT2D.name l' = "My LUT" <-> spaced "My LUT" = true).
Proof.
  apply (shaper_name_roundtrip "x.cube" Samples.sample_shaper (-1 # 10) 3 7).
  unfold valid_shaper. split; [repeat constructor|].
  split; [cbn; lia|]. split; [reflexivity|]. split; [discriminate|].
  split; [reflexivity|]. repeat constructor.
Defined.

(** *** The domain of a LUT through the round trip *)

(** X18.  The domain that comes back for a shaper is made from the bounds of the
    first channel alone: when the domain written is not the default one,
    the one read back repeats these two bounds, rounded, on the three
    channels, whatever the other channels held. *)
Theorem shaper_domain_roundtrip (path : string) (l : LUT2D.t) (d : nat) :
  rectilinear (LUT2D.domain l) ->
  Np.array_equal (LUT2D.domain l) default_domain = false ->
  Forall is_triple (LUT2D.table l) ->
  (2 <= Z.of_nat (LUT2D.size l) <= 65536)%Z ->
  single_line (LUT2D.name l) = true ->
  Forall (fun c => single_line c = true) (LUT2D.comments l) ->
  exists writes l',
    snd (write_LUT_ResolveCube (Lut (L2D l)) d) = Ok writes /\
    read_LUT_ResolveCube path (file_text writes) = Ok (Lut (L2D l')) /\
    LUT2D.domain l' =
      uniform_domain (quantize d (bound (LUT2D.domain l) 0))
                     (quantize d (bound (LUT2D.domain l) 1)).
Proof.
  intros Hrect Hnd Ht Hs Hn Hc.
  assert (H3 : Forall (fun row => 3 <= List.length row)%nat (LUT2D.table l)).
  { eapply Forall_impl; [|exact Ht]. intros row Hrow. unfold is_triple in Hrow. lia. }
  pose proof (write_shaper_ok l d Hrect H3 Hs) as W.
  pose proof (read_shaper_writes path l d Ht Hn Hc
                (fits_long (LUT2D.size l) ltac:(lia))) as R.
  eexists (shaper_writes l d), _.
  split; [now rewrite W|]. split; [exact R|]. cbn [LUT2D.domain].
  unfold read_domain. now rewrite Hnd.
Qed.

Lemma shaper_domain_roundtrip_witness :
  exists writes l',
    snd (write_LUT_ResolveCube
           (Lut (L2D (LUT2D.make "Crossed" [[0; 0; 0]; [1; 1; 1]]
                                 [[0; 0; 1]; [1; 1; 0]] []))) 1) = Ok writes /\
    read_LUT_ResolveCube "c.cube" (file_text writes) = Ok (Lut (L2D l')) /\
    LUT2D.domain l' = uniform_domain (quantize 1 0) (quantize 1 1).
Proof.
  apply (shaper_domain_roundtrip "c.cube"
           (LUT2D.make "Crossed" [[0; 0; 0]; [1; 1; 1]] [[0; 0; 1]; [1; 1; 0]] []) 1).
  - split; [split; [reflexivity|repeat constructor]|reflexivity].
  - reflexivity.
  - repeat constructor.
  - cbn. lia.
  - reflexivity.
  - constructor.
Defined.

(** *** A shaper and a cube *)

(** X19.  The round trip of a shaper followed by a cube: both tables and both
    domains come back within [10 ^ -decimals]; the comments of the two
    stages come back on the cube, those of the shaper first, and the shaper
    has none; the stages are named after the cube, and the name of the
    shaper is lost. *)
Theorem sequence_roundtrip
    (path : string) (l : LUT2D.t) (c : LUT3D.t) (s d : nat) (lo2 hi2 lo3 hi3 : Q) :
  valid_shaper l lo2 hi2 ->
  valid_cube c s lo3 hi3 ->
  exists writes l' c',
    snd (write_LUT_ResolveCube (LUTSequence [L2D l; L3D c]) d) = Ok writes /\
    read_LUT_ResolveCube path (file_text writes) =
      Ok (LUTSequence [L2D l'; L3D c']) /\
    table_close d (LUT2D.table l) (LUT2D.table l') /\
    grid_close d (LUT3D.table c) (LUT3D.table c') /\
    table_close d (LUT2D.domain l) (LUT2D.domain l') /\
    table_close d (LUT3D.domain c) (LUT3D.domain c') /\
    LUT2D.comments l' = [] /\
    LUT3D.comments c' = map strip (LUT2D.comments l ++ LUT3D.comments c)%list /\
    (spaced (LUT3D.name c) = true ->
     LUT2D.name l' = LUT3D.name c ++ " - Shaper" /\
     LUT3D.name c' = LUT3D.name c ++ " - Cube").
Proof.
  intros (Ht & Hs2 & Hd2 & Hne2 & _ & Hc2) (H4 & Hs3 & Hd3 & Hne3 & Hn3 & Hc3).
  assert (Hsize : LUT3D.size c = s) by apply H4.
  assert (Hr2 : rectilinear (LUT2D.domain l))
    by (rewrite Hd2; now apply rectilinear_uniform).
  assert (Hr3 : rectilinear (LUT3D.domain c))
    by (rewrite Hd3; now apply rectilinear_uniform).
  assert (H3 : Forall (fun row => 3 <= List.length row)%nat (LUT2D.table l)).
  { eapply Forall_impl; [|exact Ht]. intros row Hrow. unfold is_triple in Hrow. lia. }
  pose proof (write_combined_ok l c d Hr2 H3 Hs2 Hr3) as W.
  rewrite Hsize in W. specialize (W H4 Hs3).
  pose proof (read_combined_writes path l c d Ht) as R.
  rewrite Hsize in R.
  specialize (R H4 ltac:(lia) Hn3 Hc2 Hc3
                (fits_long (LUT2D.size l) ltac:(lia)) (fits_long s ltac:(lia))).
  eexists (combined_writes l c d), _, _.
  split; [now rewrite W|]. split; [exact R|].
  cbn [LUT2D.table LUT2D.domain LUT2D.comments LUT2D.name
       LUT3D.table LUT3D.domain LUT3D.comments LUT3D.name].
  split; [apply table_close_quantize|]. split; [apply grid_close_quantize|].
  split; [rewrite Hd2; apply read_domain_close|].
  split; [rewrite Hd3; apply read_domain_close|].
  split; [reflexivity|]. split; [reflexivity|].
  intros Hsp. apply read_title_spaced in Hsp. now rewrite Hsp.
Qed.

Lemma sequence_roundtrip_witness :
  exists writes l' c',
    snd (write_LUT_ResolveCube
           (LUTSequence [L2D Samples.sample_shaper; L3D Samples.sample_cube]) 7)
      = Ok writes /\
    read_LUT_ResolveCube "x.cube" (file_text writes) =
      Ok (LUTSequence [L2D l'; L3D c']) /\
    table_close 7 (LUT2D.table Samples.sample_shaper) (LUT2D.table l') /\
    grid_close 7 (LUT3D.table Samples.sample_cube) (LUT3D.table c') /\
    table_close 7 (LUT2D.domain Samples.sample_shaper) (LUT2D.domain l') /\
    table_close 7 (LUT3D.domain Samples.sample_cube) (LUT3D.domain c') /\
    LUT2D.comments l' = [] /\
    LUT3D.comments c' =
      map strip (LUT2D.comments Samples.sample_shaper ++
                 LUT3D.comments Samples.sample_cube)%list /\
    (spaced (LUT3D.name Samples.sample_cube) = true ->
     LUT2D.name l' = LUT3D.name Samples.sample_cube ++ " - Shaper" /\
     LUT3D.name c' = LUT3D.name Samples.sample_cube ++ " - Cube").
Proof.
  apply (sequence_roundtrip "x.cube" Samples.sample_shaper Samples.sample_cube
           2 7 (-1 # 10) 3 (-1 # 10) 3).
  - unfold valid_shaper. split; [repeat constructor|].
    split; [cbn; lia|]. split; [reflexivity|]. split; [discriminate|].
    split; [reflexivity|]. repeat constructor.
  - unfold valid_cube. split; [split; [reflexivity|repeat constructor]|].
    split; [lia|]. split; [reflexivity|]. split; [discriminate|].
    split; [reflexivity|]. repeat constructor.
Defined.

(** *** Reading twice *)

(** X20.  The LUT that is read back from the file of a cube goes through the
    round trip unchanged, when the bounds of the domain are still distinct
    after rounding: its name, its table and its comments come back as they
    are, and its domain with equal scalars. *)
Theorem cube_second_roundtrip
    (path path' : string) (c : LUT3D.t) (s d : nat) (lo hi : Q) :
  valid_cube c s lo hi ->
  ~ quantize d lo == quantize d hi ->
  exists writes c1 writes' c2,
    snd (write_LUT_ResolveCube (Lut (L3D c)) d) = Ok writes /\
    read_LUT_ResolveCube path (file_text writes) = Ok (Lut (L3D c1)) /\
    snd (write_LUT_ResolveCube (Lut (L3D c1)) d) = Ok writes' /\
    read_LUT_ResolveCube path' (file_text writes') = Ok (Lut (L3D c2)) /\
    LUT3D.name c2 = LUT3D.name c1 /\
    LUT3D.table c2 = LUT3D.table c1 /\
    LUT3D.comments c2 = LUT3D.comments c1 /\
    same_domain (LUT3D.domain c2) (LUT3D.domain c1).
Proof.
  intros (H4 & Hs & Hd & Hne & Hn & Hc) Hq.
  assert (Hsize : LUT3D.size c = s) by apply H4.
  assert (Hr : rectilinear (LUT3D.domain c))
    by (rewrite Hd; now apply rectilinear_uniform).
  pose proof (write_cube_ok c d Hr) as W. rewrite Hsize in W.
  specialize (W H4 Hs).
  pose proof (read_cube_writes path c d) as R. rewrite Hsize in R.
  specialize (R H4 ltac:(lia) Hn Hc (fits_long s ltac:(lia))).
  set (c1 := LUT3D.make (read_title (LUT3D.name c))
                        (map4 (quantize d) (LUT3D.table c))
                        (read_domain d (LUT3D.domain c))
                        (map strip (LUT3D.comments c))) in *.
  assert (H4' : shape4 s s s 3 (LUT3D.table c1)) by now apply shape4_map4.
  assert (Hsize' : LUT3D.size c1 = s) by apply H4'.
  assert (Hr' : rectilinear (LUT3D.domain c1)).
  { cbn [c1 LUT3D.domain]. rewrite Hd. now apply rectilinear_read_domain. }
  pose proof (write_cube_ok c1 d Hr') as W'. rewrite Hsize' in W'.
  specialize (W' H4' Hs).
  pose proof (read_cube_writes path' c1 d) as R'. rewrite Hsize' in R'.
  specialize (R' H4' ltac:(lia)
                (spaced_single_line _ (spaced_read_title _))
                (Forall_single_line_strip _ Hc) (fits_long s ltac:(lia))).
  eexists (cube_writes c d), c1, (cube_writes c1 d), _.
  split; [now rewrite W|]. split; [exact R|].
  split; [now rewrite W'|]. split; [exact R'|].
  cbn [c1 LUT3D.name LUT3D.table LUT3D.comments LUT3D.domain].
  split; [apply read_title_idem|]. split; [apply map4_quantize_idem|].
  split; [apply map_strip_idem|]. rewrite Hd. apply read_domain_idem.
Qed.

Lemma cube_second_roundtrip_witness :
  exists writes c1 writes' c2,
    snd (write_LUT_ResolveCube (Lut (L3D Samples.sample_cube)) 7) = Ok writes /\
    read_LUT_ResolveCube "a.cube" (file_text writes) = Ok (Lut (L3D c1)) /\
    snd (write_LUT_ResolveCube (Lut (L3D c1)) 7) = Ok writes' /\
    read_LUT_ResolveCube "b.cube" (file_text writes') = Ok (Lut (L3D c2)) /\
    LUT3D.name c2 = LUT3D.name c1 /\
    LUT3D.table c2 = LUT3D.table c1 /\
    LUT3D.comments c2 = LUT3D.comments c1 /\
    same_domain (LUT3D.domain c2) (LUT3D.domain c1).
Proof.
  apply (cube_second_roundtrip "a.cube" "b.cube" Samples.sample_cube 2 7 (-1 # 10) 3).
  - unfold valid_cube. split; [split; [reflexivity|repeat constructor]|].
    split; [lia|]. split; [reflexivity|]. split; [discriminate|].
    split; [reflexivity|]. repeat constructor.
  - vm_compute. discriminate.
Defined.

(** X21.  A shaper whose bounds are distinct and round to one scalar is written
    and read back, and the LUT that is read back is refused by the writer:
    its domain holds one value only. *)
Theorem shaper_collapsed_bounds (path : string) (l : LUT2D.t) (lo hi : Q) (d : nat) :
  valid_shaper l lo hi ->
  quantize d lo == quantize d hi ->
  exists writes l',
    snd (write_LUT_ResolveCube (Lut (L2D l)) d) = Ok writes /\
    read_LUT_ResolveCube path (file_text writes) = Ok (Lut (L2D l')) /\
    snd (write_LUT_ResolveCube (Lut (L2D l')) d) =
      Raise (AssertionError "LUT domain must be 1D!").
Proof.
  intros (Ht & Hs & Hd & Hne & Hn & Hc) Hq.
  assert (Hrect : rectilinear (LUT2D.domain l))
    by (rewrite Hd; now apply rectilinear_uniform).
  assert (H3 : Forall (fun row => 3 <= List.length row)%nat (LUT2D.table l)).
  { eapply Forall_impl; [|exact Ht]. intros row Hrow. unfold is_triple in Hrow. lia. }
  pose proof (write_shaper_ok l d Hrect H3 Hs) as W.
  pose proof (read_shaper_writes path l d Ht Hn Hc
                (fits_long (LUT2D.size l) ltac:(lia))) as R.
  eexists (shaper_writes l d), _.
  split; [now rewrite W|]. split; [exact R|].
  cbn [write_LUT_ResolveCube snd]. apply write_stages_domain_assertion.
  left. cbn [LUT2D.domain]. rewrite Hd, read_domain_uniform.
  destruct (Np.array_equal (uniform_domain lo hi) default_domain) eqn:E.
  - exfalso. apply array_equal_uniform_default in E as [E0 E1].
    rewrite (quantize_Qeq d _ _ E0), (quantize_Qeq d _ _ E1) in Hq.
    rewrite quantize_0, quantize_1 in Hq. unfold Qeq in Hq. cbn in Hq. lia.
  - rewrite (count_unique_collapsed _ _ Hq). discriminate.
Qed.

Lemma shaper_collapsed_bounds_witness :
  exists writes l',
    snd (write_LUT_ResolveCube
           (Lut (L2D (LUT2D.make "Tiny" [[0; 0; 0]; [1; 1; 1]]
                        (uniform_domain 0 (1 # 100000000)) []))) 7) = Ok writes /\
    read_LUT_ResolveCube "t.cube" (file_text writes) = Ok (Lut (L2D l')) /\
    snd (write_LUT_ResolveCube (Lut (L2D l')) 7) =
      Raise (AssertionError "LUT domain must be 1D!").
Proof.
  apply (shaper_collapsed_bounds "t.cube" _ 0 (1 # 100000000) 7).
  - unfold valid_shaper. split; [repeat constructor|].
    split; [cbn; lia|]. split; [reflexivity|]. split; [discriminate|].
    split; [reflexivity|]. constructor.
  - vm_compute. reflexivity.
Defined.

(** *** Line breaks in a comment *)

Lemma file_text_app (ws ws' : list string) :
  file_text (ws ++ ws') = file_text ws ++ file_text ws'.
Proof.
  induction ws as [|w ws IH]; [reflexivity|]. cbn [app file_text fold_right].
  fold (file_text (ws ++ ws')). fold (file_text ws).
  now rewrite IH, append_assoc.
Qed.

Lemma comment_line_break (a b : string) :
  comment_line (a ++ NL ++ "# " ++ b) = comment_line a ++ comment_line b.
Proof. unfold comment_line. now rewrite !append_assoc. Qed.

(** X22.  The writer does not escape a line break inside a comment: a shaper
    with the comment [a], a line feed, a hash and a space, [b] is written
    as the file of the shaper with the two comments [a] and [b], and is
    read back with these two comments. *)
Theorem comment_line_break_splits
    (path : string) (l : LUT2D.t) (lo hi : Q) (pre post : list string)
    (a b : string) (d : nat) :
  valid_shaper l lo hi ->
  Forall (fun c => single_line c = true) (pre ++ [a; b] ++ post) ->
  exists writes writes' l',
    snd (write_LUT_ResolveCube
           (Lut (L2D (LUT2D.set_comments
                        (pre ++ [a ++ NL ++ "# " ++ b] ++ post) l))) d)
      = Ok writes /\
    snd (write_LUT_ResolveCube
           (Lut (L2D (LUT2D.set_comments (pre ++ [a; b] ++ post) l))) d)
      = Ok writes' /\
    file_text writes = file_text writes' /\
    read_LUT_ResolveCube path (file_text writes) = Ok (Lut (L2D l')) /\
    LUT2D.comments l' = map strip (pre ++ [a; b] ++ post).
Proof.
  intros (Ht & Hs & Hd & Hne & Hn & _) Hc.
  assert (Hrect : rectilinear (LUT2D.domain l))
    by (rewrite Hd; now apply rectilinear_uniform).
  assert (H3 : Forall (fun row => 3 <= List.length row)%nat (LUT2D.table l)).
  { eapply Forall_impl; [|exact Ht]. intros row Hrow. unfold is_triple in Hrow. lia. }
  set (l1 := LUT2D.set_comments (pre ++ [a ++ NL ++ "# " ++ b] ++ post) l).
  set (l2 := LUT2D.set_comments (pre ++ [a; b] ++ post) l).
  pose proof (write_shaper_ok l1 d Hrect H3 Hs) as W1.
  pose proof (write_shaper_ok l2 d Hrect H3 Hs) as W2.
  pose proof (read_shaper_writes path l2 d Ht Hn Hc
                (fits_long (LUT2D.size l) ltac:(lia))) as R.
  assert (E : file_text (shaper_writes l1 d) = file_text (shaper_writes l2 d)).
  { unfold shaper_writes, l1, l2, LUT2D.set_comments, LUT2D.size.
    cbn [LUT2D.name LUT2D.table LUT2D.domain LUT2D.comments].
    change (file_text (?x :: ?r)) with (x ++ file_text r). f_equal.
    rewrite !file_text_app. f_equal.
    rewrite !map_app, !file_text_app. f_equal. f_equal.
    cbn [map file_text fold_right]. rewrite comment_line_break.
    now rewrite !append_assoc. }
  exists (shaper_writes l1 d), (shaper_writes l2 d). eexists.
  split; [now rewrite W1|]. split; [now rewrite W2|]. split; [exact E|].
  rewrite E. split; [exact R|]. reflexivity.
Qed.

Lemma comment_line_break_splits_witness :
  exists writes writes' l',
    snd (write_LUT_ResolveCube
           (Lut (L2D (LUT2D.set_comments
                        ([] ++ ["a" ++ NL ++ "# " ++ "LUT_3D_SIZE 9"] ++ [])
                        Samples.sample_shaper))) 7)
      = Ok writes /\
    snd (write_LUT_ResolveCube
           (Lut (L2D (LUT2D.set_comments ([] ++ ["a"; "LUT_3D_SIZE 9"] ++ [])
                        Samples.sample_shaper))) 7)
      = Ok writes' /\
    file_text writes = file_text writes' /\
    read_LUT_ResolveCube "x.cube" (file_text writes) = Ok (Lut (L2D l')) /\
    LUT2D.comments l' = map strip ([] ++ ["a"; "LUT_3D_SIZE 9"] ++ []).
Proof.
  apply (comment_line_break_splits "x.cube" Samples.sample_shaper (-1 # 10) 3
           [] [] "a" "LUT_3D_SIZE 9" 7).
  - unfold valid_shaper. split; [repeat constructor|].
    split; [cbn; lia|]. split; [reflexivity|]. split; [discriminate|].
    split; [reflexivity|]. repeat constructor.
  - repeat constructor.
Defined.

End MoreRoundTrips.
